(** * vizplay-studio: the data-analysis engine ([lib/dataUtils])

    A shallow embedding of the functions of the analysis engine
    ([detectColumnType], [analyzeData], [calculateCorrelation],
    [findOutliers], [generateInsights], [applyFilters],
    [groupAndAggregate], [addComputedFields]) and the properties its
    specification states about them.

    JavaScript numbers are IEEE 754 binary64 values: they are modelled by
    Rocq's primitive [float], whose operations are the same correctly
    rounded ones.  JavaScript strings are modelled by [string] (a string
    of bytes; the engine only inspects ASCII characters).  A row is a
    JavaScript object with scalar fields: an association list whose order
    is the order of [Object.keys].

    After the engine come the pieces of the components that call it
    (the importer, the dashboard, the chart card, the chart dialog, the
    presentation and the insight panel), as far as they are pure
    functions of their arguments and state, and further properties of
    both. *)

From Stdlib Require Import Reals Lra.
From Stdlib Require Import ZArith PArith List String Ascii Bool Lia.
From Stdlib Require Import Floats DecimalString Permutation.
From Stdlib Require Sorted.
Import ListNotations.

Set Warnings "-inexact-float".

Local Open Scope list_scope.
Local Open Scope string_scope.

(** ** JavaScript values and the built-ins the engine calls *)

Module JS.

(** The scalars a cell of an imported table can hold. *)
Inductive scalar : Type :=
  | VUndefined
  | VNull
  | VBool (b : bool)
  | VNum (x : float)
  | VStr (s : string).

(** *** Numbers *)

Definition isNaN (x : float) : bool := PrimFloat.is_nan x.

Definition isFinite (x : float) : bool :=
  negb (PrimFloat.is_nan x) && negb (PrimFloat.is_infinity x).

(** The number nearest to an integer (round to nearest, ties to even):
    the value of an integer literal, of [arr.length], of a counter. *)
Definition of_Z (z : Z) : float :=
  SF2Prim (binary_normalize prec emax z 0 false).

Definition of_nat (n : nat) : float := of_Z (Z.of_nat n).

(** [round_ratio n d] is the number nearest to the rational [n / d]
    ([0 <= n], [0 < d]).  The quotient is computed with at least 64
    significant bits and a sticky last bit, so that the final rounding
    to 53 bits is the rounding of the exact quotient. *)
Definition round_ratio (n d : Z) : float :=
  if (n =? 0)%Z then PrimFloat.zero else
  let k := Z.max 0 (64 + Z.log2 d - Z.log2 n) in
  let q := (Z.shiftl n k / d)%Z in
  let r := (Z.shiftl n k mod d)%Z in
  let m := (2 * q + (if (r =? 0)%Z then 0 else 1))%Z in
  SF2Prim (binary_normalize prec emax m (- (k + 1)) false).

(** The number nearest to [s * 10^p], for [0 <= s]. *)
Definition of_decimal (s p : Z) : float :=
  if (0 <=? p)%Z then of_Z (s * 10 ^ p) else round_ratio s (10 ^ (- p)).

(** The value of the finite number of sign [s], mantissa [m] and
    exponent [e] as a multiple of [2^ez], for [ez] not above [e]: the
    integer on which addition and subtraction work. *)
Definition scaled (s : bool) (m : positive) (e ez : Z) : Z :=
  cond_Zopp s (Zpos (fst (shl_align m e ez))).

(** The exact value of a positive finite number, as a fraction. *)
Definition exact_ratio (x : float) : option (Z * Z) :=
  match Prim2SF x with
  | S754_finite false m e =>
      Some (if (0 <=? e)%Z then (Z.shiftl (Zpos m) e, 1%Z)
            else (Zpos m, Z.shiftl 1 (- e)))
  | _ => None
  end.


(** *** Strings *)

Definition chars (s : string) : list ascii := list_ascii_of_string s.
Definition str (l : list ascii) : string := string_of_list_ascii l.

Definition is_digit (c : ascii) : bool :=
  let n := nat_of_ascii c in (48 <=? n)%nat && (n <=? 57)%nat.

(** [\w]: an ASCII letter, a digit or the underscore. *)
Definition is_word_char (c : ascii) : bool :=
  let n := nat_of_ascii c in
  is_digit c || ((65 <=? n)%nat && (n <=? 90)%nat)
  || ((97 <=? n)%nat && (n <=? 122)%nat) || (n =? 95)%nat.

(** White space and line terminators, as far as ASCII goes. *)
Definition is_space (c : ascii) : bool :=
  let n := nat_of_ascii c in ((9 <=? n)%nat && (n <=? 13)%nat) || (n =? 32)%nat.

Definition zeros (n : Z) : string := str (repeat "0"%char (Z.to_nat n)).

(** The decimal digits of a natural number ([0] gives ["0"]). *)
Definition digits_of (z : Z) : string :=
  NilZero.string_of_uint (N.to_uint (Z.to_N z)).

Definition strlen (s : string) : Z := Z.of_nat (String.length s).

Definition take (n : Z) (s : string) : string := substring 0 (Z.to_nat n) s.
Definition drop (n : Z) (s : string) : string :=
  substring (Z.to_nat n) (String.length s - Z.to_nat n) s.

(** *** [Number.prototype.toString] (radix 10) *)

(** [x = a / b < 10^n] *)
Definition below_pow10 (a b n : Z) : bool :=
  if (0 <=? n)%Z then (a <? b * 10 ^ n)%Z else (a * 10 ^ (- n) <? b)%Z.

Fixpoint decade_from (fuel : nat) (a b n : Z) : Z :=
  match fuel with
  | O => n
  | S fuel' => if below_pow10 a b n then n else decade_from fuel' a b (n + 1)
  end.

(** The [n] with [10^(n-1) <= a / b < 10^n]: the search starts under
    the decimal logarithm, estimated from the binary one. *)
Definition decade (a b : Z) : Z :=
  let t := (Z.log2 a - Z.log2 b - 1)%Z in
  decade_from 8 a b (t * 30103 / 100000 - 1).

(** The digits [s] (as a number with [k] digits) and the decade [n] of
    the shortest decimal [s * 10^(n-k)] that reads back as [x]; among
    the decimals with [k] digits the one nearest to [x], the even one on
    a tie.  [k] counts up from the argument; 17 digits always suffice. *)
Fixpoint shortest_digits (fuel : nat) (x : float) (a b n k : Z) : Z * Z :=
  match fuel with
  | O => (0%Z, n)
  | S fuel' =>
      let '(num, den) :=
        if (0 <=? k - n)%Z then (a * 10 ^ (k - n), b)%Z
        else (a, b * 10 ^ (n - k))%Z in
      let lo := (num / den)%Z in
      let hi := (lo + 1)%Z in
      let ok_lo := PrimFloat.eqb (of_decimal lo (n - k)) x in
      let ok_hi := PrimFloat.eqb (of_decimal hi (n - k)) x in
      let pick_hi :=
        if ok_lo && ok_hi then
          match (2 * num ?= (2 * lo + 1) * den)%Z with
          | Lt => false
          | Gt => true
          | Eq => Z.odd lo
          end
        else ok_hi in
      if ok_lo || ok_hi then
        if pick_hi then
          if (hi =? 10 ^ k)%Z then (10 ^ (k - 1), n + 1)%Z else (hi, n)
        else (lo, n)
      else shortest_digits fuel' x a b n (k + 1)
  end.

(** The layout of the digits [ds] with decade [n] (steps 6 to 10 of
    Number::toString). *)
Definition layout (ds : string) (n : Z) : string :=
  let k := strlen ds in
  if (k <=? n)%Z && (n <=? 21)%Z then ds ++ zeros (n - k)
  else if (0 <? n)%Z && (n <=? 21)%Z then take n ds ++ "." ++ drop n ds
  else if (-6 <? n)%Z && (n <=? 0)%Z then "0." ++ zeros (- n) ++ ds
  else
    let e := (n - 1)%Z in
    let es := (if (e <? 0)%Z then "-" else "+") ++ digits_of (Z.abs e) in
    if (k =? 1)%Z then ds ++ "e" ++ es
    else take 1 ds ++ "." ++ drop 1 ds ++ "e" ++ es.

Definition number_to_string (x : float) : string :=
  if PrimFloat.is_nan x then "NaN"
  else if PrimFloat.is_zero x then "0"
  else
    let sign := if PrimFloat.ltb x 0 then "-" else "" in
    let ax := PrimFloat.abs x in
    if PrimFloat.is_infinity ax then sign ++ "Infinity"
    else
      match exact_ratio ax with
      | Some (a, b) =>
          let '(s, n) := shortest_digits 17 ax a b (decade a b) 1 in
          sign ++ layout (digits_of s) n
      | None => "NaN"
      end.

(** *** [Number.prototype.toFixed] *)

Definition toFixed (x : float) (f : Z) : string :=
  if PrimFloat.is_nan x then "NaN"
  else if PrimFloat.leb (of_decimal 1 21) (PrimFloat.abs x) then number_to_string x
  else
    let sign := if PrimFloat.ltb x 0 then "-" else "" in
    let '(a, b) :=
      match exact_ratio (PrimFloat.abs x) with
      | Some ab => ab
      | None => (0%Z, 1%Z)
      end in
    (* the integer nearest to x * 10^f, the larger one on a tie *)
    let n := ((2 * a * 10 ^ f + b) / (2 * b))%Z in
    let m := digits_of n in
    if (f =? 0)%Z then sign ++ m
    else
      let m := if (strlen m <=? f)%Z then zeros (f + 1 - strlen m) ++ m else m in
      let k := strlen m in
      sign ++ take (k - f) m ++ "." ++ drop (k - f) m.

(** *** [Number(string)]: StringToNumber *)

Fixpoint drop_space (l : list ascii) : list ascii :=
  match l with
  | c :: l' => if is_space c then drop_space l' else l
  | [] => []
  end.

Definition trim (l : list ascii) : list ascii :=
  rev (drop_space (rev (drop_space l))).

Fixpoint span (p : ascii -> bool) (l : list ascii) : list ascii * list ascii :=
  match l with
  | c :: l' =>
      if p c then let '(a, b) := span p l' in (c :: a, b) else ([], l)
  | [] => ([], [])
  end.

Definition digit_value (c : ascii) : Z :=
  let n := Z.of_nat (nat_of_ascii c) in
  if (n <=? 57)%Z then (n - 48)%Z          (* 0-9 *)
  else if (n <=? 90)%Z then (n - 55)%Z     (* A-Z *)
  else (n - 87)%Z.                         (* a-z *)

Definition digits_value (radix : Z) (l : list ascii) : Z :=
  fold_left (fun acc c => (radix * acc + digit_value c)%Z) l 0%Z.

Definition is_digit_of (radix : Z) (c : ascii) : bool :=
  (is_digit c || is_word_char c && negb (nat_of_ascii c =? 95)%nat)
  && (digit_value c <? radix)%Z.

(** ExponentPart_opt followed by the end of the literal. *)
Definition exponent_part (l : list ascii) : option Z :=
  match l with
  | [] => Some 0%Z
  | c :: l' =>
      if Ascii.eqb c "e" || Ascii.eqb c "E" then
        let '(neg, l'') :=
          match l' with
          | s :: r =>
              if Ascii.eqb s "-" then (true, r)
              else if Ascii.eqb s "+" then (false, r) else (false, l')
          | [] => (false, l')
          end in
        match span is_digit l'' with
        | ((_ :: _) as ds, []) =>
            Some (if neg then (- digits_value 10 ds)%Z else digits_value 10 ds)
        | _ => None
        end
      else None
  end.

(** StrUnsignedDecimalLiteral *)
Definition unsigned_decimal (l : list ascii) : option float :=
  if String.eqb (str l) "Infinity" then Some PrimFloat.infinity
  else
    let '(ip, r1) := span is_digit l in
    let '(fp, r2, dot) :=
      match r1 with
      | c :: r =>
          if Ascii.eqb c "." then let '(fp, r2) := span is_digit r in (fp, r2, true)
          else ([], r1, false)
      | [] => ([], r1, false)
      end in
    match (ip ++ fp)%list with
    | [] => None
    | ds =>
        match exponent_part r2 with
        | Some e => Some (of_decimal (digits_value 10 ds) (e - Z.of_nat (List.length fp)))
        | None => None
        end
    end.

(** NonDecimalIntegerLiteral: [0x], [0o], [0b] and at least one digit. *)
Definition non_decimal (l : list ascii) : option float :=
  match l with
  | z :: p :: ((_ :: _) as ds) =>
      let radix :=
        if Ascii.eqb p "x" || Ascii.eqb p "X" then 16%Z
        else if Ascii.eqb p "o" || Ascii.eqb p "O" then 8%Z
        else if Ascii.eqb p "b" || Ascii.eqb p "B" then 2%Z
        else 0%Z in
      if Ascii.eqb z "0" && negb (radix =? 0)%Z && forallb (is_digit_of radix) ds
      then Some (of_Z (digits_value radix ds))
      else None
  | _ => None
  end.

Definition string_to_number (s : string) : float :=
  match trim (chars s) with
  | [] => PrimFloat.zero
  | (c :: r) as l =>
      match non_decimal l with
      | Some x => x
      | None =>
          let '(neg, body) :=
            if Ascii.eqb c "-" then (true, r)
            else if Ascii.eqb c "+" then (false, r) else (false, l) in
          match unsigned_decimal body with
          | Some x => if neg then PrimFloat.opp x else x
          | None => PrimFloat.nan
          end
      end
  end.

(** *** Conversions and comparisons of values *)

(** [Number(v)] *)
Definition Number (v : scalar) : float :=
  match v with
  | VUndefined => PrimFloat.nan
  | VNull => PrimFloat.zero
  | VBool b => if b then PrimFloat.one else PrimFloat.zero
  | VNum x => x
  | VStr s => string_to_number s
  end.

(** [String(v)] *)
Definition String (v : scalar) : string :=
  match v with
  | VUndefined => "undefined"
  | VNull => "null"
  | VBool b => if b then "true" else "false"
  | VNum x => number_to_string x
  | VStr s => s
  end.

(** The string an element contributes to [Array.prototype.join]:
    [undefined] and [null] contribute the empty string. *)
Definition join_item (v : scalar) : string :=
  match v with
  | VUndefined | VNull => ""
  | _ => String v
  end.

(** [items.join(sep)] on strings. *)
Fixpoint join (sep : string) (items : list string) : string :=
  match items with
  | [] => ""
  | [s] => s
  | s :: rest => s ++ sep ++ join sep rest
  end.

(** [s.split(sep)] for a separator of one character. *)
Fixpoint split_chars (sep : ascii) (l : list ascii) : list (list ascii) :=
  match l with
  | [] => [[]]
  | c :: l' =>
      if Ascii.eqb c sep then [] :: split_chars sep l'
      else
        match split_chars sep l' with
        | piece :: pieces => (c :: piece) :: pieces
        | [] => [[c]]
        end
  end.

Definition split (sep : ascii) (s : string) : list string :=
  map str (split_chars sep (chars s)).

(** [s.toLowerCase()], on the ASCII letters. *)
Definition lower_char (c : ascii) : ascii :=
  let n := nat_of_ascii c in
  if (65 <=? n)%nat && (n <=? 90)%nat then ascii_of_nat (n + 32) else c.

Definition toLowerCase (s : string) : string := str (map lower_char (chars s)).

(** [s.includes(t)] *)
Fixpoint includes (s t : string) : bool :=
  prefix t s ||
  match s with
  | EmptyString => false
  | String.String _ s' => includes s' t
  end.

(** [a === b] *)
Definition strict_eq (a b : scalar) : bool :=
  match a, b with
  | VUndefined, VUndefined => true
  | VNull, VNull => true
  | VBool x, VBool y => Bool.eqb x y
  | VNum x, VNum y => PrimFloat.eqb x y
  | VStr x, VStr y => String.eqb x y
  | _, _ => false
  end.

(** SameValueZero, the equality of [Set]: as [===], but NaN equals NaN. *)
Definition same_value_zero (a b : scalar) : bool :=
  match a, b with
  | VNum x, VNum y => PrimFloat.eqb x y || (PrimFloat.is_nan x && PrimFloat.is_nan y)
  | _, _ => strict_eq a b
  end.


(** *** [Math] *)

(** [Math.pow(x, 2)] *)
Definition sq (x : float) : float := PrimFloat.mul x x.

Definition max2 (a b : float) : float :=
  if PrimFloat.is_nan a || PrimFloat.is_nan b then PrimFloat.nan
  else if PrimFloat.ltb a b then b
  else if PrimFloat.ltb b a then a
  else if PrimFloat.get_sign a then b else a.      (* max(-0, +0) = +0 *)

Definition min2 (a b : float) : float :=
  if PrimFloat.is_nan a || PrimFloat.is_nan b then PrimFloat.nan
  else if PrimFloat.ltb a b then a
  else if PrimFloat.ltb b a then b
  else if PrimFloat.get_sign a then a else b.      (* min(-0, +0) = -0 *)

(** [Math.max(...xs)] and [Math.min(...xs)] *)
Definition Math_max (xs : list float) : float := fold_left max2 xs PrimFloat.neg_infinity.
Definition Math_min (xs : list float) : float := fold_left min2 xs PrimFloat.infinity.

(** *** Objects: own string-keyed properties in the order of [Object.keys]

    Keys that are array indices (canonical decimal numerals below
    [2^32 - 1]) come first, in increasing order; the other keys follow in
    the order of their creation.  Properties inherited from
    [Object.prototype] are not modelled. *)

Definition object (A : Type) : Type := list (string * A).

Definition array_index (k : string) : option Z :=
  let l := chars k in
  match l with
  | [] => None
  | c :: r =>
      if forallb is_digit l && (negb (Ascii.eqb c "0") || (List.length r =? 0)%nat)
         && (digits_value 10 l <? 2 ^ 32 - 1)%Z
      then Some (digits_value 10 l)
      else None
  end.

Section Objects.
Context {A : Type}.

(** [o[k]], [None] when [o] has no own property [k]. *)
Fixpoint lookup (o : object A) (k : string) : option A :=
  match o with
  | [] => None
  | (k', v) :: o' => if String.eqb k' k then Some v else lookup o' k
  end.

Definition keys (o : object A) : list string := map fst o.
Definition vals (o : object A) : list A := map snd o.

Fixpoint replace (o : object A) (k : string) (v : A) : object A :=
  match o with
  | [] => []
  | (k', v') :: o' =>
      if String.eqb k' k then (k', v) :: o' else (k', v') :: replace o' k v
  end.

(** Where a new array-index key [i] goes: before the first key that
    is a larger index or no index at all. *)
Fixpoint insert_index (o : object A) (i : Z) (k : string) (v : A) : object A :=
  match o with
  | [] => [(k, v)]
  | (k', v') :: o' =>
      match array_index k' with
      | Some j =>
          if (j <? i)%Z then (k', v') :: insert_index o' i k v
          else (k, v) :: o
      | None => (k, v) :: o
      end
  end.

(** [o[k] = v] *)
Definition set (o : object A) (k : string) (v : A) : object A :=
  match lookup o k with
  | Some _ => replace o k v
  | None =>
      match array_index k with
      | Some i => insert_index o i k v
      | None => (o ++ [(k, v)])%list
      end
  end.

(** [o[k] = v] on an object that inherits from [Object.prototype], for
    a value that is neither an object nor [null]: the key ["__proto__"],
    unless [o] has a property of that name itself, is the accessor of
    the prototype, whose setter ignores such a value, so that no
    property is made; every other key is set. *)
Definition assign (o : object A) (k : string) (v : A) : object A :=
  match lookup o k with
  | Some _ => set o k v
  | None => if String.eqb k "__proto__" then o else set o k v
  end.
End Objects.

(** *** The regular expressions of the engine

    A pattern anchored at both ends whose items are single characters
    or digit classes repeated a fixed number of times; [$] without the
    [m] flag matches at the end of the input only. *)

Module Regex.
Inductive atom := digit (* \d *) | char (c : ascii).
Inductive item := times (a : atom) (n : nat).   (* a{n} *)

Definition atom_ok (a : atom) (c : ascii) : bool :=
  match a with
  | digit => is_digit c
  | char c' => Ascii.eqb c c'
  end.

Fixpoint match_times (a : atom) (n : nat) (l : list ascii) : option (list ascii) :=
  match n with
  | O => Some l
  | S n' =>
      match l with
      | c :: l' => if atom_ok a c then match_times a n' l' else None
      | [] => None
      end
  end.

Fixpoint match_items (p : list item) (l : list ascii) : option (list ascii) :=
  match p with
  | [] => Some l
  | times a n :: p' =>
      match match_times a n l with
      | Some l' => match_items p' l'
      | None => None
      end
  end.

(** [/^p$/.test(s)] *)
Definition test (p : list item) (s : string) : bool :=
  match match_items p (chars s) with
  | Some [] => true
  | _ => false
  end.
End Regex.

(** *** What a call can do: return a value or throw *)

Inductive outcome (A : Type) : Type :=
  | Returns (a : A)
  | Throws (error : string).
Arguments Returns {A} a.
Arguments Throws {A} error.

End JS.

Import JS.
Local Open Scope float_scope.
Local Open Scope list_scope.
Local Open Scope string_scope.

(** ** The data model of the engine *)

(** [DataRow]: an object with scalar fields. *)
Definition DataRow : Type := object scalar.

(** [row[column]]: [undefined] when the row has no such field. *)
Definition get (row : DataRow) (column : string) : scalar :=
  match lookup row column with
  | Some v => v
  | None => VUndefined
  end.

Inductive ColumnType := numeric | categorical | date.

Module ColumnInfo.
Record t := { name : string; type : ColumnType; values : list scalar }.
End ColumnInfo.

(** The insight types 'correlation', 'outlier', 'trend', 'categorical'. *)
Inductive InsightType := Correlation | Outlier | Trend | Categorical.

Module DataInsight.
Record t := {
  title : string;
  description : string;
  confidence : float;
  type : InsightType
}.
End DataInsight.

Inductive Operator := equals | contains | greater | less | range | other.
(* [other]: any string outside the five operators, the [default] case *)

(** [FilterRule.value] is a scalar or, for [range], an array. *)
Inductive FilterValue := single (v : scalar) | array (vs : list scalar).

Module FilterRule.
Record t := {
  column : string;
  operator : Operator;
  value : FilterValue;
  enabled : bool
}.
End FilterRule.

Module ComputedField.
Record t := { name : string; expression : string; type : ColumnType }.
End ComputedField.

(** The aggregation functions 'sum', 'avg', 'count', 'min', 'max'. *)
Inductive AggFunction := Sum | Avg | Count | Min | Max.

Module Aggregation.
Record t := { column : string; function : AggFunction }.
End Aggregation.

(** What a caller without types can pass for [data]: an array of rows
    or something that is no array. *)
Inductive Input :=
  | undefined
  | null
  | boolean (b : bool)
  | number (x : float)
  | text (s : string)
  | rows (data : list DataRow).

(** ** Data type detection *)

(** [/^\d{4}-\d{2}-\d{2}$/] *)
Definition datePattern : list Regex.item :=
  [ Regex.times Regex.digit 4; Regex.times (Regex.char "-") 1;
    Regex.times Regex.digit 2; Regex.times (Regex.char "-") 1;
    Regex.times Regex.digit 2 ].

Definition detectColumnType (values : list scalar) : ColumnType :=
  let nonNullValues :=
    filter (fun v => negb (strict_eq v VNull) && negb (strict_eq v VUndefined)
                     && negb (strict_eq v (VStr ""))) values in
  if (List.length nonNullValues =? 0)%nat then categorical
  else
    let isDate := forallb (fun v => Regex.test datePattern (String v)) nonNullValues in
    if isDate then date
    else
      let isNumeric :=
        forallb (fun v => let num := Number v in negb (isNaN num) && isFinite num)
                nonNullValues in
      if isNumeric then numeric else categorical.

(** ** Analyze data structure *)

(** [[...new Set(values)]]: the distinct values in the order of their
    first occurrence; a set keeps [-0] as [+0]. *)
Definition Set_add (s : list scalar) (v : scalar) : list scalar :=
  if existsb (same_value_zero v) s then s
  else
    (s ++ [match v with
           | VNum x => if PrimFloat.is_zero x then VNum 0 else v
           | _ => v
           end])%list.

Definition new_Set (values : list scalar) : list scalar :=
  fold_left Set_add values [].

Definition analyzeData (data : list DataRow) : list ColumnInfo.t :=
  match data with
  | [] => []                                     (* data.length === 0 *)
  | row0 :: _ =>
      let columns := keys row0 in
      map (fun column =>
             let values := map (fun row => get row column) data in
             let type := detectColumnType values in
             {| ColumnInfo.name := column;
                ColumnInfo.type := type;
                ColumnInfo.values := firstn 50 (new_Set values) |})
          columns
  end.

(** [!data] *)
Definition falsy (data : Input) : bool :=
  match data with
  | undefined | null => true
  | boolean b => negb b
  | number x => PrimFloat.is_zero x || PrimFloat.is_nan x
  | text s => s =? ""
  | rows _ => false
  end.

(** [analyzeData(data)] called with any argument.  [!data] answers the
    falsy values; a truthy value that is no array has no [length] equal
    to [0], and the function fails where it first uses the value as an
    array of objects: at [Object.keys(data[0])] for numbers and [true],
    at [data.map] for a string (whose [data[0]] is a string with the
    key ["0"]). *)
Definition analyzeData_call (data : Input) : outcome (list ColumnInfo.t) :=
  if falsy data then Returns []
  else
    match data with
    | rows data => Returns (analyzeData data)
    | text _ => Throws "TypeError: data.map is not a function"
    | _ => Throws "TypeError: Cannot convert undefined or null to object"
    end.

(** ** Correlation between two numeric columns *)

Definition calculateCorrelation (data : list DataRow) (col1 col2 : string) : float :=
  let pairs :=
    filter (fun '(x, y) => negb (isNaN x) && negb (isNaN y))
           (map (fun row => (Number (get row col1), Number (get row col2))) data) in
  if (List.length pairs <? 2)%nat then 0
  else
    let n := of_nat (List.length pairs) in
    let sumX := fold_left (fun sum '(x, _) => sum + x) pairs 0 in
    let sumY := fold_left (fun sum '(_, y) => sum + y) pairs 0 in
    let sumXY := fold_left (fun sum '(x, y) => sum + x * y) pairs 0 in
    let sumX2 := fold_left (fun sum '(x, _) => sum + x * x) pairs 0 in
    let sumY2 := fold_left (fun sum '(_, y) => sum + y * y) pairs 0 in
    let numerator := n * sumXY - sumX * sumY in
    let denominator :=
      PrimFloat.sqrt ((n * sumX2 - sumX * sumX) * (n * sumY2 - sumY * sumY)) in
    if (denominator =? 0)%float then 0 else numerator / denominator.

(** ** Outliers by z-score *)

Definition findOutliers (data : list DataRow) (column : string) (threshold : float)
  : list DataRow :=
  let values :=
    filter (fun v => negb (isNaN v)) (map (fun row => Number (get row column)) data) in
  if (List.length values =? 0)%nat then []
  else
    let mean := fold_left (fun sum v => sum + v) values 0 / of_nat (List.length values) in
    let stdDev :=
      PrimFloat.sqrt (fold_left (fun sum v => sum + sq (v - mean)) values 0
                      / of_nat (List.length values)) in
    if (stdDev =? 0)%float then []
    else
      filter (fun row =>
                let value := Number (get row column) in
                if isNaN value then false
                else (threshold <? PrimFloat.abs ((value - mean) / stdDev))%float)
             data.

(** ** Insights *)

(** [xs.sort(compare)]: the sort is stable, and for a comparator that
    orders its arguments consistently its result is the one a stable
    insertion computes.  A comparator result that is not a number counts
    as zero. *)
Section Sort.
Context {A : Type} (compare : A -> A -> float).

Fixpoint insert (x : A) (sorted : list A) : list A :=
  match sorted with
  | [] => [x]
  | y :: sorted' =>
      if (0 <? compare x y)%float then y :: insert x sorted'
      else x :: sorted
  end.

Definition sort (xs : list A) : list A := fold_right insert [] xs.
End Sort.

(** The pairs [(xs[i], xs[j])] with [i < j], in the order of the two
    nested loops. *)
Fixpoint pairs_after {A : Type} (xs : list A) : list (A * A) :=
  match xs with
  | [] => []
  | x :: xs' => (map (pair x) xs' ++ pairs_after xs')%list
  end.

(** The three characters the source file has between ["(r "] and the
    rounded coefficient. *)
Definition approx : string :=
  str (map ascii_of_nat [195; 162; 226; 128; 176; 203; 134]%nat).

(** [acc[key] || 0] *)
Definition or_zero (c : option float) : float :=
  match c with
  | Some c => if PrimFloat.is_zero c || PrimFloat.is_nan c then 0 else c
  | None => 0
  end.

Definition correlationInsights (data : list DataRow) (numericColumns : list ColumnInfo.t)
  : list DataInsight.t :=
  flat_map
    (fun '(c1, c2) =>
       let col1 := ColumnInfo.name c1 in
       let col2 := ColumnInfo.name c2 in
       let correlation := calculateCorrelation data col1 col2 in
       if (0.5 <? PrimFloat.abs correlation)%float then
         let sign := if (0 <? correlation)%float then "positive" else "negative" in
         [ {| DataInsight.title := "Strong " ++ sign ++ " correlation found";
              DataInsight.description :=
                col1 ++ " and " ++ col2 ++ " show a " ++ sign
                ++ " correlation (r " ++ approx ++ " " ++ toFixed correlation 2 ++ ")";
              DataInsight.confidence := PrimFloat.abs correlation;
              DataInsight.type := Correlation |} ]
       else [])
    (pairs_after numericColumns).

Definition outlierInsights (data : list DataRow) (numericColumns : list ColumnInfo.t)
  : list DataInsight.t :=
  flat_map
    (fun col =>
       let outliers := findOutliers data (ColumnInfo.name col) 3 in
       let len := of_nat (List.length outliers) in
       if (0 <? len)%float && (len <? of_nat (List.length data) * 0.1)%float then
         [ {| DataInsight.title := "Outliers detected in " ++ ColumnInfo.name col;
              DataInsight.description :=
                "Found " ++ number_to_string len ++ " potential outliers in "
                ++ ColumnInfo.name col ++ " column";
              DataInsight.confidence := 0.8;
              DataInsight.type := Outlier |} ]
       else [])
    numericColumns.

Definition categoricalInsights (data : list DataRow) (categoricalColumns : list ColumnInfo.t)
  : list DataInsight.t :=
  flat_map
    (fun col =>
       let n := List.length (ColumnInfo.values col) in
       if (1 <? n)%nat && (n <? 20)%nat then
         let counts : object float :=
           fold_left (fun acc val =>
                        let key := String val in
                        set acc key (or_zero (lookup acc key) + 1))
                     (ColumnInfo.values col) [] in
         let countValues := vals counts in
         let maxCount :=
           if (0 <? List.length countValues)%nat then Math_max countValues else 0 in
         let maxCategory :=
           find (fun key =>
                   match lookup counts key with
                   | Some c => (c =? maxCount)%float
                   | None => false
                   end)
                (keys counts) in
         match maxCategory with
         | Some maxCategory =>
             if negb (maxCategory =? "")
                && (of_nat (List.length data) * 0.4 <? maxCount)%float
             then
               [ {| DataInsight.title := "Dominant category in " ++ ColumnInfo.name col;
                    DataInsight.description :=
                      maxCategory ++ " represents "
                      ++ toFixed (maxCount / of_nat (List.length data) * 100) 1
                      ++ "% of all " ++ ColumnInfo.name col ++ " values";
                    DataInsight.confidence := 0.7;
                    DataInsight.type := Categorical |} ]
             else []
         | None => []
         end
       else [])
    categoricalColumns.

Definition is_numeric (col : ColumnInfo.t) : bool :=
  match ColumnInfo.type col with numeric => true | _ => false end.

Definition is_categorical (col : ColumnInfo.t) : bool :=
  match ColumnInfo.type col with categorical => true | _ => false end.

Definition generateInsights (data : list DataRow) : list DataInsight.t :=
  let columns := analyzeData data in
  let numericColumns := filter is_numeric columns in
  let categoricalColumns := filter is_categorical columns in
  let insights :=
    (correlationInsights data numericColumns
     ++ outlierInsights data numericColumns
     ++ categoricalInsights data categoricalColumns)%list in
  firstn 5
    (sort (fun a b => DataInsight.confidence b - DataInsight.confidence a) insights).

(** ** Filters *)

(** [String(filter.value)] and [Number(filter.value)]; an array converts
    through the join of its elements with commas. *)
Definition String_of (v : FilterValue) : string :=
  match v with
  | single v => String v
  | array vs => join "," (map join_item vs)
  end.

Definition Number_of (v : FilterValue) : float :=
  match v with
  | single v => Number v
  | array vs => string_to_number (String_of v)
  end.

(** [const [min, max] = filter.value]: an array gives its first two
    elements, a string its first two characters, a missing one is
    [undefined]; any other value is not iterable. *)
Definition destructure2 (v : FilterValue) : outcome (scalar * scalar) :=
  match v with
  | array vs => Returns (nth 0 vs VUndefined, nth 1 vs VUndefined)
  | single (VStr s) =>
      let cs := map (fun c => VStr (str [c])) (chars s) in
      Returns (nth 0 cs VUndefined, nth 1 cs VUndefined)
  | single _ => Throws "TypeError: filter.value is not iterable"
  end.

(** [xs.every(p)] and [xs.filter(p)] for a callback that can throw. *)
Fixpoint every {A : Type} (p : A -> outcome bool) (xs : list A) : outcome bool :=
  match xs with
  | [] => Returns true
  | x :: xs' =>
      match p x with
      | Returns true => every p xs'
      | Returns false => Returns false
      | Throws e => Throws e
      end
  end.

Fixpoint filter_by {A : Type} (p : A -> outcome bool) (xs : list A) : outcome (list A) :=
  match xs with
  | [] => Returns []
  | x :: xs' =>
      match p x with
      | Returns keep =>
          match filter_by p xs' with
          | Returns kept => Returns (if keep then x :: kept else kept)
          | Throws e => Throws e
          end
      | Throws e => Throws e
      end
  end.

(** The callback of [filters.every] *)
Definition passes (row : DataRow) (filter : FilterRule.t) : outcome bool :=
  if negb (FilterRule.enabled filter) then Returns true
  else
    let value := get row (FilterRule.column filter) in
    match FilterRule.operator filter with
    | equals =>
        Returns match FilterRule.value filter with
                | single v => strict_eq value v
                | array _ => false
                end
    | contains =>
        Returns (includes (toLowerCase (String value))
                          (toLowerCase (String_of (FilterRule.value filter))))
    | greater =>
        Returns (Number_of (FilterRule.value filter) <? Number value)%float
    | less =>
        Returns (Number value <? Number_of (FilterRule.value filter))%float
    | range =>
        match destructure2 (FilterRule.value filter) with
        | Returns (min, max) =>
            Returns ((Number min <=? Number value)%float
                     && (Number value <=? Number max)%float)
        | Throws e => Throws e
        end
    | other => Returns true
    end.

Definition applyFilters (data : list DataRow) (filters : list FilterRule.t)
  : outcome (list DataRow) :=
  filter_by (fun row => every (passes row) filters) data.

(** ** Group and aggregate *)

(** [groupColumns.map(col => row[col]).join('|')] *)
Definition group_key (groupColumns : list string) (row : DataRow) : string :=
  join "|" (map (fun col => join_item (get row col)) groupColumns).

(** A [Map] with string keys: its entries in the order of insertion. *)
Definition Map_has {A : Type} (m : list (string * A)) (key : string) : bool :=
  existsb (fun '(k, _) => String.eqb k key) m.

Definition Map_set_new {A : Type} (m : list (string * A)) (key : string) (v : A)
  : list (string * A) := (m ++ [(key, v)])%list.

(** [groups.get(key).push(row)] *)
Definition Map_push {A : Type} (m : list (string * list A)) (key : string) (x : A)
  : list (string * list A) :=
  map (fun '(k, xs) => if String.eqb k key then (k, (xs ++ [x])%list) else (k, xs)) m.

Definition group_rows (groupColumns : list string) (data : list DataRow)
  : list (string * list DataRow) :=
  fold_left
    (fun groups row =>
       let key := group_key groupColumns row in
       let groups := if negb (Map_has groups key) then Map_set_new groups key [] else groups in
       Map_push groups key row)
    data [].

(** [xs.forEach((x, index) => ...)] as a fold that also passes the index. *)
Fixpoint fold_index {A B : Type} (f : B -> A -> nat -> B) (xs : list A) (index : nat) (acc : B) : B :=
  match xs with
  | [] => acc
  | x :: xs' => fold_index f xs' (S index) (f acc x index)
  end.

Definition aggregate (result : DataRow) (groupData : list DataRow) (agg : Aggregation.t)
  : DataRow :=
  let column := Aggregation.column agg in
  let values :=
    filter (fun v => negb (isNaN v)) (map (fun row => Number (get row column)) groupData) in
  match Aggregation.function agg with
  | Sum =>
      set result (column ++ "_sum") (VNum (fold_left (fun sum v => sum + v) values 0))
  | Avg =>
      set result (column ++ "_avg")
          (VNum (if (0 <? List.length values)%nat
                 then fold_left (fun sum v => sum + v) values 0 / of_nat (List.length values)
                 else 0))
  | Count => set result (column ++ "_count") (VNum (of_nat (List.length values)))
  | Min => set result (column ++ "_min") (VNum (Math_min values))
  | Max => set result (column ++ "_max") (VNum (Math_max values))
  end.

(** The output row of one entry [[key, groupData]] of the map. *)
Definition group_result (groupColumns : list string) (aggregations : list Aggregation.t)
           (key : string) (groupData : list DataRow) : DataRow :=
  let result : DataRow := [] in
  (* Add group columns *)
  let result :=
    fold_index
      (fun result col index =>
         assign result col
             match nth_error (split "|" key) index with
             | Some piece => VStr piece
             | None => VUndefined
             end)
      groupColumns 0%nat result in
  (* Add aggregations *)
  fold_left (fun result agg => aggregate result groupData agg) aggregations result.

Definition groupAndAggregate (data : list DataRow) (groupColumns : list string)
           (aggregations : list Aggregation.t) : list DataRow :=
  map (fun '(key, groupData) => group_result groupColumns aggregations key groupData)
      (group_rows groupColumns data).

(** ** Computed fields

    [addComputedFields] hands the text of each expression to a direct
    [eval].  The evaluated text runs in the scope of the two callbacks:
    it can read and change the arrays [data] and [computedFields] and
    the objects in them, the bindings [row] and [field], and the object
    [newRow], and it can give any value.  What the engine does with
    these afterwards is modelled; what the text does is the evaluator's,
    which is taken as it is used: from the text and what is in scope to
    a value or a thrown error, and to what is in scope afterwards.

    The binding [row] and the array [data] are given side by side: the
    object [row] is an element of [data], and an evaluator that changes
    the one changes the other with it.  The rows keep scalar cells, and
    what the text keeps outside these variables is not modelled. *)

(** A value of the language: a scalar, or anything else (an object, an
    array, a function), which the engine only stores. *)
Inductive value :=
  | Scalar (v : scalar)
  | Reference (address : nat).

(** The object [newRow]: its own cells, and whether it has been frozen
    ([Object.freeze]): the module is strict code, in which an assignment
    to a frozen object throws. *)
Module NewRow.
Record t := { cells : object value; frozen : bool }.
End NewRow.

(** The variables of the callback of [data.map]. *)
Module Frame.
Record t := {
  data : list DataRow;
  computedFields : list ComputedField.t;
  row : DataRow;
  newRow : NewRow.t }.
End Frame.

(** The variables in scope where [eval] is called: those of the
    callback of [data.map], and [field]. *)
Module Scope.
Record t := { frame : Frame.t; field : ComputedField.t }.
End Scope.

(** The functions every object inherits from [Object.prototype]; the
    accessor [__proto__] is inherited too. *)
Definition Object_prototype_functions : list string :=
  [ "constructor"; "__defineGetter__"; "__defineSetter__"; "hasOwnProperty";
    "__lookupGetter__"; "__lookupSetter__"; "isPrototypeOf";
    "propertyIsEnumerable"; "toString"; "valueOf"; "toLocaleString" ].

(** [text.replace(/\b(\w+)\b/g, f)]: every maximal run of word
    characters is replaced by its image. *)
Fixpoint replace_words (f : string -> string) (word : list ascii) (text : list ascii)
  : list ascii :=
  let flush := match word with [] => [] | _ => chars (f (str word)) end in
  match text with
  | [] => flush
  | c :: text' =>
      if is_word_char c then replace_words f (word ++ [c])%list text'
      else (flush ++ c :: replace_words f [] text')%list
  end.

(** [{...row}] *)
Definition spread (row : DataRow) : object value :=
  map (fun '(k, v) => (k, Scalar v)) row.

(** [newRow[key] = v] in strict code: it throws on a frozen object.
    The key [__proto__], unless it is a property of the object itself,
    is the accessor of the prototype: it makes no property (it changes
    the prototype when the value is an object or [null]; the prototype
    of the new row, which the engine never reads, is not modelled). *)
Definition assign_cell (target : NewRow.t) (key : string) (v : value)
  : outcome NewRow.t :=
  if NewRow.frozen target
  then Throws "TypeError: the object is frozen"
  else
    Returns {| NewRow.cells :=
                 match lookup (NewRow.cells target) key with
                 | Some _ => set (NewRow.cells target) key v
                 | None => if String.eqb key "__proto__" then NewRow.cells target
                           else set (NewRow.cells target) key v
                 end;
               NewRow.frozen := false |}.

Section ComputedFields.
(** [function_text name] is the text [String] gives for the function
    that objects inherit under [name]; the language leaves its layout
    to the implementation. *)
Variable function_text : string -> string.

(** [eval] is the host's direct [eval] at its one call. *)
Variable eval : string -> Scope.t -> outcome value * Scope.t.

(** [row[match] !== undefined ? String(row[match]) : match]: the text
    of the member of the row, its own cell or what it inherits from
    [Object.prototype], unless that is [undefined]. *)
Definition member_text (row : DataRow) (name : string) : option string :=
  match lookup row name with
  | Some VUndefined => None
  | Some v => Some (String v)
  | None =>
      if existsb (String.eqb name) Object_prototype_functions
      then Some (function_text name)
      else if String.eqb name "__proto__" then Some "[object Object]"
      else None
  end.

(** The expression of a field with the row's values put in. *)
Definition substitute (row : DataRow) (expression : string) : string :=
  str (replace_words
         (fun match_ =>
            match member_text row match_ with
            | Some image => image
            | None => match_
            end)
         [] (chars expression)).

(** The callback of [computedFields.forEach]: what is in scope after
    it, or the error that leaves it.  The name of the cell is read
    before the evaluation, and read again in the [catch]. *)
Definition field_callback (scope : Scope.t) : outcome Frame.t :=
  let field := Scope.field scope in
  let row := Frame.row (Scope.frame scope) in
  let name := ComputedField.name field in
  (* try *)
  let expression := substitute row (ComputedField.expression field) in
  let '(result, after) := eval expression scope in
  let keep (target : NewRow.t) : Frame.t :=
    {| Frame.data := Frame.data (Scope.frame after);
       Frame.computedFields := Frame.computedFields (Scope.frame after);
       Frame.row := Frame.row (Scope.frame after);
       Frame.newRow := target |} in
  let newRow := Frame.newRow (Scope.frame after) in
  let attempt :=
    match result with
    | Returns v => assign_cell newRow name v
    | Throws error => Throws error
    end in
  match attempt with
  | Returns target => Returns (keep target)
  | Throws _ =>
      (* catch *)
      match assign_cell newRow (ComputedField.name (Scope.field after)) (Scalar VNull) with
      | Returns target => Returns (keep target)
      | Throws error => Throws error
      end
  end.

(** [computedFields.forEach(callback)]: the indices below the length
    the array has at the start, each one read when it is reached; an
    index the array no longer has is passed over. *)
Fixpoint forEach_field (visits index : nat) (frame : Frame.t) : outcome Frame.t :=
  match visits with
  | O => Returns frame
  | S visits' =>
      match nth_error (Frame.computedFields frame) index with
      | Some field =>
          match field_callback {| Scope.frame := frame; Scope.field := field |} with
          | Returns frame' => forEach_field visits' (S index) frame'
          | Throws error => Throws error
          end
      | None => forEach_field visits' (S index) frame
      end
  end.

(** [data.map(callback)], in the same way; the new rows are given by
    their cells. *)
Fixpoint map_row (visits index : nat) (data : list DataRow)
         (computedFields : list ComputedField.t) : outcome (list (object value)) :=
  match visits with
  | O => Returns []
  | S visits' =>
      match nth_error data index with
      | Some row =>
          let newRow := {| NewRow.cells := spread row; NewRow.frozen := false |} in
          let frame :=
            {| Frame.data := data; Frame.computedFields := computedFields;
               Frame.row := row; Frame.newRow := newRow |} in
          match forEach_field (List.length computedFields) 0%nat frame with
          | Returns frame' =>
              match map_row visits' (S index) (Frame.data frame')
                            (Frame.computedFields frame') with
              | Returns rest => Returns (NewRow.cells (Frame.newRow frame') :: rest)
              | Throws error => Throws error
              end
          | Throws error => Throws error
          end
      | None => map_row visits' (S index) data computedFields
      end
  end.

Definition addComputedFields (data : list DataRow) (computedFields : list ComputedField.t)
  : outcome (list (object value)) :=
  map_row (List.length data) 0%nat data computedFields.
End ComputedFields.

(** ** The words of the specification *)

Module Spec.

(** A number in the closed interval [[-1, 1]]. *)
Definition in_unit_interval (r : float) : Prop :=
  ((-1 <=? r)%float && (r <=? 1)%float) = true.

(** The valid pairs of two columns: the numeric coercions of the two
    cells of a row, for the rows where neither is not-a-number. *)
Definition valid_pairs (data : list DataRow) (colA colB : string) : list (float * float) :=
  filter (fun p => negb (isNaN (fst p)) && negb (isNaN (snd p)))
         (map (fun row => (Number (get row colA), Number (get row colB))) data).

(** The arithmetic in which the formula is evaluated: double precision
    as the engine has it, or the real numbers. *)
Record arithmetic (N : Type) : Type := {
  zero : N;
  plus : N -> N -> N;
  minus : N -> N -> N;
  times : N -> N -> N;
  divide : N -> N -> N;
  root : N -> N;
  count : nat -> N;
  is_zero : N -> bool
}.
Arguments zero {N}.
Arguments plus {N}.
Arguments minus {N}.
Arguments times {N}.
Arguments divide {N}.
Arguments root {N}.
Arguments count {N}.
Arguments is_zero {N}.

Definition binary64 : arithmetic float :=
  {| zero := 0%float;
     plus := PrimFloat.add;
     minus := PrimFloat.sub;
     times := PrimFloat.mul;
     divide := PrimFloat.div;
     root := PrimFloat.sqrt;
     count := of_nat;
     is_zero := fun x => (x =? 0)%float |}.

Definition exact : arithmetic R :=
  {| zero := 0%R;
     plus := Rplus;
     minus := Rminus;
     times := Rmult;
     divide := Rdiv;
     root := R_sqrt.sqrt;
     count := INR;
     is_zero := fun x => if Req_dec_T x 0%R then true else false |}.

(** Pearson's coefficient by the sum formula
    [r = (n Sxy - Sx Sy) / sqrt ((n Sxx - Sx^2) (n Syy - Sy^2))],
    with the fallback [0] for fewer than 2 pairs and for a denominator
    that is exactly zero.  Sums are taken from the first pair to the
    last. *)
Section Pearson.
Context {N : Type} (ar : arithmetic N).

Definition total (f : N * N -> N) (pairs : list (N * N)) : N :=
  fold_left (fun acc p => plus ar acc (f p)) pairs (zero ar).

Definition pearson_numerator (pairs : list (N * N)) : N :=
  let n := count ar (List.length pairs) in
  minus ar (times ar n (total (fun p => times ar (fst p) (snd p)) pairs))
           (times ar (total fst pairs) (total snd pairs)).

Definition spread (f : N * N -> N) (pairs : list (N * N)) : N :=
  let n := count ar (List.length pairs) in
  minus ar (times ar n (total (fun p => times ar (f p) (f p)) pairs))
           (times ar (total f pairs) (total f pairs)).

Definition pearson_denominator (pairs : list (N * N)) : N :=
  root ar (times ar (spread fst pairs) (spread snd pairs)).

Definition pearson (pairs : list (N * N)) : N :=
  if (List.length pairs <? 2)%nat then zero ar
  else if is_zero ar (pearson_denominator pairs) then zero ar
  else divide ar (pearson_numerator pairs) (pearson_denominator pairs).
End Pearson.

(** The sum of [f] over the pairs, in the real numbers. *)
Fixpoint sum_of (f : R * R -> R) (pairs : list (R * R)) : R :=
  match pairs with
  | [] => 0%R
  | p :: pairs' => (f p + sum_of f pairs')%R
  end.

(** An insight of type CATEGORICAL that names [value] as the dominant
    one: its description starts with the value. *)
Definition names_dominant (value : string) (insight : DataInsight.t) : Prop :=
  DataInsight.type insight = Categorical
  /\ prefix (value ++ " represents ") (DataInsight.description insight) = true.

(** Type inference, in the words of its contract.  The entries
    excluded before inspection are null, undefined and the empty
    string. *)
Definition empty_entry (v : scalar) : Prop :=
  v = VNull \/ v = VUndefined \/ v = VStr "".

Inductive remaining : list scalar -> list scalar -> Prop :=
  | remaining_nil : remaining [] []
  | remaining_drop v values rest :
      empty_entry v -> remaining values rest -> remaining (v :: values) rest
  | remaining_keep v values rest :
      ~ empty_entry v -> remaining values rest ->
      remaining (v :: values) (v :: rest).

Definition decimal_digit (c : ascii) : Prop :=
  exists n, (n < 10)%nat /\ c = ascii_of_nat (48 + n).

(** A 4-digit year, a 2-digit month and a 2-digit day between
    hyphens, and nothing else. *)
Definition YYYY_MM_DD (s : string) : Prop :=
  exists y1 y2 y3 y4 m1 m2 d1 d2,
    Forall decimal_digit [y1; y2; y3; y4; m1; m2; d1; d2]
    /\ s = str [y1; y2; y3; y4; "-"%char; m1; m2; "-"%char; d1; d2].

Definition date_like (v : scalar) : Prop := YYYY_MM_DD (String v).

(** The value converts to a number that is neither NaN nor infinite. *)
Definition finite_number (v : scalar) : Prop :=
  PrimFloat.is_nan (Number v) = false /\ PrimFloat.is_infinity (Number v) = false.

Inductive inferType (values : list scalar) : ColumnType -> Prop :=
  | infer_nothing :
      remaining values [] -> inferType values categorical
  | infer_date rest :
      remaining values rest -> rest <> [] ->
      Forall date_like rest -> inferType values date
  | infer_numeric rest :
      remaining values rest -> rest <> [] ->
      ~ Forall date_like rest ->
      Forall finite_number rest -> inferType values numeric
  | infer_categorical rest :
      remaining values rest -> rest <> [] ->
      ~ Forall date_like rest ->
      ~ Forall finite_number rest -> inferType values categorical.

(** The distinct elements of a list, in the order of their first
    occurrence. *)
Definition distinct {A : Type} (eqb : A -> A -> bool) (xs : list A) : list A :=
  fold_left (fun seen x => if existsb (eqb x) seen then seen else (seen ++ [x])%list)
            xs [].

(** The combination of group-column values of a row; two combinations
    are the same when their values are, position by position. *)
Definition combination (groupColumns : list string) (row : DataRow) : list scalar :=
  map (get row) groupColumns.

Fixpoint same_combination (c1 c2 : list scalar) : bool :=
  match c1, c2 with
  | [], [] => true
  | v1 :: c1', v2 :: c2' => same_value_zero v1 v2 && same_combination c1' c2'
  | _, _ => false
  end.

Definition distinct_combinations (data : list DataRow) (groupColumns : list string)
  : list (list scalar) :=
  distinct same_combination (map (combination groupColumns) data).

(** The group keys of a dataset. *)
Definition distinct_keys (data : list DataRow) (groupColumns : list string) : list string :=
  distinct String.eqb (map (group_key groupColumns) data).

(** The name of the derived column of an aggregation:
    [{column}_{function}]. *)
Definition derived_name (agg : Aggregation.t) : string :=
  Aggregation.column agg ++ "_" ++
  match Aggregation.function agg with
  | Sum => "sum" | Avg => "avg" | Count => "count" | Min => "min" | Max => "max"
  end.

(** The text has no separator ['|'] in it. *)
Definition no_separator (s : string) : Prop := ~ In "|"%char (chars s).

(** A sequence of insights in descending order of confidence: for all
    adjacent pairs, the confidence of the earlier one is greater than
    or equal to that of the later one. *)
Definition descending (insights : list DataInsight.t) : Prop :=
  forall i earlier later,
    nth_error insights i = Some earlier ->
    nth_error insights (S i) = Some later ->
    (DataInsight.confidence later <=? DataInsight.confidence earlier)%float = true.

End Spec.

(** ** The scenarios of the specification *)

Module Scenario.

(** Rows with column [v] = [[10, 10, 10, 10, 1000]]. *)
Definition v_row (x : float) : DataRow := [("v", VNum x)].
Definition outlier_data : list DataRow := map v_row [10; 10; 10; 10; 1000].

(** Ten rows whose column [c] is ["X"] in five of them and has six
    distinct values. *)
Definition c_row (s : string) : DataRow := [("c", VStr s)].
Definition dominant_data : list DataRow :=
  map c_row ["X"; "A"; "X"; "B"; "X"; "C"; "X"; "D"; "X"; "E"].

(** Two rows of decimal fractions. *)
Definition ab_row (a b : float) : DataRow := [("a", VNum a); ("b", VNum b)].
Definition fraction_data : list DataRow := [ab_row 0 0.1; ab_row 0.1 0.2].

(** A column with a value that is infinite. *)
Definition infinite_data : list DataRow := [ab_row PrimFloat.infinity 1; ab_row 1 2].

Definition disabled_rule : FilterRule.t :=
  {| FilterRule.column := "v";
     FilterRule.operator := greater;
     FilterRule.value := single (VNum 100);
     FilterRule.enabled := false |}.

Definition enabled_rule : FilterRule.t :=
  {| FilterRule.column := "v";
     FilterRule.operator := less;
     FilterRule.value := single (VNum 100);
     FilterRule.enabled := true |}.

(** Two rows whose group values differ and whose joined keys agree. *)
Definition colliding_data : list DataRow :=
  [ [("a", VStr "x|y"); ("b", VStr "z")];
    [("a", VStr "x"); ("b", VStr "y|z")] ].

(** The grouping scenario, the group values being numbers. *)
Definition gv_row (g : scalar) (v : float) : DataRow := [("g", g); ("v", VNum v)].
Definition grouping_data : list DataRow :=
  [gv_row (VNum 1) 1; gv_row (VNum 1) 3; gv_row (VBool true) 5; gv_row VNull 7].

Definition sum_v : Aggregation.t :=
  {| Aggregation.column := "v"; Aggregation.function := Sum |}.

(** A row whose group column has the name of the derived column. *)
Definition clash_data : list DataRow := [ [("v_sum", VStr "a"); ("v", VNum 1)] ].

(** A field whose text freezes the new row and then fails, and two
    rows for it. *)
Definition freezing_text : string := "Object.freeze(newRow); null.x".

Definition freezing_field : ComputedField.t :=
  {| ComputedField.name := "broken";
     ComputedField.expression := freezing_text;
     ComputedField.type := numeric |}.

Definition double_field : ComputedField.t :=
  {| ComputedField.name := "twice";
     ComputedField.expression := "v";
     ComputedField.type := numeric |}.

Definition two_rows : list DataRow := [v_row 1; v_row 2].

(** What is in scope after [Object.freeze(newRow)]. *)
Definition frozen_scope (scope : Scope.t) : Scope.t :=
  {| Scope.frame :=
       {| Frame.data := Frame.data (Scope.frame scope);
          Frame.computedFields := Frame.computedFields (Scope.frame scope);
          Frame.row := Frame.row (Scope.frame scope);
          Frame.newRow :=
            {| NewRow.cells := NewRow.cells (Frame.newRow (Scope.frame scope));
               NewRow.frozen := true |} |};
     Scope.field := Scope.field scope |}.

(** An evaluator for the witnesses: a decimal numeral evaluates to its
    number and changes nothing, the freezing text freezes the new row
    and throws at [null.x], and every other text fails. *)
Definition sample_eval (text : string) (scope : Scope.t) : outcome value * Scope.t :=
  if String.eqb text freezing_text
  then (Throws "TypeError: Cannot read properties of null", frozen_scope scope)
  else
    match chars text with
    | [] => (Returns (Scalar VUndefined), scope)
    | cs => if forallb is_digit cs
            then (Returns (Scalar (VNum (string_to_number text))), scope)
            else (Throws "SyntaxError", scope)
    end.

(** A sample of [function_text], in the layout of V8. *)
Definition sample_function_text (name : string) : string :=
  "function " ++ name ++ "() { [native code] }".

(** Twenty rows: [b] is twice [a], and [v] is 10 but for one 1000. *)
Definition abv_row (k : nat) : DataRow :=
  [("a", VNum (of_nat k)); ("b", VNum (2 * of_nat k));
   ("v", VNum (if (k =? 7)%nat then 1000 else 10))].

Definition insight_data : list DataRow := map abv_row (seq 1 20).

End Scenario.

(** * Further definitions

    What the further properties below are stated with. *)

(** ** The order of the numbers

    [rank] maps the numbers to the integers so that the comparisons of
    numbers are the comparisons of their ranks. *)

Definition SFrank (x : spec_float) : Z :=
  match x with
  | S754_zero _ => 0%Z
  | S754_nan => 0%Z
  | S754_infinity s => cond_Zopp s (2 ^ 2100)%Z
  | S754_finite s m e => cond_Zopp s (Zpos m * 2 ^ (e + 1074))%Z
  end.

Definition rank (x : float) : Z := SFrank (Prim2SF x).

(** ** Filters, insights, groups and expressions *)

(** The values [const [min, max] = value] accepts: arrays and strings. *)
Definition is_iterable (v : FilterValue) : bool :=
  match v with
  | array _ => true
  | single (VStr _) => true
  | single _ => false
  end.

(** The operators that compare numbers. *)
Definition compares_numbers (op : Operator) : bool :=
  match op with
  | greater | less | range => true
  | _ => false
  end.

(** Every insight the three passes of [generateInsights] find, before
    the sort and the cut. *)
Definition candidate_insights (data : list DataRow) : list DataInsight.t :=
  let columns := analyzeData data in
  let numericColumns := filter is_numeric columns in
  let categoricalColumns := filter is_categorical columns in
  (correlationInsights data numericColumns
   ++ outlierInsights data numericColumns
   ++ categoricalInsights data categoricalColumns)%list.

(** The numeric cells of a column over the rows of a group, and the
    value an aggregation function gives for them: the bodies of the
    [switch] of [groupAndAggregate]. *)
Definition numeric_cells (column : string) (groupData : list DataRow) : list float :=
  filter (fun v => negb (isNaN v)) (map (fun row => Number (get row column)) groupData).

Definition aggregated (function : AggFunction) (values : list float) : float :=
  match function with
  | Sum => fold_left (fun sum v => sum + v) values 0
  | Avg => if (0 <? List.length values)%nat
           then fold_left (fun sum v => sum + v) values 0 / of_nat (List.length values)
           else 0
  | Count => of_nat (List.length values)
  | Min => Math_min values
  | Max => Math_max values
  end%float.

(** The rows of a dataset that have a given group key. *)
Definition rows_with_key (groupColumns : list string) (data : list DataRow) (key : string)
  : list DataRow :=
  filter (fun row => String.eqb (group_key groupColumns row) key) data.

(** What a word of an expression is replaced by: the text of the
    member of the row of that name (its own cell, or what the row
    inherits from [Object.prototype]), or the word itself when the row
    has no such member or the member is [undefined].  The empty text is
    no word. *)
Definition resolve (function_text : string -> string) (row : DataRow) (word : string)
  : string :=
  match chars word with
  | [] => ""
  | _ => match member_text function_text row word with
         | Some image => image
         | None => word
         end
  end.

(** * The components around the engine *)

(** ** Charts: [ChartType] and [ChartConfig] of ChartCard.tsx *)

Inductive ChartType := bar | line | scatter | pie | area | table | kpi.

Definition ChartType_eqb (a b : ChartType) : bool :=
  match a, b with
  | bar, bar | line, line | scatter, scatter | pie, pie
  | area, area | table, table | kpi, kpi => true
  | _, _ => false
  end.

Module ChartConfig.
Record t := {
  id : string;
  type : ChartType;
  title : string;
  xAxis : option string;
  yAxis : option string;
  color : option string;
  group : option string }.
End ChartConfig.

(** ** ChartModal: the selection of chart types *)

Module ChartModal.

(** [prev.includes(type) ? prev.filter(t => t !== type) : [...prev, type]] *)
Definition toggleChart (type : ChartType) (prev : list ChartType) : list ChartType :=
  if existsb (ChartType_eqb type) prev
  then filter (fun t => negb (ChartType_eqb t type)) prev
  else (prev ++ [type])%list.

End ChartModal.

(** ** ChartCard: what a card draws *)

Module ChartCard.

(** [!config.xAxis]: the axis is missing or the empty string. *)
Definition unset (axis : option string) : bool :=
  match axis with
  | Some name => String.eqb name ""
  | None => true
  end.

(** [Number(cell) || 0] *)
Definition number_or_zero (cell : scalar) : float := or_zero (Some (Number cell)).

(** [{...row, [xAxis]: String(row[xAxis]), [yAxis]: Number(row[yAxis]) || 0}] *)
Definition processedData (xAxis yAxis : string) (data : list DataRow) : list DataRow :=
  map (fun row =>
         set (set row xAxis (VStr (String (get row xAxis))))
             yAxis (VNum (number_or_zero (get row yAxis))))
      data.

(** The totals of the pie, by the text of the x cell;
    [Object.entries(pieData)] are its entries. *)
Definition pieData (xAxis yAxis : string) (data : list DataRow) : object float :=
  fold_left
    (fun acc row =>
       let key := String (get row xAxis) in
       let value := number_or_zero (get row yAxis) in
       set acc key (or_zero (lookup acc key) + value)%float)
    data [].

(** [String(row[col.name] ?? '')] *)
Definition cell_text (v : scalar) : string :=
  match v with
  | VUndefined | VNull => ""
  | _ => String v
  end.

(** What [renderChart] returns, with the data it hands to the drawing. *)
Inductive View :=
  | Placeholder                 (* Configure chart axes to display data *)
  | Plot (kind : ChartType) (data : list DataRow) (xKey yKey : string)
  | Pie (pieChartData : list (string * float))
  | Table (header : list string) (body : list (list string))
  | Kpi (total average max : float)
  | Nothing.                    (* return null *)

Definition renderChart (config : ChartConfig.t) (data : list DataRow)
           (columns : list ColumnInfo.t) : View :=
  match ChartConfig.xAxis config, ChartConfig.yAxis config with
  | Some xAxis, Some yAxis =>
      if unset (Some xAxis) || unset (Some yAxis) then Placeholder
      else
        let processed := processedData xAxis yAxis data in
        match ChartConfig.type config with
        | bar => Plot bar processed xAxis yAxis
        | line => Plot line processed xAxis yAxis
        | area => Plot area processed xAxis yAxis
        | scatter => Plot scatter processed xAxis yAxis
        | pie => Pie (pieData xAxis yAxis data)
        | table =>
            Table (map ColumnInfo.name (firstn 5 columns))
                  (map (fun row =>
                          map (fun col => cell_text (get row (ColumnInfo.name col)))
                              (firstn 5 columns))
                       (firstn 10 data))
        | kpi =>
            if unset (Some yAxis) then Nothing
            else
              let total :=
                fold_left (fun sum row => sum + number_or_zero (get row yAxis))%float
                          data 0%float in
              let average := (total / of_nat (List.length data))%float in
              let max := Math_max (map (fun row => number_or_zero (get row yAxis)) data) in
              Kpi total average max
        end
  | _, _ => Placeholder
  end.

End ChartCard.

(** ** Dashboard: the charts of the page *)

Module Dashboard.

Record State := {
  data : list DataRow;
  columns : list ColumnInfo.t;
  charts : list ChartConfig.t }.

Definition chart (id : string) (type : ChartType) (title : string)
           (xAxis yAxis : option string) : ChartConfig.t :=
  {| ChartConfig.id := id; ChartConfig.type := type; ChartConfig.title := title;
     ChartConfig.xAxis := xAxis; ChartConfig.yAxis := yAxis;
     ChartConfig.color := None; ChartConfig.group := None |}.

(** [handleDataImported(newData, newColumns)]; [now k] is what the
    call number [k] of [Date.now()] in it answers. *)
Definition handleDataImported (now : nat -> float) (newData : list DataRow)
           (newColumns : list ColumnInfo.t) (state : State) : State :=
  let initialCharts : list ChartConfig.t := [] in
  let initialCharts :=
    if (2 <=? List.length newColumns)%nat then
      let numericCols := filter is_numeric newColumns in
      let categoricalCols := filter is_categorical newColumns in
      let '(initialCharts, calls) :=
        match numericCols, categoricalCols with
        | n0 :: _, c0 :: _ =>
            ((initialCharts
              ++ [chart ("chart-" ++ number_to_string (now 0%nat) ++ "-1")
                        bar "Overview Chart"
                        (Some (ColumnInfo.name c0)) (Some (ColumnInfo.name n0))])%list,
             1%nat)
        | _, _ => (initialCharts, 0%nat)
        end in
      let '(initialCharts, calls) :=
        match numericCols with
        | n0 :: n1 :: _ =>
            ((initialCharts
              ++ [chart ("chart-" ++ number_to_string (now calls) ++ "-2")
                        scatter "Correlation Analysis"
                        (Some (ColumnInfo.name n0)) (Some (ColumnInfo.name n1))])%list,
             S calls)
        | _ => (initialCharts, calls)
        end in
      (initialCharts
       ++ [chart ("chart-" ++ number_to_string (now calls) ++ "-3")
                 table "Data Table" None None])%list
    else initialCharts in
  {| data := newData; columns := newColumns; charts := initialCharts |}.

Definition updateChart (updatedChart : ChartConfig.t) (state : State) : State :=
  {| data := data state; columns := columns state;
     charts := map (fun chart =>
                      if String.eqb (ChartConfig.id chart) (ChartConfig.id updatedChart)
                      then updatedChart else chart)
                   (charts state) |}.

Definition deleteChart (chartId : string) (state : State) : State :=
  {| data := data state; columns := columns state;
     charts := filter (fun chart => negb (String.eqb (ChartConfig.id chart) chartId))
                      (charts state) |}.

End Dashboard.

(** ** DataImporter: what reaches the dashboard *)

Module DataImporter.

(** The part of [handleJsonPaste] after [JSON.parse]: the parsed value
    is refused unless it is an array that is not empty; an accepted one
    goes with its columns to [onDataImported], the dashboard's
    [handleDataImported]. *)
Definition handleJsonPaste (now : nat -> float) (parsed : Input) (state : Dashboard.State)
  : outcome Dashboard.State :=
  match parsed with
  | rows data =>
      if (List.length data =? 0)%nat
      then Throws "Invalid JSON format. Expected an array of objects."
      else
        let columns := analyzeData data in
        Returns (Dashboard.handleDataImported now data columns state)
  | _ => Throws "Invalid JSON format. Expected an array of objects."
  end.

End DataImporter.

(** ** PresentationModal: slides and their insights *)

Module PresentationModal.

(** Slide numbers are small integers, on which the arithmetic of
    numbers is exact; [%] is the remainder of the truncated division. *)
Definition nextSlide (charts_length : Z) (prev : Z) : Z :=
  Z.rem (prev + 1) (charts_length + 1).

Definition prevSlide (charts_length : Z) (prev : Z) : Z :=
  Z.rem (prev - 1 + charts_length + 1) (charts_length + 1).

(** [chart.xAxis?.toLowerCase() || ''] *)
Definition lower_or_empty (axis : option string) : string :=
  match axis with
  | Some name => toLowerCase name
  | None => ""
  end.

Definition chartInsights (chart : ChartConfig.t) (insights : list DataInsight.t)
  : list DataInsight.t :=
  filter (fun insight =>
            includes (toLowerCase (DataInsight.description insight))
                     (lower_or_empty (ChartConfig.xAxis chart))
            || includes (toLowerCase (DataInsight.description insight))
                        (lower_or_empty (ChartConfig.yAxis chart)))
         insights.

End PresentationModal.

(** ** InsightPanel: colours and the export *)

Module InsightPanel.

Definition getInsightColor (confidence : float) : string :=
  if (0.8 <=? confidence)%float then "text-success"
  else if (0.6 <=? confidence)%float then "text-warning"
  else "text-muted-foreground".

Definition getConfidenceBadge (confidence : float) : string :=
  if (0.8 <=? confidence)%float then "bg-success"
  else if (0.6 <=? confidence)%float then "bg-warning"
  else "bg-muted".

(** [`"${row[col.name] || ''}"`]: the text of the cell between two
    double quotes, the empty text for a cell that is falsy. *)
Definition quote : string := str [ascii_of_nat 34].
Definition newline : string := str [ascii_of_nat 10].

Definition text_or_empty (v : scalar) : string :=
  match v with
  | VUndefined | VNull => ""
  | VBool b => if b then "true" else ""
  | VNum x => if PrimFloat.is_zero x || PrimFloat.is_nan x then "" else number_to_string x
  | VStr s => s
  end.

Definition csv_field (v : scalar) : string := quote ++ text_or_empty v ++ quote.

(** [exportDataAsCSV]: the content of the file, or nothing when there
    is no data. *)
Definition exportDataAsCSV (columns : list ColumnInfo.t) (data : list DataRow)
  : option string :=
  if (List.length data =? 0)%nat then None
  else
    Some (join newline
            (join "," (map ColumnInfo.name columns)
             :: map (fun row =>
                       join "," (map (fun col => csv_field (get row (ColumnInfo.name col)))
                                     columns))
                    data)).

End InsightPanel.

(** ** Sample rules and values for the further properties *)

Module Sample.

Definition above_five : FilterRule.t :=
  {| FilterRule.column := "v";
     FilterRule.operator := greater;
     FilterRule.value := single (VNum 5);
     FilterRule.enabled := true |}.

Definition between_five_and_hundred : FilterRule.t :=
  {| FilterRule.column := "v";
     FilterRule.operator := range;
     FilterRule.value := array [VNum 5; VNum 100];
     FilterRule.enabled := true |}.

Definition inverted_range : FilterRule.t :=
  {| FilterRule.column := "v";
     FilterRule.operator := range;
     FilterRule.value := array [VNum 100; VNum 5];
     FilterRule.enabled := true |}.

Definition max_v : Aggregation.t :=
  {| Aggregation.column := "v"; Aggregation.function := Max |}.

(** The outlier insight of [Scenario.insight_data]. *)
Definition outlier_insight : DataInsight.t :=
  {| DataInsight.title := "Outliers detected in v";
     DataInsight.description := "Found 1 potential outliers in v column";
     DataInsight.confidence := 0.8;
     DataInsight.type := Outlier |}.

End Sample.

(** The dashboard before any import, and a clock for the examples. *)
Module Example.

Definition empty_dashboard : Dashboard.State :=
  {| Dashboard.data := []; Dashboard.columns := []; Dashboard.charts := [] |}.

Definition clock (call : nat) : float := 1700000000000%float.

Definition data_table : ChartConfig.t :=
  Dashboard.chart "chart-1700000000000-3" table "Data Table" None None.

Definition renamed_table : ChartConfig.t :=
  Dashboard.chart "chart-1700000000000-3" table "All rows" None None.

End Example.

(** * Properties *)

(** ** Outliers (C2) *)

(** C2, as stated: [findOutliers] on the column [v] = [10,10,10,10,1000]
    with threshold 3 would return exactly the row with [v = 1000].  It
    does not: it returns no row. *)
Lemma findOutliers_scenario_not_the_row :
  findOutliers Scenario.outlier_data "v" 3 <> [Scenario.v_row 1000].
Proof. vm_compute. discriminate. Qed.

(** C2, amended: on the column [v] = [10,10,10,10,1000] the mean is 208
    and the population standard deviation 396, so the row with
    [v = 1000] has z-score exactly 2: with threshold 3 (and with
    threshold 2, the test being strict) [findOutliers] returns no row,
    and with threshold 1.5 it returns exactly the row with [v = 1000]. *)
Theorem findOutliers_scenario :
  findOutliers Scenario.outlier_data "v" 3 = []
  /\ findOutliers Scenario.outlier_data "v" 2 = []
  /\ findOutliers Scenario.outlier_data "v" 1.5 = [Scenario.v_row 1000]
  /\ PrimFloat.abs ((1000 - 208) / 396) = 2.
Proof. repeat split; vm_compute; reflexivity. Qed.

(** ** Dominant category (C1) *)

(** C1 at its scenario: ten rows, ["X"] in five of them, six distinct
    values.  The column is categorical and its distinct values are
    listed once each, so every frequency [generateInsights] counts is 1,
    never above 40% of ten rows: no insight is returned, in particular
    none naming ["X"]. *)
Theorem generateInsights_dominant_scenario :
  List.length Scenario.dominant_data = 10%nat
  /\ List.length (filter (fun row => strict_eq (get row "c") (VStr "X"))
                         Scenario.dominant_data) = 5%nat
  /\ map ColumnInfo.type (analyzeData Scenario.dominant_data) = [categorical]
  /\ map (fun col => List.length (ColumnInfo.values col))
         (analyzeData Scenario.dominant_data) = [6%nat]
  /\ generateInsights Scenario.dominant_data = []
  /\ ~ exists insight,
         In insight (generateInsights Scenario.dominant_data)
         /\ Spec.names_dominant "X" insight.
Proof.
  assert (E : generateInsights Scenario.dominant_data = []) by (vm_compute; reflexivity).
  repeat split; try (vm_compute; reflexivity).
  rewrite E. intros [insight [[] _]].
Qed.

(** ** Empty and non-array input (C3) *)

(** C3, as stated: given an empty dataset the entry point would signal
    an error.  It returns the empty sequence. *)
Lemma analyzeData_empty_no_error :
  ~ exists error, analyzeData_call (rows []) = Throws error.
Proof. intros [error H]. vm_compute in H. discriminate. Qed.

(** C3, amended: given an empty array, or a falsy value that is no array
    ([undefined], [null], [false], [0], [NaN], the empty string),
    [analyzeData] returns the empty sequence and signals no error. *)
Theorem analyzeData_empty_or_falsy (data : Input) :
  data = rows [] \/ falsy data = true -> analyzeData_call data = Returns [].
Proof.
  unfold analyzeData_call. intros [-> | H]; [reflexivity|].
  rewrite H. reflexivity.
Qed.

Lemma analyzeData_empty_or_falsy_witness :
  analyzeData_call (rows []) = Returns []
  /\ analyzeData_call undefined = Returns []
  /\ analyzeData_call null = Returns []
  /\ analyzeData_call (boolean false) = Returns []
  /\ analyzeData_call (number 0) = Returns []
  /\ analyzeData_call (number PrimFloat.nan) = Returns []
  /\ analyzeData_call (text "") = Returns [].
Proof.
  repeat match goal with |- _ /\ _ => split end;
    apply analyzeData_empty_or_falsy;
    first [left; reflexivity | right; reflexivity].
Defined.

(** A truthy value that is no array makes [analyzeData] fail at its
    first use of the value as an array of objects. *)
Lemma analyzeData_truthy_non_array :
  analyzeData_call (number 5)
  = Throws "TypeError: Cannot convert undefined or null to object"
  /\ analyzeData_call (boolean true)
     = Throws "TypeError: Cannot convert undefined or null to object"
  /\ analyzeData_call (text "abc") = Throws "TypeError: data.map is not a function".
Proof. repeat split. Qed.

(** ** Correlation (C6) *)

(** C6, as stated: the correlation of any two columns would lie in
    [[-1, 1]].  For the rows [{a: 0, b: 0.1}, {a: 0.1, b: 0.2}] the
    sums of the formula are rounded and the quotient is
    [1.0000000000000004]. *)
Lemma calculateCorrelation_above_one :
  ~ Spec.in_unit_interval (calculateCorrelation Scenario.fraction_data "a" "b").
Proof. unfold Spec.in_unit_interval. vm_compute. discriminate. Qed.

(** A cell that coerces to Infinity is a valid pair for the filter of
    [calculateCorrelation] (it is not NaN), and makes the sums, and the
    result, NaN. *)
Lemma calculateCorrelation_infinite_is_nan :
  PrimFloat.is_nan (calculateCorrelation Scenario.infinite_data "a" "b") = true.
Proof. vm_compute. reflexivity. Qed.

Lemma fold_left_pointwise {A B : Type} (f g : A -> B -> A) (l : list B) :
  (forall a b, f a b = g a b) -> forall a, fold_left f l a = fold_left g l a.
Proof.
  intros E. induction l as [|b l IH]; intros a; simpl; [reflexivity|].
  rewrite E. apply IH.
Qed.

Lemma filter_pointwise {A : Type} (p q : A -> bool) (l : list A) :
  (forall a, p a = q a) -> filter p l = filter q l.
Proof.
  intros E. induction l as [|a l IH]; simpl; [reflexivity|].
  rewrite E, IH. reflexivity.
Qed.

(** [calculateCorrelation] is the formula of the specification,
    evaluated in double precision on the valid pairs. *)
Lemma calculateCorrelation_formula (data : list DataRow) (col1 col2 : string) :
  calculateCorrelation data col1 col2
  = Spec.pearson Spec.binary64 (Spec.valid_pairs data col1 col2).
Proof.
  unfold calculateCorrelation, Spec.valid_pairs, Spec.pearson, Spec.pearson_denominator,
    Spec.pearson_numerator, Spec.spread, Spec.total.
  rewrite (filter_pointwise (fun '(x, y) => negb (isNaN x) && negb (isNaN y))
             (fun p => negb (isNaN (fst p)) && negb (isNaN (snd p))))
    by (intros [x y]; reflexivity).
  set (pairs := filter _ _). simpl.
  rewrite (fold_left_pointwise (fun sum '(x, _) => sum + x) (fun acc p => acc + fst p))
    by (intros a [x y]; reflexivity).
  rewrite (fold_left_pointwise (fun sum '(_, y) => sum + y) (fun acc p => acc + snd p))
    by (intros a [x y]; reflexivity).
  rewrite (fold_left_pointwise (fun sum '(x, y) => sum + x * y)
             (fun acc p => acc + fst p * snd p))
    by (intros a [x y]; reflexivity).
  rewrite (fold_left_pointwise (fun sum '(x, _) => sum + x * x)
             (fun acc p => acc + fst p * fst p))
    by (intros a [x y]; reflexivity).
  rewrite (fold_left_pointwise (fun sum '(_, y) => sum + y * y)
             (fun acc p => acc + snd p * snd p))
    by (intros a [x y]; reflexivity).
  reflexivity.
Qed.

(** *** The formula in the real numbers *)

Section ExactPearson.
Local Open Scope R_scope.
Implicit Types (pairs : list (R * R)) (f g : R * R -> R).

Lemma fold_sum_of f pairs : forall a, fold_left (fun acc p => acc + f p) pairs a = a + Spec.sum_of f pairs.
Proof.
  induction pairs as [|p pairs IH]; intros a; simpl; [lra|]. rewrite IH. lra.
Qed.

Lemma total_sum_of f pairs : Spec.total Spec.exact f pairs = Spec.sum_of f pairs.
Proof. unfold Spec.total. simpl. rewrite fold_sum_of. lra. Qed.

(** sum of squared distances to [c] *)
Lemma distances f pairs (c : R) :
  Spec.sum_of (fun p => (f p - c) * (f p - c)) pairs
  = Spec.sum_of (fun p => f p * f p) pairs - 2 * c * Spec.sum_of f pairs + INR (List.length pairs) * c * c.
Proof.
  induction pairs as [|p pairs IH]; [simpl; lra|].
  change (List.length (p :: pairs)) with (S (List.length pairs)).
  rewrite S_INR. simpl Spec.sum_of. rewrite IH. lra.
Qed.

Lemma sum_of_squares_nonneg f pairs : 0 <= Spec.sum_of (fun p => f p * f p) pairs.
Proof.
  induction pairs as [|p pairs IH]; simpl; [lra|]. pose proof (Rle_0_sqr (f p)). unfold Rsqr in *. lra.
Qed.

(** [n * sum of squares - square of the sum] is not negative *)
Lemma spread_nonneg f pairs :
  0 <= INR (List.length pairs) * Spec.sum_of (fun p => f p * f p) pairs - Spec.sum_of f pairs * Spec.sum_of f pairs.
Proof.
  induction pairs as [|p pairs IH]; [simpl; lra|].
  change (List.length (p :: pairs)) with (S (List.length pairs)).
  rewrite S_INR. simpl Spec.sum_of.
  pose proof (sum_of_squares_nonneg (fun q => f q - f p) pairs) as D.
  cbv beta in D. rewrite (distances f pairs (f p)) in D. nra.
Qed.
Lemma sum_of_plus (f g : R * R -> R) pairs :
  Spec.sum_of (fun p => f p + g p) pairs = Spec.sum_of f pairs + Spec.sum_of g pairs.
Proof. induction pairs as [|p pairs IH]; simpl; [lra|]. rewrite IH. lra. Qed.

Lemma sum_of_scale (c : R) (f : R * R -> R) pairs :
  Spec.sum_of (fun p => c * f p) pairs = c * Spec.sum_of f pairs.
Proof. induction pairs as [|p pairs IH]; simpl; [lra|]. rewrite IH. lra. Qed.

Lemma sum_of_ext (f g : R * R -> R) pairs :
  (forall p, f p = g p) -> Spec.sum_of f pairs = Spec.sum_of g pairs.
Proof. intros E. induction pairs as [|p pairs IH]; simpl; [lra|]. rewrite E, IH. lra. Qed.

(** The quadratic [A t^2 + 2 C t + B] is the spread of [t x + y]. *)
Lemma quadratic_nonneg pairs (t : R) :
  let n := INR (List.length pairs) in
  let A := n * Spec.sum_of (fun p => fst p * fst p) pairs - Spec.sum_of fst pairs * Spec.sum_of fst pairs in
  let B := n * Spec.sum_of (fun p => snd p * snd p) pairs - Spec.sum_of snd pairs * Spec.sum_of snd pairs in
  let C := n * Spec.sum_of (fun p => fst p * snd p) pairs - Spec.sum_of fst pairs * Spec.sum_of snd pairs in
  0 <= A * t * t + 2 * C * t + B.
Proof.
  intros n A B C.
  pose proof (spread_nonneg (fun p => t * fst p + snd p) pairs) as H.
  cbv beta in H. fold n in H.
  rewrite (sum_of_plus (fun p => t * fst p) snd) in H.
  rewrite (sum_of_scale t fst) in H.
  rewrite (sum_of_ext (fun p => (t * fst p + snd p) * (t * fst p + snd p))
             (fun p => (t * t) * (fst p * fst p)
                       + ((2 * t) * (fst p * snd p) + snd p * snd p))) in H
    by (intros p; lra).
  rewrite (sum_of_plus (fun p => t * t * (fst p * fst p))) in H.
  rewrite (sum_of_plus (fun p => 2 * t * (fst p * snd p))) in H.
  rewrite (sum_of_scale (t * t) (fun p => fst p * fst p)) in H.
  rewrite (sum_of_scale (2 * t) (fun p => fst p * snd p)) in H.
  unfold A, B, C. nra.
Qed.

(** Cauchy-Schwarz, from the sign of the quadratic. *)
Lemma discriminant (A B C : R) :
  0 <= A -> (forall t, 0 <= A * t * t + 2 * C * t + B) -> C * C <= A * B.
Proof.
  intros PA Q. destruct (Req_dec_T A 0) as [Z|NZ].
  - subst A. destruct (Req_dec_T C 0) as [ZC|NC]; [subst; lra|].
    exfalso. specialize (Q (- (B + 1) / (2 * C))).
    replace (0 * (- (B + 1) / (2 * C)) * (- (B + 1) / (2 * C))
             + 2 * C * (- (B + 1) / (2 * C)) + B) with (-1) in Q by (field; exact NC).
    lra.
  - specialize (Q (- C / A)).
    replace (A * (- C / A) * (- C / A) + 2 * C * (- C / A) + B)
      with ((A * B - C * C) / A) in Q by (field; exact NZ).
    assert (0 < A) by lra.
    assert (0 <= (A * B - C * C) / A * A) by (apply Rmult_le_pos; [exact Q|lra]).
    replace ((A * B - C * C) / A * A) with (A * B - C * C) in * by (field; exact NZ).
    lra.
Qed.

Lemma pearson_exact_bound pairs : -1 <= Spec.pearson Spec.exact pairs <= 1.
Proof.
  unfold Spec.pearson. destruct (List.length pairs <? 2)%nat; [simpl; lra|].
  change (Spec.is_zero Spec.exact (Spec.pearson_denominator Spec.exact pairs))
    with (if Req_dec_T (Spec.pearson_denominator Spec.exact pairs) 0 then true else false).
  destruct (Req_dec_T (Spec.pearson_denominator Spec.exact pairs) 0) as [Z|NZ]; [simpl; lra|].
  unfold Spec.pearson_denominator, Spec.pearson_numerator, Spec.spread in *.
  simpl in *. rewrite !total_sum_of in *.
  set (n := INR (List.length pairs)) in *.
  set (A := n * Spec.sum_of (fun p => fst p * fst p) pairs - Spec.sum_of fst pairs * Spec.sum_of fst pairs) in *.
  set (B := n * Spec.sum_of (fun p => snd p * snd p) pairs - Spec.sum_of snd pairs * Spec.sum_of snd pairs) in *.
  set (C := n * Spec.sum_of (fun p => fst p * snd p) pairs - Spec.sum_of fst pairs * Spec.sum_of snd pairs).
  assert (PA : 0 <= A) by apply spread_nonneg.
  assert (PB : 0 <= B) by apply spread_nonneg.
  assert (CS : C * C <= A * B)
    by (apply discriminant; [exact PA|intros t; apply quadratic_nonneg]).
  assert (PD : 0 < R_sqrt.sqrt (A * B)) by (pose proof (sqrt_pos (A * B)); lra).
  assert (SQ : R_sqrt.sqrt (A * B) * R_sqrt.sqrt (A * B) = A * B)
    by (apply sqrt_sqrt, Rmult_le_pos; assumption).
  assert (AC : Rabs C <= R_sqrt.sqrt (A * B)).
  { rewrite <- sqrt_Rsqr_abs. apply sqrt_le_1_alt. exact CS. }
  assert (LU : - R_sqrt.sqrt (A * B) <= C <= R_sqrt.sqrt (A * B))
    by (unfold Rabs in AC; destruct (Rcase_abs C); lra).
  split; apply (Rmult_le_reg_r (R_sqrt.sqrt (A * B))); try exact PD;
    unfold Rdiv; rewrite Rmult_assoc, Rinv_l by lra; lra.
Qed.
End ExactPearson.

(** C6, amended: the correlation function is the Pearson sum formula
    evaluated in double precision on the valid pairs.  When fewer than
    2 rows yield a valid numeric pair, or when the denominator of the
    formula is exactly zero, it returns 0; otherwise it returns the
    quotient of the numerator and the denominator as double precision
    computes them.  Evaluated in the real numbers the formula has its
    value in [[-1, 1]]; that bound is a fact of the real numbers and
    not of the double-precision result, which is not confined to the
    interval. *)
Theorem calculateCorrelation_fallbacks (data : list DataRow) (col1 col2 : string) :
  let pairs := Spec.valid_pairs data col1 col2 in
  calculateCorrelation data col1 col2 = Spec.pearson Spec.binary64 pairs
  /\ ((List.length pairs < 2)%nat -> calculateCorrelation data col1 col2 = 0)
  /\ ((Spec.pearson_denominator Spec.binary64 pairs =? 0)%float = true ->
      calculateCorrelation data col1 col2 = 0)
  /\ ((2 <= List.length pairs)%nat ->
      (Spec.pearson_denominator Spec.binary64 pairs =? 0)%float = false ->
      calculateCorrelation data col1 col2
      = Spec.pearson_numerator Spec.binary64 pairs
        / Spec.pearson_denominator Spec.binary64 pairs)
  /\ (forall reals : list (R * R), (-1 <= Spec.pearson Spec.exact reals <= 1)%R).
Proof.
  intros pairs.
  assert (F : calculateCorrelation data col1 col2 = Spec.pearson Spec.binary64 pairs)
    by apply calculateCorrelation_formula.
  split; [exact F|]. rewrite F. unfold Spec.pearson.
  change (Spec.is_zero Spec.binary64 (Spec.pearson_denominator Spec.binary64 pairs))
    with (Spec.pearson_denominator Spec.binary64 pairs =? 0)%float.
  split; [|split; [|split]].
  - intros H. apply Nat.ltb_lt in H. rewrite H. reflexivity.
  - intros H. rewrite H. destruct (_ <? _)%nat; reflexivity.
  - intros H D. rewrite D.
    destruct (Nat.ltb_spec (List.length pairs) 2) as [L|L]; [lia|reflexivity].
  - apply pearson_exact_bound.
Qed.

(** The cases at work: one valid pair, a constant column, and the rows
    [{a:1,b:2}, {a:2,b:4}, {a:3,b:6}] of the specification. *)
Lemma calculateCorrelation_fallbacks_witness :
  calculateCorrelation [Scenario.ab_row 1 2] "a" "b" = 0
  /\ calculateCorrelation [Scenario.ab_row 1 2; Scenario.ab_row 1 3] "a" "b" = 0
  /\ calculateCorrelation
       [Scenario.ab_row 1 2; Scenario.ab_row 2 4; Scenario.ab_row 3 6] "a" "b" = 1.
Proof.
  split; [|split].
  - apply (calculateCorrelation_fallbacks [Scenario.ab_row 1 2] "a" "b").
    vm_compute. lia.
  - apply (calculateCorrelation_fallbacks
             [Scenario.ab_row 1 2; Scenario.ab_row 1 3] "a" "b").
    vm_compute. reflexivity.
  - rewrite (proj1 (proj2 (proj2 (proj2 (calculateCorrelation_fallbacks
             [Scenario.ab_row 1 2; Scenario.ab_row 2 4; Scenario.ab_row 3 6] "a" "b"))))).
    + vm_compute. reflexivity.
    + vm_compute. lia.
    + vm_compute. reflexivity.
Defined.

(** ** Filters (C8) *)

Lemma every_skip_disabled (row : DataRow) (rule : FilterRule.t)
      (before after : list FilterRule.t) :
  FilterRule.enabled rule = false ->
  every (passes row) (before ++ rule :: after) = every (passes row) (before ++ after).
Proof.
  intros Off. induction before as [|f before IH]; simpl.
  - unfold passes at 1. rewrite Off. reflexivity.
  - rewrite IH. reflexivity.
Qed.

Lemma filter_by_pointwise {A : Type} (p q : A -> outcome bool) (xs : list A) :
  (forall x, p x = q x) -> filter_by p xs = filter_by q xs.
Proof.
  intros E. induction xs as [|x xs IH]; simpl; [reflexivity|].
  rewrite E, IH. reflexivity.
Qed.

(** C8: with no rule [applyFilters] returns the dataset unchanged, and a
    rule whose [enabled] flag is false, added anywhere in a rule list,
    changes nothing of the result: no row that passes is excluded (nor
    is one included, nor an error raised or avoided). *)
Theorem applyFilters_identity_and_disabled :
  (forall data, applyFilters data [] = Returns data)
  /\ (forall data before rule after,
         FilterRule.enabled rule = false ->
         applyFilters data (before ++ rule :: after)
         = applyFilters data (before ++ after)).
Proof.
  split.
  - intros data. unfold applyFilters.
    induction data as [|row data IH]; simpl in *; [reflexivity|].
    rewrite IH. reflexivity.
  - intros data before rule after Off. unfold applyFilters.
    apply filter_by_pointwise. intros row.
    apply every_skip_disabled. exact Off.
Qed.

Lemma applyFilters_identity_and_disabled_witness :
  applyFilters Scenario.outlier_data [] = Returns Scenario.outlier_data
  /\ applyFilters Scenario.outlier_data
       ([Scenario.enabled_rule] ++ Scenario.disabled_rule :: [])
     = Returns (map Scenario.v_row [10; 10; 10; 10]).
Proof.
  split.
  - apply (proj1 applyFilters_identity_and_disabled).
  - rewrite (proj2 applyFilters_identity_and_disabled Scenario.outlier_data
               [Scenario.enabled_rule] Scenario.disabled_rule []).
    + vm_compute. reflexivity.
    + reflexivity.
Defined.

(** ** Type inference (C5) *)

Section TypeInference.

(** The filter of [detectColumnType] *)
Let kept (v : scalar) : bool :=
  negb (strict_eq v VNull) && negb (strict_eq v VUndefined)
  && negb (strict_eq v (VStr "")).

Lemma kept_iff (v : scalar) : kept v = true <-> ~ Spec.empty_entry v.
Proof.
  unfold kept, Spec.empty_entry. destruct v as [| |b|x|s]; simpl.
  - split; [discriminate|]. intros H. exfalso. apply H. auto.
  - split; [discriminate|]. intros H. exfalso. apply H. auto.
  - split; [|reflexivity]. intros _ [H|[H|H]]; discriminate.
  - split; [|reflexivity]. intros _ [H|[H|H]]; discriminate.
  - destruct (String.eqb_spec s "") as [->|N]; simpl.
    + split; [discriminate|]. intros H. exfalso. apply H. auto.
    + split; [|reflexivity].
      intros _ [H|[H|H]]; try discriminate. injection H as ->. apply N. reflexivity.
Qed.

Lemma remaining_filter (values : list scalar) :
  Spec.remaining values (filter kept values).
Proof.
  induction values as [|v values IH]; simpl; [constructor|].
  destruct (kept v) eqn:K.
  - apply Spec.remaining_keep; [apply kept_iff; exact K | exact IH].
  - apply Spec.remaining_drop; [|exact IH].
    destruct v as [| |b|x|s]; unfold Spec.empty_entry; auto; try discriminate.
    unfold kept in K. simpl in K.
    destruct (String.eqb_spec s "") as [->|N]; [auto|discriminate].
Qed.

Lemma remaining_unique (values rest : list scalar) :
  Spec.remaining values rest -> rest = filter kept values.
Proof.
  induction 1 as [|v values rest E _ IH|v values rest E _ IH]; simpl.
  - reflexivity.
  - destruct (kept v) eqn:K; [|exact IH].
    apply kept_iff in K. contradiction.
  - destruct (kept v) eqn:K; [rewrite IH; reflexivity|].
    apply kept_iff in E. congruence.
Qed.

Lemma is_digit_iff (c : ascii) : is_digit c = true <-> Spec.decimal_digit c.
Proof.
  unfold is_digit, Spec.decimal_digit. split.
  - intros H. apply andb_true_iff in H. destruct H as [L U].
    apply Nat.leb_le in L. apply Nat.leb_le in U.
    exists (nat_of_ascii c - 48)%nat. split; [lia|].
    replace (48 + (nat_of_ascii c - 48))%nat with (nat_of_ascii c) by lia.
    symmetry. apply ascii_nat_embedding.
  - intros [n [L ->]]. rewrite nat_ascii_embedding by lia.
    apply andb_true_iff. split; apply Nat.leb_le; lia.
Qed.

Lemma str_chars (s : string) : str (chars s) = s.
Proof. apply string_of_list_ascii_of_string. Qed.

(** The pattern [/^\d{4}-\d{2}-\d{2}$/] accepts the strings of the
    form YYYY-MM-DD and no other. *)
Lemma datePattern_iff (s : string) :
  Regex.test datePattern s = true <-> Spec.YYYY_MM_DD s.
Proof.
  unfold Spec.YYYY_MM_DD. split.
  - intros H. rewrite <- (str_chars s). unfold Regex.test in H.
    destruct (chars s) as [|c1 [|c2 [|c3 [|c4 [|c5 [|c6 [|c7 [|c8 [|c9 [|c10 l]]]]]]]]]];
      simpl in H; try discriminate;
      repeat match type of H with
             | context [if ?b then _ else _] => destruct b eqn:?; try discriminate
             end.
    destruct l; [|discriminate].
    repeat match goal with
           | E : Ascii.eqb _ _ = true |- _ => apply Ascii.eqb_eq in E; subst
           | E : is_digit _ = true |- _ => apply is_digit_iff in E
           end.
    exists c1, c2, c3, c4, c6, c7, c9, c10. split; [|reflexivity].
    repeat constructor; assumption.
  - intros (y1 & y2 & y3 & y4 & m1 & m2 & d1 & d2 & D & ->).
    repeat match goal with
           | F : Forall _ (_ :: _) |- _ => inversion F; subst; clear F
           end.
    repeat match goal with
           | E : Spec.decimal_digit _ |- _ => apply is_digit_iff in E
           end.
    unfold Regex.test, chars, str. rewrite list_ascii_of_string_of_list_ascii.
    repeat (simpl; rewrite ?Ascii.eqb_refl;
            repeat match goal with
                   | E : is_digit ?c = true |- context [is_digit ?c] => rewrite E
                   end).
    reflexivity.
Qed.

Lemma forallb_Forall {A : Type} (p : A -> bool) (P : A -> Prop) (l : list A) :
  (forall a, p a = true <-> P a) -> forallb p l = true <-> Forall P l.
Proof.
  intros E. rewrite forallb_forall, Forall_forall.
  split; intros H a I; apply E, H, I.
Qed.

Lemma finite_iff (v : scalar) :
  (let num := Number v in negb (isNaN num) && isFinite num) = true
  <-> Spec.finite_number v.
Proof.
  unfold Spec.finite_number, isNaN, isFinite. cbv zeta.
  destruct (PrimFloat.is_nan (Number v)), (PrimFloat.is_infinity (Number v));
    simpl; split; try discriminate; intuition congruence.
Qed.

(** C5: [detectColumnType] drops the null, undefined and empty-string
    entries; if nothing remains the type is CATEGORICAL; otherwise, if
    every remaining value stringified matches exactly YYYY-MM-DD, it is
    DATE; otherwise, if every remaining value coerces to a finite
    number, NUMERIC; otherwise CATEGORICAL.  The DATE check comes
    first: it decides whatever the numeric check would say. *)
Theorem detectColumnType_inferType (values : list scalar) (t : ColumnType) :
  detectColumnType values = t <-> Spec.inferType values t.
Proof.
  assert (R := remaining_filter values).
  unfold detectColumnType. fold kept.
  set (rest := filter kept values) in *.
  assert (D := forallb_Forall (fun v => Regex.test datePattern (String v))
                 Spec.date_like rest (fun v => datePattern_iff (String v))).
  assert (F := forallb_Forall _ Spec.finite_number rest finite_iff).
  split.
  - intros <-.
    destruct rest as [|v rest'] eqn:E; [apply Spec.infer_nothing; exact R|].
    rewrite <- E in *. replace (List.length rest =? 0)%nat with false by (rewrite E; reflexivity).
    destruct (forallb (fun v => Regex.test datePattern (String v)) rest) eqn:B.
    + apply (Spec.infer_date _ rest); [exact R| congruence | apply D; reflexivity].
    + assert (ND : ~ Forall Spec.date_like rest)
        by (intros H; apply D in H; congruence).
      match goal with |- context [if ?b then _ else _] => destruct b eqn:N end.
      * apply (Spec.infer_numeric _ rest); [exact R|congruence|exact ND|apply F; reflexivity].
      * apply (Spec.infer_categorical _ rest); [exact R|congruence|exact ND|].
        intros H. apply F in H. congruence.
  - intros I.
    destruct I as [R'|rest' R' NE FD|rest' R' NE ND FN|rest' R' NE ND NN];
      apply remaining_unique in R'; fold rest in R'; try subst rest'.
    + rewrite <- R'. reflexivity.
    + destruct rest; [congruence|]. simpl (List.length _ =? 0)%nat. cbv iota.
      apply D in FD. rewrite FD. reflexivity.
    + destruct rest as [|v r] eqn:E; [congruence|]. rewrite <- E in *.
      replace (List.length rest =? 0)%nat with false by (rewrite E; reflexivity).
      destruct (forallb (fun v => Regex.test datePattern (String v)) rest) eqn:B;
        [exfalso; apply ND, D; reflexivity|].
      apply F in FN. cbv zeta in FN |- *. rewrite FN. reflexivity.
    + destruct rest as [|v r] eqn:E; [congruence|]. rewrite <- E in *.
      replace (List.length rest =? 0)%nat with false by (rewrite E; reflexivity).
      destruct (forallb (fun v => Regex.test datePattern (String v)) rest) eqn:B;
        [exfalso; apply ND, D; reflexivity|].
      match goal with |- context [if ?b then _ else _] => destruct b eqn:N end;
        [|reflexivity].
      exfalso. apply NN, F. reflexivity.
Qed.

End TypeInference.

(** ** Objects: reading a property after an assignment *)

Section ObjectFacts.
Context {A : Type}.
Implicit Types (o : object A) (k : string) (v : A).

Lemma lookup_replace o k v k' :
  lookup (replace o k v) k' =
  if k =? k' then match lookup o k with Some _ => Some v | None => None end
  else lookup o k'.
Proof.
  induction o as [|[k0 v0] o IH]; simpl.
  - destruct (k =? k'); reflexivity.
  - destruct (String.eqb_spec k0 k) as [->|N]; simpl.
    + destruct (String.eqb_spec k k'); reflexivity.
    + rewrite IH. destruct (String.eqb_spec k k') as [->|N'].
      * apply String.eqb_neq in N. rewrite N. reflexivity.
      * reflexivity.
Qed.

Lemma lookup_insert_index o i k v k' :
  lookup o k = None ->
  lookup (insert_index o i k v) k' = if k =? k' then Some v else lookup o k'.
Proof.
  induction o as [|[k0 v0] o IH]; simpl; [reflexivity|].
  destruct (String.eqb_spec k0 k) as [->|N]; [discriminate|]. intros Fresh.
  destruct (array_index k0) as [j|]; [destruct (j <? i)%Z|]; simpl; try reflexivity.
  rewrite (IH Fresh). destruct (String.eqb_spec k k') as [E|N']; [|reflexivity].
  rewrite <- E. apply String.eqb_neq in N. rewrite N. reflexivity.
Qed.

Lemma lookup_append o k v k' :
  lookup o k = None ->
  lookup (o ++ [(k, v)])%list k' = if k =? k' then Some v else lookup o k'.
Proof.
  induction o as [|[k0 v0] o IH]; simpl; [reflexivity|].
  destruct (String.eqb_spec k0 k) as [->|N]; [discriminate|]. intros Fresh.
  rewrite (IH Fresh). destruct (String.eqb_spec k k') as [E|N']; [|reflexivity].
  rewrite <- E. apply String.eqb_neq in N. rewrite N. reflexivity.
Qed.

(** After [o[k] = v], [o[k]] is [v] and the other properties are as
    before. *)
Lemma lookup_set o k v k' :
  lookup (set o k v) k' = if k =? k' then Some v else lookup o k'.
Proof.
  unfold set. destruct (lookup o k) as [v0|] eqn:L.
  - rewrite lookup_replace, L. reflexivity.
  - destruct (array_index k) as [i|].
    + apply lookup_insert_index. exact L.
    + apply lookup_append. exact L.
Qed.
End ObjectFacts.

Lemma get_set (row : DataRow) (k k' : string) (v : scalar) :
  get (set row k v) k' = if k =? k' then v else get row k'.
Proof.
  unfold get. rewrite lookup_set. destruct (k =? k'); reflexivity.
Qed.

(** An assignment changes no other cell, and sets its own unless it
    hits the accessor [__proto__]. *)
Lemma get_assign_other (row : DataRow) (k k' : string) (v : scalar) :
  k <> k' -> get (assign row k v) k' = get row k'.
Proof.
  intros D. unfold assign.
  destruct (lookup row k); [|destruct (k =? "__proto__"); [reflexivity|]];
    rewrite get_set; apply String.eqb_neq in D; rewrite D; reflexivity.
Qed.

Lemma get_assign (row : DataRow) (k : string) (v : scalar) :
  k <> "__proto__" -> get (assign row k v) k = v.
Proof.
  intros D. unfold assign. apply String.eqb_neq in D. rewrite D.
  destruct (lookup row k); rewrite get_set, String.eqb_refl; reflexivity.
Qed.

(** ** Computed fields (C9) *)

Section ComputedFieldFacts.
Variable function_text : string -> string.
Variable eval : string -> Scope.t -> outcome value * Scope.t.

(** None of the words of the freezing text is a member of a row that
    has only the cell [v]: the text is evaluated as it is. *)
Lemma freezing_text_as_it_is (x : float) :
  substitute function_text (Scenario.v_row x) Scenario.freezing_text
  = Scenario.freezing_text.
Proof. reflexivity. Qed.

(** When the evaluation of a field's text fails and leaves the new
    row frozen, the [catch] block fails too: the callback throws. *)
Lemma field_callback_frozen (scope after : Scope.t) (error : string) :
  eval (substitute function_text (Frame.row (Scope.frame scope))
                   (ComputedField.expression (Scope.field scope))) scope
  = (Throws error, after) ->
  NewRow.frozen (Frame.newRow (Scope.frame after)) = true ->
  exists uncaught, field_callback function_text eval scope = Throws uncaught.
Proof.
  intros Fails Frozen. unfold field_callback. cbv zeta. rewrite Fails.
  unfold assign_cell. rewrite Frozen. eexists. reflexivity.
Qed.

(** C9, at the failing input: the rows [{v: 1}, {v: 2}] and the one
    field [broken] with the expression
    [Object.freeze(newRow); null.x].  The evaluated text has [newRow]
    in scope: it freezes it and then fails.  The [catch] block's
    [newRow[field.name] = null] is an assignment to a frozen object in
    strict code: it throws, nothing catches that, and the batch aborts
    on the first row, with no value for any row, where the claim says
    that the field gets [null] and that the batch never aborts. *)
Theorem addComputedFields_aborts :
  (forall scope,
     exists error,
       eval Scenario.freezing_text scope = (Throws error, Scenario.frozen_scope scope)) ->
  exists error,
    addComputedFields function_text eval Scenario.two_rows [Scenario.freezing_field]
    = Throws error.
Proof.
  intros Freezes. unfold addComputedFields, Scenario.two_rows.
  cbn [List.length map_row nth_error forEach_field Frame.computedFields].
  match goal with
  | |- context [field_callback function_text eval ?scope] =>
      destruct (Freezes scope) as [error Fails];
      destruct (field_callback_frozen scope _ error Fails eq_refl) as [uncaught ->]
  end.
  exists uncaught. reflexivity.
Qed.

(** What the [try] and the [catch] are there for: as long as the
    evaluated texts change nothing in scope, no failure leaves the
    callback, and there is a new row for every row. *)
Section ChangingNothing.
Hypothesis changes_nothing : forall text scope, snd (eval text scope) = scope.

Let with_newRow (frame : Frame.t) (target : NewRow.t) : Frame.t :=
  {| Frame.data := Frame.data frame;
     Frame.computedFields := Frame.computedFields frame;
     Frame.row := Frame.row frame;
     Frame.newRow := target |}.

Lemma field_callback_returns (scope : Scope.t) :
  NewRow.frozen (Frame.newRow (Scope.frame scope)) = false ->
  exists target,
    field_callback function_text eval scope
    = Returns (with_newRow (Scope.frame scope) target)
    /\ NewRow.frozen target = false.
Proof.
  intros Open. unfold field_callback. cbv zeta.
  match goal with
  | |- context [eval ?text scope] =>
      pose proof (changes_nothing text scope) as Same;
      destruct (eval text scope) as [result after]
  end.
  simpl in Same. subst after. unfold assign_cell. rewrite Open.
  destruct result as [v|error]; eexists; split; reflexivity.
Qed.

Lemma forEach_field_returns (visits : nat) :
  forall index frame,
    NewRow.frozen (Frame.newRow frame) = false ->
    exists target,
      forEach_field function_text eval visits index frame
      = Returns (with_newRow frame target)
      /\ NewRow.frozen target = false.
Proof.
  induction visits as [|visits IH]; intros index frame Open; simpl.
  - exists (Frame.newRow frame). split; [destruct frame; reflexivity|exact Open].
  - destruct (nth_error (Frame.computedFields frame) index) as [field|];
      [|exact (IH (S index) frame Open)].
    destruct (field_callback_returns {| Scope.frame := frame; Scope.field := field |} Open)
      as [target [-> Open']].
    cbn [Scope.frame].
    destruct (IH (S index) (with_newRow frame target) Open') as [target' [E Open'']].
    exists target'. split; [exact E|exact Open''].
Qed.

Lemma map_row_returns (visits : nat) :
  forall index data computedFields,
    (index + visits <= List.length data)%nat ->
    exists newRows,
      map_row function_text eval visits index data computedFields = Returns newRows
      /\ List.length newRows = visits.
Proof.
  induction visits as [|visits IH]; intros index data computedFields Bound; simpl.
  - exists []. split; reflexivity.
  - destruct (nth_error data index) as [row|] eqn:At.
    + match goal with
      | |- context [forEach_field function_text eval ?n ?i ?frame] =>
          destruct (forEach_field_returns n i frame eq_refl) as [target [-> _]]
      end.
      cbn [with_newRow Frame.data Frame.computedFields Frame.newRow].
      destruct (IH (S index) data computedFields ltac:(lia)) as [rest [-> L]].
      eexists. split; [reflexivity|]. simpl. rewrite L. reflexivity.
    + apply nth_error_None in At. lia.
Qed.

Lemma addComputedFields_returns (data : list DataRow)
      (computedFields : list ComputedField.t) :
  exists newRows,
    addComputedFields function_text eval data computedFields = Returns newRows
    /\ List.length newRows = List.length data.
Proof. apply map_row_returns. lia. Qed.
End ChangingNothing.
End ComputedFieldFacts.

Lemma addComputedFields_aborts_witness :
  exists error,
    addComputedFields Scenario.sample_function_text Scenario.sample_eval
                      Scenario.two_rows [Scenario.freezing_field]
    = Throws error.
Proof.
  apply addComputedFields_aborts.
  intros scope. eexists. reflexivity.
Defined.

(** With an expression that touches nothing in scope the same rows get
    their new cell. *)
Lemma addComputedFields_example :
  addComputedFields Scenario.sample_function_text Scenario.sample_eval
                    Scenario.two_rows [Scenario.double_field]
  = Returns [ [("v", Scalar (VNum 1)); ("twice", Scalar (VNum 1))];
              [("v", Scalar (VNum 2)); ("twice", Scalar (VNum 2))] ].
Proof. vm_compute. reflexivity. Qed.

(** ** Group and aggregate (C4, C10) *)

Section Distinct.
Context {A : Type} (eqb : A -> A -> bool).
Hypothesis eqb_eq : forall x y, eqb x y = true <-> x = y.

Let step (seen : list A) (x : A) : list A :=
  if existsb (eqb x) seen then seen else (seen ++ [x])%list.

Lemma existsb_eqb_In (x : A) (seen : list A) :
  existsb (eqb x) seen = true <-> In x seen.
Proof.
  rewrite existsb_exists. split.
  - intros [y [I E]]. apply eqb_eq in E. subst. exact I.
  - intros I. exists x. split; [exact I|]. apply eqb_eq. reflexivity.
Qed.

Lemma distinct_from (xs : list A) :
  forall seen, NoDup seen ->
    NoDup (fold_left step xs seen)
    /\ forall x, In x (fold_left step xs seen) <-> In x seen \/ In x xs.
Proof.
  induction xs as [|y xs IH]; intros seen ND; simpl.
  - split; [exact ND|]. intros x. tauto.
  - assert (ND' : NoDup (step seen y)).
    { unfold step. destruct (existsb (eqb y) seen) eqn:E; [exact ND|].
      apply NoDup_app; [exact ND|repeat constructor; intros []|].
      intros x I [<-|[]].
      apply existsb_eqb_In in I. congruence. }
    destruct (IH _ ND') as [N I]. split; [exact N|].
    intros x. rewrite I. unfold step.
    destruct (existsb (eqb y) seen) eqn:E.
    + apply existsb_eqb_In in E. split; [tauto|].
      intros [H|[<-|H]]; tauto.
    + rewrite in_app_iff. simpl. tauto.
Qed.

(** [distinct] lists every element once. *)
Lemma distinct_spec (xs : list A) :
  NoDup (Spec.distinct eqb xs) /\ forall x, In x (Spec.distinct eqb xs) <-> In x xs.
Proof.
  destruct (distinct_from xs [] (NoDup_nil A)) as [N I].
  split; [exact N|]. intros x. specialize (I x). simpl in I.
  unfold Spec.distinct. fold step. tauto.
Qed.
End Distinct.

Lemma group_rows_keys_from (groupColumns : list string) (data : list DataRow) :
  forall groups : list (string * list DataRow),
    map fst
      (fold_left
         (fun groups row =>
            let key := group_key groupColumns row in
            let groups :=
              if negb (Map_has groups key) then Map_set_new groups key [] else groups in
            Map_push groups key row)
         data groups)
    = fold_left
        (fun seen x => if existsb (String.eqb x) seen then seen else (seen ++ [x])%list)
        (map (group_key groupColumns) data) (map fst groups).
Proof.
  induction data as [|row data IH]; intros groups; simpl; [reflexivity|].
  rewrite IH. f_equal.
  set (key := group_key groupColumns row).
  assert (P : forall (g : list (string * list DataRow)),
             map fst (Map_push g key row) = map fst g).
  { induction g as [|[k xs] g IHg]; simpl; [reflexivity|].
    rewrite IHg. destruct (k =? key); reflexivity. }
  assert (H : Map_has groups key = existsb (String.eqb key) (map fst groups)).
  { unfold Map_has. clear IH. induction groups as [|[k xs] g IHg]; simpl; [reflexivity|].
    rewrite IHg, (String.eqb_sym k key). reflexivity. }
  rewrite P, H. destruct (existsb (String.eqb key) (map fst groups)); simpl.
  - reflexivity.
  - unfold Map_set_new. rewrite map_app. reflexivity.
Qed.

(** The keys of the map of groups are the distinct group keys of the
    dataset, in the order of their first row. *)
Lemma group_rows_keys (groupColumns : list string) (data : list DataRow) :
  map fst (group_rows groupColumns data) = Spec.distinct_keys data groupColumns.
Proof. apply (group_rows_keys_from groupColumns data []). Qed.

(** The distinct group keys: each key of the dataset, once. *)
Lemma distinct_keys_spec (data : list DataRow) (groupColumns : list string) :
  NoDup (Spec.distinct_keys data groupColumns)
  /\ forall key, In key (Spec.distinct_keys data groupColumns) <->
                 exists row, In row data /\ group_key groupColumns row = key.
Proof.
  unfold Spec.distinct_keys. split.
  - apply (distinct_spec String.eqb String.eqb_eq).
  - intros key. rewrite (proj2 (distinct_spec String.eqb String.eqb_eq _)).
    rewrite in_map_iff. split; intros [row H]; exists row; tauto.
Qed.

(** C4, as stated: the number of output rows would be the number of
    distinct combinations of group-column values.  The rows
    [{a: "x|y", b: "z"}] and [{a: "x", b: "y|z"}] are two combinations
    and one joined key ["x|y|z"]: one output row. *)
Lemma groupAndAggregate_collision :
  List.length (groupAndAggregate Scenario.colliding_data ["a"; "b"] [])
  <> List.length (Spec.distinct_combinations Scenario.colliding_data ["a"; "b"]).
Proof. vm_compute. discriminate. Qed.

(** C4, amended: for every dataset, group-column list and aggregation
    list, the number of rows returned by [groupAndAggregate] equals the
    number of distinct group keys present in the input dataset, the key
    of a row being the concatenation of the string forms of its
    group-column values joined by ['|']. *)
Theorem groupAndAggregate_one_row_per_key
        (data : list DataRow) (groupColumns : list string)
        (aggregations : list Aggregation.t) :
  let keys := Spec.distinct_keys data groupColumns in
  List.length (groupAndAggregate data groupColumns aggregations) = List.length keys
  /\ NoDup keys
  /\ forall key, In key keys <->
                 exists row, In row data /\ group_key groupColumns row = key.
Proof.
  intros keys. split; [|split].
  - unfold groupAndAggregate. rewrite length_map.
    rewrite <- (length_map fst). rewrite group_rows_keys. reflexivity.
  - apply distinct_keys_spec.
  - apply distinct_keys_spec.
Qed.

(** *** Splitting a joined key *)

Lemma chars_append (s1 s2 : string) : chars (s1 ++ s2) = (chars s1 ++ chars s2)%list.
Proof.
  unfold chars. induction s1 as [|c s1 IH]; simpl; [reflexivity|].
  rewrite IH. reflexivity.
Qed.

Lemma split_chars_nonempty (sep : ascii) (l : list ascii) : split_chars sep l <> [].
Proof.
  destruct l as [|c l]; simpl; [discriminate|].
  destruct (Ascii.eqb c sep); [discriminate|].
  destruct (split_chars sep l); discriminate.
Qed.

(** A separator ends the pieces of what is before it. *)
Lemma split_chars_app (sep : ascii) (l1 l2 : list ascii) :
  split_chars sep (l1 ++ sep :: l2) = (split_chars sep l1 ++ split_chars sep l2)%list.
Proof.
  induction l1 as [|c l1 IH]; simpl.
  - rewrite Ascii.eqb_refl. reflexivity.
  - destruct (Ascii.eqb c sep); rewrite IH; [reflexivity|].
    destruct (split_chars sep l1) eqn:E; [|reflexivity].
    exfalso. exact (split_chars_nonempty sep l1 E).
Qed.

Lemma split_chars_whole (sep : ascii) (l : list ascii) :
  ~ In sep l -> split_chars sep l = [l].
Proof.
  induction l as [|c l IH]; simpl; intros N; [reflexivity|].
  destruct (Ascii.eqb_spec c sep) as [->|D]; [tauto|].
  rewrite IH by tauto. reflexivity.
Qed.

(** A key joined from [n > 0] items has at least [n] pieces. *)
Lemma split_join_length (items : list string) :
  items <> [] ->
  (List.length items <= List.length (split "|" (join "|" items)))%nat.
Proof.
  unfold split. rewrite length_map.
  induction items as [|s items IH]; [congruence|]. intros _.
  destruct items as [|s' items].
  - simpl. pose proof (split_chars_nonempty "|" (chars s)) as N.
    destruct (split_chars "|" (chars s)); [congruence|simpl; lia].
  - change (join "|" (s :: s' :: items)) with (s ++ "|" ++ join "|" (s' :: items)).
    rewrite chars_append. change (chars ("|" ++ ?t)) with ("|"%char :: chars t).
    rewrite split_chars_app, length_app.
    pose proof (split_chars_nonempty "|" (chars s)) as N.
    specialize (IH ltac:(discriminate)).
    destruct (split_chars "|" (chars s)); [congruence|].
    simpl List.length in *. lia.
Qed.

(** When no item has a separator in it, the pieces are the items. *)
Lemma split_join (items : list string) :
  items <> [] -> (forall s, In s items -> Spec.no_separator s) ->
  split "|" (join "|" items) = items.
Proof.
  unfold split, Spec.no_separator.
  induction items as [|s items IH]; [congruence|]. intros _ Free.
  destruct items as [|s' items].
  - simpl. rewrite split_chars_whole by (apply Free; left; reflexivity).
    simpl. rewrite str_chars. reflexivity.
  - change (join "|" (s :: s' :: items)) with (s ++ "|" ++ join "|" (s' :: items)).
    rewrite chars_append. change (chars ("|" ++ ?t)) with ("|"%char :: chars t).
    rewrite split_chars_app, map_app, IH.
    + rewrite split_chars_whole by (apply Free; left; reflexivity).
      simpl. rewrite str_chars. reflexivity.
    + discriminate.
    + intros t I. apply Free. right. exact I.
Qed.

(** *** The cells of an output row *)

Section GroupResult.
Variable pieces : list string.

Let piece (index : nat) : scalar :=
  match nth_error pieces index with
  | Some piece => VStr piece
  | None => VUndefined
  end.

Let put (result : DataRow) (col : string) (index : nat) : DataRow :=
  assign result col (piece index).

Lemma group_columns_untouched (groupColumns : list string) (col : string) :
  ~ In col groupColumns ->
  forall start result, get (fold_index put groupColumns start result) col = get result col.
Proof.
  induction groupColumns as [|c groupColumns IH]; simpl; intros N start result;
    [reflexivity|].
  rewrite IH by tauto. unfold put. apply get_assign_other. tauto.
Qed.

(** After the loop over the group columns, a group column other than
    [__proto__] holds the piece at one of its positions. *)
Lemma group_columns_set (groupColumns : list string) (col : string) :
  In col groupColumns -> col <> "__proto__" ->
  forall start result,
  exists index,
    nth_error groupColumns index = Some col
    /\ get (fold_index put groupColumns start result) col = piece (start + index).
Proof.
  induction groupColumns as [|c groupColumns IH]; simpl; intros I Plain start result;
    [contradiction|].
  destruct (in_dec string_dec col groupColumns) as [Later|Last].
  - destruct (IH Later Plain (S start) (put result c start)) as [index [At G]].
    exists (S index). split; [exact At|].
    rewrite G. f_equal. lia.
  - destruct I as [->|I]; [|contradiction].
    exists 0%nat. split; [reflexivity|].
    rewrite group_columns_untouched by exact Last.
    unfold put. rewrite (get_assign _ _ _ Plain). f_equal. lia.
Qed.
End GroupResult.

Lemma aggregate_other_column (result : DataRow) (groupData : list DataRow)
      (agg : Aggregation.t) (col : string) :
  Spec.derived_name agg <> col ->
  get (aggregate result groupData agg) col = get result col.
Proof.
  intros N. unfold aggregate, Spec.derived_name in *.
  destruct (Aggregation.function agg); rewrite get_set;
    match goal with
    | |- context [?k =? col] => destruct (String.eqb_spec k col) as [E|_]
    end; try reflexivity; exfalso; apply N; exact E.
Qed.

Lemma aggregations_other_column (groupData : list DataRow)
      (aggregations : list Aggregation.t) (col : string) :
  (forall agg, In agg aggregations -> Spec.derived_name agg <> col) ->
  forall result,
    get (fold_left (fun result agg => aggregate result groupData agg) aggregations result) col
    = get result col.
Proof.
  induction aggregations as [|agg aggregations IH]; simpl; intros N result; [reflexivity|].
  rewrite IH by (intros a I; apply N; right; exact I).
  apply aggregate_other_column.
  apply N. left. reflexivity.
Qed.

(** C10, as stated: every group column of every output row would hold
    the string form of the group's value.  A group value ["x|y"] comes
    back as its first piece ["x"], a group column that has the name of
    a derived column comes back as the aggregate, a number, and a group
    column named [__proto__] comes back as no cell at all. *)
Lemma groupAndAggregate_group_column_counterexamples :
  groupAndAggregate [ [("a", VStr "x|y")] ] ["a"] [] = [ [("a", VStr "x")] ]
  /\ groupAndAggregate Scenario.clash_data ["v_sum"] [Scenario.sum_v]
     = [ [("v_sum", VNum 1)] ]
  /\ groupAndAggregate [ [("__proto__", VStr "a")] ] ["__proto__"] [] = [ [] ].
Proof. repeat split; vm_compute; reflexivity. Qed.

(** ** The order of binary64 numbers (for C7)

    [Array.prototype.sort] is given the comparator
    [(a, b) => b.confidence - a.confidence]: what it does rests on the
    sign of a rounded difference. *)

Section Binary64Order.
Local Open Scope Z_scope.

(** The number of bits of a mantissa. *)
Lemma digits2_pos_bounds (m : positive) :
  2 ^ (Zpos (digits2_pos m) - 1) <= Zpos m < 2 ^ Zpos (digits2_pos m).
Proof.
  induction m as [m IH|m IH|]; simpl digits2_pos.
  - rewrite Pos2Z.inj_succ.
    replace (Z.succ (Zpos (digits2_pos m)) - 1) with (Z.succ (Zpos (digits2_pos m) - 1)) by lia.
    rewrite !Z.pow_succ_r by lia. lia.
  - rewrite Pos2Z.inj_succ.
    replace (Z.succ (Zpos (digits2_pos m)) - 1) with (Z.succ (Zpos (digits2_pos m) - 1)) by lia.
    rewrite !Z.pow_succ_r by lia. lia.
  - simpl. lia.
Qed.

Lemma iter_xO (m d : positive) : Zpos (Pos.iter xO m d) = Zpos m * 2 ^ Zpos d.
Proof.
  induction d as [|d IH] using Pos.peano_ind.
  - simpl. lia.
  - rewrite Pos.iter_succ, Pos2Z.inj_succ, Z.pow_succ_r by lia.
    rewrite Pos2Z.inj_xO, IH. lia.
Qed.

(** the mantissa of [shl_align], for an exponent not above the float's *)
Lemma shl_align_value (m : positive) (e e' : Z) :
  e' <= e -> Zpos (fst (shl_align m e e')) = Zpos m * 2 ^ (e - e').
Proof.
  intros L. unfold shl_align.
  destruct (e' - e) as [|d|d] eqn:E; simpl fst.
  - replace (e - e') with 0 by lia. simpl. lia.
  - lia.
  - rewrite iter_xO. f_equal. f_equal. lia.
Qed.

(** A finite binary64 value that is valid: its exponent is at least
    [emin], its mantissa has at most 53 bits, and exactly 53 above
    [emin]. *)
Lemma bounded_canonical (m : positive) (e : Z) :
  bounded prec emax m e = true ->
  -1074 <= e /\ Zpos (digits2_pos m) <= 53
  /\ (-1074 < e -> Zpos (digits2_pos m) = 53).
Proof.
  unfold bounded, canonical_mantissa, fexp, SpecFloat.emin, prec, emax.
  intros H. apply andb_true_iff in H. destruct H as [C _].
  apply Z.eqb_eq in C. lia.
Qed.

Lemma scaled_value (s : bool) (m : positive) (e ez : Z) :
  ez <= e -> scaled s m e ez = cond_Zopp s (Zpos m * 2 ^ (e - ez)).
Proof. intros L. unfold scaled. rewrite shl_align_value by exact L. reflexivity. Qed.

Lemma pow2_pos (n : Z) : 0 <= n -> 0 < 2 ^ n.
Proof. intros. apply Z.pow_pos_nonneg; lia. Qed.

(** Of two valid positive floats the one with the smaller exponent is
    the smaller. *)
Lemma smaller_exponent (m1 m2 : positive) (e1 e2 : Z) :
  bounded prec emax m1 e1 = true -> bounded prec emax m2 e2 = true ->
  e1 < e2 -> Zpos m1 < Zpos m2 * 2 ^ (e2 - e1).
Proof.
  intros B1 B2 L.
  apply bounded_canonical in B1. apply bounded_canonical in B2.
  destruct B1 as [E1 [D1 _]]. destruct B2 as [E2 [_ D2]].
  specialize (D2 ltac:(lia)).
  pose proof (digits2_pos_bounds m1) as [_ U1].
  pose proof (digits2_pos_bounds m2) as [L2 _].
  rewrite D2 in L2.
  assert (2 ^ Zpos (digits2_pos m1) <= 2 ^ 53) by (apply Z.pow_le_mono_r; lia).
  assert (2 ^ 1 <= 2 ^ (e2 - e1)) by (apply Z.pow_le_mono_r; lia).
  change (2 ^ (53 - 1)) with 4503599627370496 in L2.
  change (2 ^ 53) with 9007199254740992 in *.
  change (2 ^ 1) with 2 in *.
  nia.
Qed.

(** [SFcompare] on valid finite floats compares their values. *)
Lemma SFcompare_finite (s1 s2 : bool) (m1 m2 : positive) (e1 e2 : Z) :
  bounded prec emax m1 e1 = true -> bounded prec emax m2 e2 = true ->
  SFcompare (S754_finite s1 m1 e1) (S754_finite s2 m2 e2)
  = Some (scaled s1 m1 e1 (Z.min e1 e2) ?= scaled s2 m2 e2 (Z.min e1 e2)).
Proof.
  intros B1 B2. rewrite !scaled_value by lia. unfold SFcompare. f_equal.
  assert (P1 : 0 < Zpos m1 * 2 ^ (e1 - Z.min e1 e2))
    by (apply Z.mul_pos_pos; [lia|apply pow2_pos; lia]).
  assert (P2 : 0 < Zpos m2 * 2 ^ (e2 - Z.min e1 e2))
    by (apply Z.mul_pos_pos; [lia|apply pow2_pos; lia]).
  destruct s1, s2; unfold cond_Zopp.
  - (* both negative *)
    destruct (Z.compare_spec e1 e2) as [E|L|G].
    + subst. rewrite Z.min_id, Z.sub_diag, Z.pow_0_r, !Z.mul_1_r.
      rewrite Z.compare_opp. fold (Pos.compare m1 m2).
      rewrite Pos.compare_antisym, CompOpp_involutive. reflexivity.
    + symmetry. apply Z.compare_gt_iff.
      pose proof (smaller_exponent m1 m2 e1 e2 B1 B2 L).
      replace (Z.min e1 e2) with e1 by lia. rewrite Z.sub_diag, Z.pow_0_r, Z.mul_1_r. lia.
    + symmetry. apply Z.compare_lt_iff.
      pose proof (smaller_exponent m2 m1 e2 e1 B2 B1 ltac:(lia)).
      replace (Z.min e1 e2) with e2 by lia. rewrite Z.sub_diag, Z.pow_0_r, Z.mul_1_r. lia.
  - symmetry. apply Z.compare_lt_iff. lia.
  - symmetry. apply Z.compare_gt_iff. lia.
  - destruct (Z.compare_spec e1 e2) as [E|L|G].
    + subst. rewrite Z.min_id, Z.sub_diag, Z.pow_0_r, !Z.mul_1_r. reflexivity.
    + symmetry. apply Z.compare_lt_iff.
      pose proof (smaller_exponent m1 m2 e1 e2 B1 B2 L).
      replace (Z.min e1 e2) with e1 by lia. rewrite Z.sub_diag, Z.pow_0_r, Z.mul_1_r. lia.
    + symmetry. apply Z.compare_gt_iff.
      pose proof (smaller_exponent m2 m1 e2 e1 B2 B1 ltac:(lia)).
      replace (Z.min e1 e2) with e2 by lia. rewrite Z.sub_diag, Z.pow_0_r, Z.mul_1_r. lia.
Qed.

(** *** Rounding keeps a positive mantissa positive *)

Lemma shr_1_digits (mrs : shr_record) :
  0 <= shr_m mrs ->
  0 <= shr_m (shr_1 mrs)
  /\ Zdigits2 (shr_m (shr_1 mrs)) = Z.max 0 (Zdigits2 (shr_m mrs) - 1).
Proof.
  destruct mrs as [m r s]. simpl. intros N.
  destruct m as [|[p|p|]|p]; cbn [shr_m shr_1 Zdigits2 digits2_pos]; rewrite ?Pos2Z.inj_succ; lia.
Qed.

Lemma iter_shr_1_digits (n : positive) :
  forall mrs, 0 <= shr_m mrs ->
    0 <= shr_m (iter_pos shr_1 n mrs)
    /\ Zdigits2 (shr_m (iter_pos shr_1 n mrs)) = Z.max 0 (Zdigits2 (shr_m mrs) - Zpos n).
Proof.
  induction n as [n IH|n IH|]; intros mrs N; simpl iter_pos.
  - destruct (shr_1_digits mrs N) as [N1 D1].
    destruct (IH _ N1) as [N2 D2]. destruct (IH _ N2) as [N3 D3].
    split; [exact N3|]. rewrite D3, D2, D1. lia.
  - destruct (IH _ N) as [N2 D2]. destruct (IH _ N2) as [N3 D3].
    split; [exact N3|]. rewrite D3, D2. lia.
  - apply shr_1_digits. exact N.
Qed.

Lemma Zdigits2_positive (m : Z) : 0 <= m -> 0 < Zdigits2 m -> 0 < m.
Proof. destruct m; simpl; lia. Qed.

Lemma shr_m_of_loc (m : Z) (l : location) : shr_m (shr_record_of_loc m l) = m.
Proof. destruct l as [|[ | | ]]; reflexivity. Qed.

Lemma shr_fexp_positive (m e : Z) (l : location) :
  0 < m -> -1074 <= e ->
  0 < shr_m (fst (shr_fexp prec emax m e l))
  /\ -1074 <= snd (shr_fexp prec emax m e l).
Proof.
  intros P E. unfold shr_fexp, shr, fexp, SpecFloat.emin, prec, emax.
  destruct (Z.max (Zdigits2 m + e - 53) (3 - 1024 - 53) - e) as [|n|n] eqn:S;
    simpl fst; simpl snd; rewrite ?shr_m_of_loc; try (split; lia).
  destruct (iter_shr_1_digits n (shr_record_of_loc m l)) as [N D].
  { rewrite shr_m_of_loc. lia. }
  rewrite shr_m_of_loc in D. split; [|lia].
  apply Zdigits2_positive; [exact N|]. rewrite D. lia.
Qed.

Lemma round_nearest_even_positive (m : Z) (l : location) :
  0 < m -> 0 < round_nearest_even m l.
Proof.
  intros P. unfold round_nearest_even.
  destruct l as [|[ | | ]]; try lia. destruct (Z.even m); lia.
Qed.

(** Rounding a positive mantissa whose exponent is at least [emin]
    gives a positive number or +infinity, never zero. *)
Lemma binary_round_aux_positive (m e : Z) (l : location) :
  0 < m -> -1074 <= e ->
  SFltb (S754_zero false) (binary_round_aux prec emax false m e l) = true.
Proof.
  intros P E. unfold binary_round_aux.
  pose proof (shr_fexp_positive m e l P E) as [P1 E1].
  destruct (shr_fexp prec emax m e l) as [mrs' e']. simpl fst in P1. simpl snd in E1.
  pose proof (round_nearest_even_positive (shr_m mrs') (loc_of_shr_record mrs') P1) as P2.
  pose proof (shr_fexp_positive _ e' loc_Exact P2 E1) as [P3 _].
  destruct (shr_fexp prec emax _ e' loc_Exact) as [mrs'' e'']. simpl fst in P3.
  destruct (shr_m mrs'') as [|p|p]; try lia.
  destruct (e'' <=? emax - prec); reflexivity.
Qed.

Lemma binary_round_positive (m : positive) (e : Z) :
  -1074 <= e -> SFltb (S754_zero false) (binary_round prec emax false m e) = true.
Proof.
  intros E. unfold binary_round.
  destruct (shl_align m e (fexp prec emax (Zpos (digits2_pos m) + e))) as [mz ez] eqn:A.
  apply binary_round_aux_positive; [lia|].
  unfold shl_align in A.
  destruct (fexp prec emax (Zpos (digits2_pos m) + e) - e) eqn:F;
    injection A as _ <-; try exact E.
  unfold fexp, SpecFloat.emin, prec, emax. lia.
Qed.

(** Whatever is rounded with a negative sign is not above zero. *)
Lemma binary_round_negative (m : positive) (e : Z) :
  SFltb (S754_zero false) (binary_round prec emax true m e) = false.
Proof.
  unfold binary_round.
  destruct (shl_align m e (fexp prec emax (Zpos (digits2_pos m) + e))) as [mz ez].
  unfold binary_round_aux.
  destruct (shr_fexp prec emax (Zpos mz) ez loc_Exact) as [mrs' e'].
  destruct (shr_fexp prec emax _ e' loc_Exact) as [mrs'' e''].
  destruct (shr_m mrs''); [reflexivity| |reflexivity].
  destruct (e'' <=? emax - prec); reflexivity.
Qed.

(** The sign of a rounded integer multiple of [2^e]. *)
Lemma binary_normalize_sign (m e : Z) :
  -1074 <= e ->
  SFltb (S754_zero false) (binary_normalize prec emax m e false) = (0 <? m).
Proof.
  intros E. destruct m as [|p|p]; simpl binary_normalize.
  - reflexivity.
  - apply binary_round_positive. exact E.
  - apply binary_round_negative.
Qed.

(** *** The order of binary64 values and the sign of a difference *)

Lemma SFcompare_antisym (x y : spec_float) :
  SFcompare y x = option_map CompOpp (SFcompare x y).
Proof.
  destruct x as [sx|sx| |sx mx ex], y as [sy|sy| |sy my ey];
    try (destruct sx); try (destruct sy); try reflexivity;
    unfold SFcompare, option_map; f_equal;
    rewrite (Z.compare_antisym ex ey);
    destruct (ex ?= ey); simpl; try reflexivity;
    fold (Pos.compare mx my); fold (Pos.compare my mx);
    rewrite (Pos.compare_antisym mx my); try reflexivity.
Qed.

Lemma SFltb_false_SFleb (x y : spec_float) :
  x <> S754_nan -> y <> S754_nan -> SFltb x y = false -> SFleb y x = true.
Proof.
  intros X Y. unfold SFltb, SFleb. rewrite (SFcompare_antisym x y).
  destruct (SFcompare x y) as [[ | | ]|] eqn:C; simpl; try discriminate; try reflexivity.
  destruct x, y; try congruence; simpl in C; discriminate.
Qed.

Lemma SFltb_SFleb (x y : spec_float) : SFltb x y = true -> SFleb x y = true.
Proof. unfold SFltb, SFleb. destruct (SFcompare x y) as [[ | | ]|]; congruence. Qed.

(** The difference [y - x] of two valid numbers is above zero exactly
    when [x] is below [y]: rounding keeps the sign of a difference and
    does not take it to zero. *)
Lemma SFsub_sign (x y : spec_float) :
  valid_binary x = true -> valid_binary y = true ->
  x <> S754_nan -> y <> S754_nan ->
  SFltb (S754_zero false) (SF64sub y x) = SFltb x y.
Proof.
  intros VX VY NX NY.
  destruct x as [sx|sx| |sx mx ex], y as [sy|sy| |sy my ey]; try congruence;
    try (destruct sx, sy; reflexivity); try (destruct sx; reflexivity);
    try (destruct sy; reflexivity).
  simpl in VX, VY.
  unfold SF64sub, SFsub. fold (scaled sy my ey (Z.min ey ex)).
  fold (scaled sx mx ex (Z.min ey ex)).
  rewrite binary_normalize_sign
    by (apply bounded_canonical in VX; apply bounded_canonical in VY; lia).
  unfold SFltb. rewrite (SFcompare_finite sx sy mx my ex ey VX VY).
  rewrite (Z.min_comm ey ex).
  set (X := scaled sx mx ex (Z.min ex ey)). set (Y := scaled sy my ey (Z.min ex ey)).
  destruct (Z.compare_spec X Y); destruct (Z.ltb_spec 0 (Y - X)); try reflexivity; lia.
Qed.

Local Close Scope Z_scope.
Local Open Scope float_scope.

Lemma not_nan_spec (a : float) : is_nan a = false -> Prim2SF a <> S754_nan.
Proof.
  unfold is_nan. rewrite eqb_spec. intros H E. rewrite E in H. discriminate.
Qed.

Lemma ltb_not_nan (a b : float) : (a <? b) = true -> is_nan b = false.
Proof.
  rewrite ltb_spec. unfold is_nan. rewrite eqb_spec.
  pose proof (Prim2SF_valid b) as V.
  destruct (Prim2SF a) as [sa|sa| |sa ma ea], (Prim2SF b) as [sb|sb| |sb mb eb];
    try discriminate; intros _; try (destruct sb); try reflexivity;
    unfold SFeqb, SFcompare; rewrite Z.compare_refl, Pos.compare_cont_refl; reflexivity.
Qed.

(** The comparator [b - a] of a descending sort, on numbers: it is
    above zero exactly when [a] is below [b]. *)
Lemma sub_above_zero (a b : float) :
  is_nan a = false -> is_nan b = false -> (0 <? b - a) = (a <? b).
Proof.
  intros A B. rewrite !ltb_spec, sub_spec.
  change (Prim2SF 0) with (S754_zero false).
  apply SFsub_sign; auto using Prim2SF_valid, not_nan_spec.
Qed.

Lemma descending_step (a b : float) :
  is_nan a = false -> is_nan b = false ->
  ((0 <? b - a) = true -> (a <=? b) = true)
  /\ ((0 <? b - a) = false -> (b <=? a) = true).
Proof.
  intros A B. rewrite (sub_above_zero a b A B), ltb_spec, !leb_spec. split.
  - apply SFltb_SFleb.
  - apply SFltb_false_SFleb; auto using not_nan_spec.
Qed.
End Binary64Order.

(** ** Insight cap and ordering (C7) *)

Section InsightOrder.

(** A confidence that is a number (not NaN). *)
Let number_confidence (insight : DataInsight.t) : Prop :=
  PrimFloat.is_nan (DataInsight.confidence insight) = false.

(** The earlier of two adjacent insights is at least as confident. *)
Let before (earlier later : DataInsight.t) : Prop :=
  (DataInsight.confidence later <=? DataInsight.confidence earlier)%float = true.

Let by_confidence (a b : DataInsight.t) : float :=
  DataInsight.confidence b - DataInsight.confidence a.

Lemma insert_In (x y : DataInsight.t) (sorted : list DataInsight.t) :
  In y (insert by_confidence x sorted) -> y = x \/ In y sorted.
Proof.
  induction sorted as [|z sorted IH]; simpl.
  - intros [<-|[]]. left. reflexivity.
  - destruct (0 <? by_confidence x z)%float; simpl.
    + intros [<-|I]; [right; left; reflexivity|].
      destruct (IH I); [left|right; right]; assumption.
    + intros [<-|I]; [left; reflexivity|right; exact I].
Qed.

Lemma insert_sorted (x : DataInsight.t) (sorted : list DataInsight.t) :
  number_confidence x -> Forall number_confidence sorted ->
  Sorted.Sorted before sorted -> Sorted.Sorted before (insert by_confidence x sorted).
Proof.
  intros X. induction sorted as [|y sorted IH]; intros N S; simpl.
  - repeat constructor.
  - inversion N as [|? ? Y N']; subst. inversion S as [|? ? S' H]; subst.
    destruct (descending_step _ _ X Y) as [Above NotAbove].
    fold (by_confidence x y) in Above, NotAbove.
    destruct (0 <? by_confidence x y)%float eqn:C.
    + constructor; [exact (IH N' S')|].
      destruct sorted as [|z sorted]; simpl.
      * constructor. exact (Above eq_refl).
      * destruct (0 <? by_confidence x z)%float; constructor.
        -- inversion H; assumption.
        -- exact (Above eq_refl).
    + constructor; [exact S|]. constructor. exact (NotAbove eq_refl).
Qed.

Lemma sort_sorted (insights : list DataInsight.t) :
  Forall number_confidence insights ->
  Forall number_confidence (sort by_confidence insights)
  /\ Sorted.Sorted before (sort by_confidence insights).
Proof.
  induction insights as [|x insights IH]; simpl; intros N.
  - split; constructor.
  - inversion N as [|? ? X N']; subst. destruct (IH N') as [F S]. split.
    + apply Forall_forall. intros y I. apply insert_In in I. destruct I as [->|I].
      * exact X.
      * revert y I. apply Forall_forall. exact F.
    + apply insert_sorted; assumption.
Qed.

Lemma firstn_sorted (n : nat) (insights : list DataInsight.t) :
  Sorted.Sorted before insights -> Sorted.Sorted before (firstn n insights).
Proof.
  revert insights. induction n as [|n IH]; intros insights S; simpl; [constructor|].
  destruct S as [|x insights S H]; constructor; [apply IH; exact S|].
  destruct H as [|y insights H]; [rewrite firstn_nil; constructor|].
  destruct n; simpl; constructor. exact H.
Qed.

Lemma sorted_adjacent (insights : list DataInsight.t) :
  Sorted.Sorted before insights ->
  forall i earlier later,
    nth_error insights i = Some earlier ->
    nth_error insights (S i) = Some later ->
    before earlier later.
Proof.
  induction 1 as [|x insights S IH H]; intros i earlier later E L.
  - destruct i; discriminate.
  - destruct i as [|i]; simpl in E, L.
    + injection E as <-. destruct H as [|y insights H]; [discriminate|].
      simpl in L. injection L as <-. exact H.
    + exact (IH i earlier later E L).
Qed.

(** Every insight of the three passes has a number for confidence: a
    correlation is kept when its absolute value is above 0.5, which no
    NaN is; the other two confidences are constants. *)
Lemma correlationInsights_numbers (data : list DataRow) (cols : list ColumnInfo.t) :
  Forall number_confidence (correlationInsights data cols).
Proof.
  apply Forall_forall. intros insight I. unfold correlationInsights in I.
  apply in_flat_map in I. destruct I as [[c1 c2] [_ I]].
  destruct (0.5 <? PrimFloat.abs _)%float eqn:Strong in I; [|contradiction].
  destruct I as [<-|[]]. unfold number_confidence. simpl.
  exact (ltb_not_nan _ _ Strong).
Qed.

Lemma outlierInsights_numbers (data : list DataRow) (cols : list ColumnInfo.t) :
  Forall number_confidence (outlierInsights data cols).
Proof.
  apply Forall_forall. intros insight I. unfold outlierInsights in I.
  apply in_flat_map in I. destruct I as [col [_ I]].
  destruct (_ && _) in I; [|contradiction].
  destruct I as [<-|[]]. change (PrimFloat.is_nan 0.8 = false). reflexivity.
Qed.

Lemma categoricalInsights_numbers (data : list DataRow) (cols : list ColumnInfo.t) :
  Forall number_confidence (categoricalInsights data cols).
Proof.
  apply Forall_forall. intros insight I. unfold categoricalInsights in I.
  apply in_flat_map in I. destruct I as [col [_ I]].
  destruct (_ && _) in I; [|contradiction].
  destruct (find _ _) in I; [|contradiction].
  destruct (_ && _) in I; [|contradiction].
  destruct I as [<-|[]]. change (PrimFloat.is_nan 0.7 = false). reflexivity.
Qed.

(** C7: for every dataset [generateInsights] returns at most 5
    insights, and for every adjacent pair in the returned list the
    earlier insight's confidence is greater than or equal to the later
    one's. *)
Theorem generateInsights_capped_and_descending (data : list DataRow) :
  (List.length (generateInsights data) <= 5)%nat
  /\ Spec.descending (generateInsights data).
Proof.
  pose (numericColumns := filter is_numeric (analyzeData data)).
  pose (categoricalColumns := filter is_categorical (analyzeData data)).
  pose (insights :=
          (correlationInsights data numericColumns
           ++ outlierInsights data numericColumns
           ++ categoricalInsights data categoricalColumns)%list).
  assert (G : generateInsights data = firstn 5 (sort by_confidence insights))
    by reflexivity.
  assert (N : Forall number_confidence insights).
  { unfold insights. apply Forall_app. split; [|apply Forall_app; split].
    - apply correlationInsights_numbers.
    - apply outlierInsights_numbers.
    - apply categoricalInsights_numbers. }
  destruct (sort_sorted insights N) as [_ S].
  rewrite G. clearbody insights. split.
  - apply firstn_le_length.
  - intros i earlier later E L.
    exact (sorted_adjacent _ (firstn_sorted 5 _ S) i earlier later E L).
Qed.

End InsightOrder.

(** The bound at work on twenty rows with a perfect correlation and
    one outlier: a correlation insight and an outlier insight, the more
    confident first. *)
Lemma generateInsights_example :
  map (fun insight => (DataInsight.type insight, DataInsight.confidence insight))
      (generateInsights Scenario.insight_data)
  = [(Correlation, 1); (Outlier, 0.8)].
Proof. vm_compute. reflexivity. Qed.

(** * Further properties

    Properties of the engine and of the components that call it, read
    off the code. *)

(** ** The rank of a number: its place in the order *)

Section Binary64Rank.
Local Open Scope Z_scope.

Lemma bounded_exponent (m : positive) (e : Z) :
  bounded prec emax m e = true -> e <= 971.
Proof.
  unfold bounded, prec, emax. intros H. apply andb_true_iff in H.
  destruct H as [_ H]. apply Z.leb_le in H. lia.
Qed.

Lemma finite_rank_bounds (m : positive) (e : Z) :
  bounded prec emax m e = true ->
  0 < Zpos m * 2 ^ (e + 1074) < 2 ^ 2100.
Proof.
  intros B. pose proof (bounded_exponent m e B) as U.
  apply bounded_canonical in B. destruct B as [L [D _]].
  pose proof (digits2_pos_bounds m) as [_ M].
  assert (M' : 2 ^ Zpos (digits2_pos m) <= 2 ^ 53) by (apply Z.pow_le_mono_r; lia).
  assert (P : 0 < 2 ^ (e + 1074)) by (apply Z.pow_pos_nonneg; lia).
  assert (Q : 2 ^ (e + 1074) <= 2 ^ 2045) by (apply Z.pow_le_mono_r; lia).
  split; [apply Z.mul_pos_pos; [reflexivity|exact P]|].
  apply Z.lt_le_trans with (2 ^ 53 * 2 ^ 2046).
  - apply Z.mul_lt_mono_nonneg.
    + apply Pos2Z.is_nonneg.
    + eapply Z.lt_le_trans; [exact M|exact M'].
    + apply Z.lt_le_incl, P.
    + apply Z.le_lt_trans with (2 ^ 2045); [exact Q|].
      apply Z.pow_lt_mono_r; lia.
  - rewrite <- Z.pow_add_r by lia. apply Z.pow_le_mono_r; lia.
Qed.

Lemma scaled_rank (s : bool) (m : positive) (e ez : Z) :
  -1074 <= ez <= e ->
  SFrank (S754_finite s m e) = scaled s m e ez * 2 ^ (ez + 1074).
Proof.
  intros R. rewrite scaled_value by lia. unfold SFrank.
  replace (e + 1074) with ((e - ez) + (ez + 1074)) by lia.
  rewrite Z.pow_add_r by lia. destruct s; unfold cond_Zopp; lia.
Qed.

(** [SFcompare] on valid numbers compares their ranks. *)
Lemma SFcompare_rank (x y : spec_float) :
  valid_binary x = true -> valid_binary y = true ->
  x <> S754_nan -> y <> S754_nan ->
  SFcompare x y = Some (SFrank x ?= SFrank y).
Proof.
  intros VX VY NX NY.
  destruct x as [sx|sx| |sx mx ex], y as [sy|sy| |sy my ey]; try congruence;
    simpl in VX, VY.
  - reflexivity.
  - destruct sy; reflexivity.
  - pose proof (finite_rank_bounds my ey VY).
    destruct sy; unfold SFcompare, SFrank, cond_Zopp; f_equal; symmetry;
      [apply Z.compare_gt_iff|apply Z.compare_lt_iff]; lia.
  - destruct sx; reflexivity.
  - destruct sx, sy; reflexivity.
  - pose proof (finite_rank_bounds my ey VY).
    destruct sx, sy; unfold SFcompare, SFrank, cond_Zopp; f_equal; symmetry;
      first [apply Z.compare_gt_iff; lia|apply Z.compare_lt_iff; lia].
  - pose proof (finite_rank_bounds mx ex VX).
    destruct sx; unfold SFcompare, SFrank, cond_Zopp; f_equal; symmetry;
      [apply Z.compare_lt_iff|apply Z.compare_gt_iff]; lia.
  - pose proof (finite_rank_bounds mx ex VX).
    destruct sx, sy; unfold SFcompare, SFrank, cond_Zopp; f_equal; symmetry;
      first [apply Z.compare_gt_iff; lia|apply Z.compare_lt_iff; lia].
  - rewrite (SFcompare_finite sx sy mx my ex ey VX VY).
    pose proof (bounded_canonical _ _ VX) as [LX _].
    pose proof (bounded_canonical _ _ VY) as [LY _].
    rewrite (scaled_rank sx mx ex (Z.min ex ey)) by lia.
    rewrite (scaled_rank sy my ey (Z.min ex ey)) by lia.
    f_equal. apply Zmult_compare_compat_r.
    apply Z.lt_gt, Z.pow_pos_nonneg; lia.
Qed.
End Binary64Rank.

Section FloatOrder.
Local Open Scope float_scope.

Lemma compare_rank (a b : float) :
  is_nan a = false -> is_nan b = false ->
  SFcompare (Prim2SF a) (Prim2SF b) = Some (rank a ?= rank b)%Z.
Proof.
  intros A B. apply SFcompare_rank; auto using Prim2SF_valid, not_nan_spec.
Qed.

Lemma ltb_rank (a b : float) :
  is_nan a = false -> is_nan b = false -> (a <? b) = (rank a <? rank b)%Z.
Proof.
  intros A B. rewrite ltb_spec. unfold SFltb. rewrite (compare_rank a b A B).
  unfold Z.ltb. reflexivity.
Qed.

Lemma leb_rank (a b : float) :
  is_nan a = false -> is_nan b = false -> (a <=? b) = (rank a <=? rank b)%Z.
Proof.
  intros A B. rewrite leb_spec. unfold SFleb. rewrite (compare_rank a b A B).
  unfold Z.leb. destruct (rank a ?= rank b)%Z; reflexivity.
Qed.

Lemma eqb_rank (a b : float) :
  is_nan a = false -> is_nan b = false -> (a =? b) = (rank a =? rank b)%Z.
Proof.
  intros A B. rewrite eqb_spec. unfold SFeqb. rewrite (compare_rank a b A B).
  destruct (Z.compare_spec (rank a) (rank b)); destruct (Z.eqb_spec (rank a) (rank b));
    try reflexivity; lia.
Qed.

Lemma leb_nan_l (a b : float) : (a <=? b) = true -> is_nan a = false /\ is_nan b = false.
Proof.
  rewrite leb_spec. unfold is_nan. rewrite !eqb_spec. unfold SFleb.
  destruct (Prim2SF a) as [sa|sa| |sa ma ea], (Prim2SF b) as [sb|sb| |sb mb eb];
    try discriminate; intros _; split;
    try (destruct sa); try (destruct sb); try reflexivity;
    unfold SFeqb, SFcompare; rewrite Z.compare_refl, Pos.compare_cont_refl; reflexivity.
Qed.
End FloatOrder.

(** ** Correlation: symmetry and the rows that do not count *)

Section CorrelationLaws.
Local Open Scope float_scope.

Lemma SFmul_comm (x y : spec_float) : SF64mul x y = SF64mul y x.
Proof.
  unfold SF64mul, SFmul.
  destruct x as [sx|sx| |sx mx ex], y as [sy|sy| |sy my ey];
    try reflexivity; rewrite ?(xorb_comm sx sy); try reflexivity.
  rewrite (Pos.mul_comm mx my), (Z.add_comm ex ey). reflexivity.
Qed.

(** Multiplication of doubles is commutative. *)
Lemma mul_comm (x y : float) : x * y = y * x.
Proof. apply Prim2SF_inj. rewrite !mul_spec. apply SFmul_comm. Qed.

Lemma fold_left_map {A B C : Type} (f : A -> C -> A) (g : B -> C) (l : list B) :
  forall a, fold_left f (map g l) a = fold_left (fun acc x => f acc (g x)) l a.
Proof. induction l as [|b l IH]; intros a; simpl; [reflexivity|apply IH]. Qed.

Let swap (p : float * float) : float * float := (snd p, fst p).

Lemma valid_pairs_swap (data : list DataRow) (col1 col2 : string) :
  Spec.valid_pairs data col2 col1 = map swap (Spec.valid_pairs data col1 col2).
Proof.
  unfold Spec.valid_pairs. induction data as [|row data IH]; simpl; [reflexivity|].
  rewrite (andb_comm (negb (isNaN (Number (get row col2))))).
  destruct (negb (isNaN (Number (get row col1))) && negb (isNaN (Number (get row col2))));
    simpl; rewrite IH; reflexivity.
Qed.

Lemma total_swap (f : float * float -> float) (pairs : list (float * float)) :
  Spec.total Spec.binary64 f (map swap pairs)
  = Spec.total Spec.binary64 (fun p => f (swap p)) pairs.
Proof.
  unfold Spec.total.
  apply (fold_left_map (fun acc p => Spec.plus Spec.binary64 acc (f p)) swap).
Qed.

Lemma spread_swap (f : float * float -> float) (pairs : list (float * float)) :
  Spec.spread Spec.binary64 f (map swap pairs)
  = Spec.spread Spec.binary64 (fun p => f (swap p)) pairs.
Proof. unfold Spec.spread. rewrite length_map, !total_swap. reflexivity. Qed.

Lemma pearson_swap (pairs : list (float * float)) :
  Spec.pearson Spec.binary64 (map swap pairs) = Spec.pearson Spec.binary64 pairs.
Proof.
  assert (D : Spec.pearson_denominator Spec.binary64 (map swap pairs)
              = Spec.pearson_denominator Spec.binary64 pairs).
  { unfold Spec.pearson_denominator. rewrite !spread_swap. simpl.
    f_equal. apply mul_comm. }
  assert (N : Spec.pearson_numerator Spec.binary64 (map swap pairs)
              = Spec.pearson_numerator Spec.binary64 pairs).
  { unfold Spec.pearson_numerator. rewrite length_map, !total_swap. simpl.
    f_equal; [f_equal|apply mul_comm].
    unfold Spec.total. apply fold_left_pointwise. intros a p. simpl.
    f_equal. apply mul_comm. }
  unfold Spec.pearson. rewrite length_map, D, N. reflexivity.
Qed.

(** X1: the correlation of two columns does not depend on their order,
    to the last bit: [calculateCorrelation data col1 col2] and
    [calculateCorrelation data col2 col1] are the same number. *)
Theorem calculateCorrelation_symmetric (data : list DataRow) (col1 col2 : string) :
  calculateCorrelation data col2 col1 = calculateCorrelation data col1 col2.
Proof.
  rewrite !calculateCorrelation_formula, valid_pairs_swap. apply pearson_swap.
Qed.

(** X2: a row in which one of the two cells does not coerce to a number
    counts for nothing: the correlation is that of the dataset without
    such rows. *)
Theorem calculateCorrelation_ignores_invalid_rows
        (data : list DataRow) (col1 col2 : string) :
  calculateCorrelation
    (filter (fun row => negb (isNaN (Number (get row col1)))
                        && negb (isNaN (Number (get row col2)))) data) col1 col2
  = calculateCorrelation data col1 col2.
Proof.
  rewrite !calculateCorrelation_formula. f_equal. unfold Spec.valid_pairs.
  induction data as [|row data IH]; simpl; [reflexivity|].
  destruct (negb (isNaN (Number (get row col1))) && negb (isNaN (Number (get row col2))))
    eqn:V; simpl; rewrite ?V, IH; reflexivity.
Qed.
End CorrelationLaws.

(** ** Outliers: the rows that do not count, and the threshold *)

Section OutlierLaws.
Local Open Scope float_scope.

Lemma ltb_numbers (a b : float) :
  (a <? b) = true -> is_nan a = false /\ is_nan b = false.
Proof.
  intros H. split; [|exact (ltb_not_nan a b H)].
  revert H. rewrite ltb_spec. unfold is_nan. rewrite eqb_spec. unfold SFltb.
  destruct (Prim2SF a) as [sa|sa| |sa ma ea], (Prim2SF b) as [sb|sb| |sb mb eb];
    try discriminate; intros _; try (destruct sa); try reflexivity;
    unfold SFeqb, SFcompare; rewrite Z.compare_refl, Pos.compare_cont_refl; reflexivity.
Qed.

(** [a <= b] and [b < c] give [a < c] (none of them is NaN then). *)
Lemma leb_ltb_trans (a b c : float) :
  (a <=? b) = true -> (b <? c) = true -> (a <? c) = true.
Proof.
  intros AB BC.
  destruct (leb_nan_l a b AB) as [A B]. destruct (ltb_numbers b c BC) as [_ C].
  rewrite leb_rank in AB by assumption. rewrite ltb_rank in BC |- * by assumption.
  apply Z.leb_le in AB. apply Z.ltb_lt in BC. apply Z.ltb_lt. lia.
Qed.

Lemma filter_filter_implied {A : Type} (p q : A -> bool) (l : list A) :
  (forall x, q x = true -> p x = true) -> filter q (filter p l) = filter q l.
Proof.
  intros I. induction l as [|x l IH]; simpl; [reflexivity|].
  destruct (p x) eqn:P; simpl; rewrite IH; [reflexivity|].
  destruct (q x) eqn:Q; [|reflexivity]. rewrite (I x Q) in P. discriminate.
Qed.

Lemma filter_map_filter {A B : Type} (f : A -> B) (p : B -> bool) (l : list A) :
  filter p (map f (filter (fun x => p (f x)) l)) = filter p (map f l).
Proof.
  induction l as [|x l IH]; simpl; [reflexivity|].
  destruct (p (f x)) eqn:P; simpl; rewrite ?P, IH; reflexivity.
Qed.

(** X3: a row whose cell does not coerce to a number counts for nothing
    in [findOutliers]: it does not enter the mean or the deviation, and
    it is never returned.  The rows returned are rows of the dataset
    whose cell is a number. *)
Theorem findOutliers_ignores_non_numeric
        (data : list DataRow) (column : string) (threshold : float) :
  findOutliers
    (filter (fun row => negb (isNaN (Number (get row column)))) data) column threshold
  = findOutliers data column threshold
  /\ forall row, In row (findOutliers data column threshold) ->
       In row data /\ isNaN (Number (get row column)) = false.
Proof.
  unfold findOutliers. split.
  - rewrite (filter_map_filter (fun row => Number (get row column))
               (fun v => negb (isNaN v)) data).
    destruct (_ =? 0)%nat; [reflexivity|].
    destruct (_ =? 0)%float; [reflexivity|].
    apply filter_filter_implied. intros row.
    destruct (isNaN (Number (get row column))); [discriminate|reflexivity].
  - intros row. destruct (_ =? 0)%nat; [contradiction|].
    destruct (_ =? 0)%float; [contradiction|].
    intros I. apply filter_In in I. destruct I as [I T]. split; [exact I|].
    destruct (isNaN (Number (get row column))); [discriminate|reflexivity].
Qed.

(** X4: raising the threshold only removes rows: every row returned for
    a threshold is returned for every smaller one. *)
Theorem findOutliers_threshold_monotone
        (data : list DataRow) (column : string) (low high : float) :
  (low <=? high) = true ->
  forall row, In row (findOutliers data column high) ->
              In row (findOutliers data column low).
Proof.
  intros L row. unfold findOutliers.
  destruct (_ =? 0)%nat; [contradiction|].
  destruct (_ =? 0)%float; [contradiction|].
  rewrite !filter_In. intros [I T]. split; [exact I|].
  destruct (isNaN (Number (get row column))); [discriminate|].
  exact (leb_ltb_trans _ _ _ L T).
Qed.

Lemma findOutliers_threshold_monotone_witness :
  In (Scenario.v_row 1000) (findOutliers Scenario.outlier_data "v" 1).
Proof.
  apply (findOutliers_threshold_monotone Scenario.outlier_data "v" 1 1.5).
  - reflexivity.
  - vm_compute. left. reflexivity.
Defined.
End OutlierLaws.

(** ** Insights: what is returned and what is dropped *)

Section InsightLaws.
Local Open Scope float_scope.

Lemma insert_permutation {A : Type} (compare : A -> A -> float) (x : A) (sorted : list A) :
  Permutation (insert compare x sorted) (x :: sorted).
Proof.
  induction sorted as [|y sorted IH]; simpl; [reflexivity|].
  destruct (0 <? compare x y); [|reflexivity].
  rewrite IH. apply perm_swap.
Qed.

(** The sort rearranges: nothing is lost, nothing is added. *)
Lemma sort_permutation {A : Type} (compare : A -> A -> float) (xs : list A) :
  Permutation (sort compare xs) xs.
Proof.
  induction xs as [|x xs IH]; simpl; [reflexivity|].
  rewrite insert_permutation, IH. reflexivity.
Qed.

Let at_least (earlier later : DataInsight.t) : Prop :=
  (DataInsight.confidence later <=? DataInsight.confidence earlier) = true.

Lemma candidate_numbers (data : list DataRow) :
  Forall (fun insight => is_nan (DataInsight.confidence insight) = false)
         (candidate_insights data).
Proof.
  unfold candidate_insights. cbv zeta.
  apply Forall_app. split; [|apply Forall_app; split].
  - apply correlationInsights_numbers.
  - apply outlierInsights_numbers.
  - apply categoricalInsights_numbers.
Qed.

Lemma at_least_trans (a b c : DataInsight.t) :
  at_least a b -> at_least b c -> at_least a c.
Proof.
  unfold at_least. intros AB BC.
  destruct (leb_nan_l _ _ AB) as [B A]. destruct (leb_nan_l _ _ BC) as [C _].
  rewrite leb_rank in AB, BC |- * by assumption.
  apply Z.leb_le in AB. apply Z.leb_le in BC. apply Z.leb_le. lia.
Qed.

(** In a list sorted by adjacent pairs, every element of a front part
    is at least as confident as every element of the rest. *)
Lemma sorted_front_back (front back : list DataInsight.t) :
  Sorted.Sorted at_least (front ++ back) ->
  forall kept dropped, In kept front -> In dropped back -> at_least kept dropped.
Proof.
  intros S. apply Sorted.Sorted_StronglySorted in S.
  - induction front as [|x front IH]; simpl in *; [contradiction|].
    inversion S as [|? ? S' F]; subst. intros kept dropped [<-|K] D.
    + rewrite Forall_forall in F. apply F, in_or_app. right. exact D.
    + exact (IH S' kept dropped K D).
  - intros a b c. apply at_least_trans.
Qed.

(** X5: [generateInsights] returns the most confident of the insights
    its passes find: as many of them as there are, up to five; the
    insights returned together with the ones dropped are exactly the
    candidates, and no dropped insight is more confident than a
    returned one. *)
Theorem generateInsights_keeps_most_confident (data : list DataRow) :
  List.length (generateInsights data)
  = Nat.min 5 (List.length (candidate_insights data))
  /\ exists dropped,
       Permutation (generateInsights data ++ dropped) (candidate_insights data)
       /\ forall kept d,
            In kept (generateInsights data) -> In d dropped ->
            (DataInsight.confidence d <=? DataInsight.confidence kept) = true.
Proof.
  set (compare := fun a b : DataInsight.t =>
                    DataInsight.confidence b - DataInsight.confidence a).
  set (sorted := sort compare (candidate_insights data)).
  assert (G : generateInsights data = firstn 5 sorted) by reflexivity.
  rewrite G. split.
  - rewrite length_firstn. f_equal.
    apply Permutation_length, sort_permutation.
  - exists (skipn 5 sorted). split.
    + rewrite firstn_skipn. apply sort_permutation.
    + destruct (sort_sorted (candidate_insights data) (candidate_numbers data)) as [_ S].
      fold compare in S. fold sorted in S. rewrite <- (firstn_skipn 5 sorted) in S.
      exact (sorted_front_back _ _ S).
Qed.

Lemma returned_is_candidate (data : list DataRow) (insight : DataInsight.t) :
  In insight (generateInsights data) -> In insight (candidate_insights data).
Proof.
  intros I.
  apply (Permutation_in insight
           (sort_permutation (fun a b => DataInsight.confidence b - DataInsight.confidence a)
                             (candidate_insights data))).
  rewrite <- (firstn_skipn 5). apply in_or_app. left. exact I.
Qed.

(** What each pass gives its insights. *)
Lemma candidate_confidence (data : list DataRow) (insight : DataInsight.t) :
  In insight (candidate_insights data) ->
  (0.5 <? DataInsight.confidence insight) = true
  /\ match DataInsight.type insight with
     | Correlation => True
     | Outlier => DataInsight.confidence insight = 0.8
     | Categorical => DataInsight.confidence insight = 0.7
     | Trend => False
     end.
Proof.
  intros C. unfold candidate_insights in C. cbv zeta in C.
  apply in_app_or in C. destruct C as [C|C]; [|apply in_app_or in C; destruct C as [C|C]].
  - unfold correlationInsights in C. apply in_flat_map in C.
    destruct C as [[c1 c2] [_ C]].
    destruct (0.5 <? PrimFloat.abs _) eqn:Strong in C; [|contradiction].
    destruct C as [<-|[]]. split; [exact Strong|exact I].
  - unfold outlierInsights in C. apply in_flat_map in C. destruct C as [col [_ C]].
    destruct (_ && _) in C; [|contradiction].
    destruct C as [<-|[]]. split; reflexivity.
  - unfold categoricalInsights in C. apply in_flat_map in C. destruct C as [col [_ C]].
    destruct (_ && _)%bool in C; [|contradiction].
    destruct (find _ _) in C; [|contradiction].
    destruct (_ && _)%bool in C; [|contradiction].
    destruct C as [<-|[]]. split; reflexivity.
Qed.


End InsightLaws.

(** ** Type inference: what does not matter, and dates against numbers *)

Section TypeInferenceLaws.

Let non_empty (v : scalar) : bool :=
  negb (strict_eq v VNull) && negb (strict_eq v VUndefined)
  && negb (strict_eq v (VStr "")).

Lemma forallb_permutation {A : Type} (p : A -> bool) (l l' : list A) :
  Permutation l l' -> forallb p l = forallb p l'.
Proof.
  induction 1 as [|x l l' _ IH|x y l|l l' l'' _ IH1 _ IH2]; simpl.
  - reflexivity.
  - rewrite IH. reflexivity.
  - destruct (p x), (p y); reflexivity.
  - congruence.
Qed.

(** X7: the inferred type depends on the non-empty entries only, and not
    on their order: two columns whose entries other than null,
    undefined and the empty string are the same up to order have the
    same type. *)
Theorem detectColumnType_remaining_only (values values' rest rest' : list scalar) :
  Spec.remaining values rest -> Spec.remaining values' rest' ->
  Permutation rest rest' ->
  detectColumnType values = detectColumnType values'.
Proof.
  intros R R' P. apply remaining_unique in R. apply remaining_unique in R'.
  unfold detectColumnType. cbv zeta. rewrite <- R, <- R'.
  rewrite (Permutation_length P).
  rewrite (forallb_permutation (fun v => Regex.test datePattern (String v)) _ _ P).
  rewrite (forallb_permutation (fun v => negb (isNaN (Number v)) && isFinite (Number v))
             _ _ P).
  reflexivity.
Qed.

Lemma detectColumnType_remaining_only_witness :
  detectColumnType [VNull; VNum 1; VStr ""; VStr "2"]
  = detectColumnType [VStr "2"; VUndefined; VNum 1].
Proof.
  apply (detectColumnType_remaining_only _ _ [VNum 1; VStr "2"] [VStr "2"; VNum 1]).
  - apply Spec.remaining_drop; [left; reflexivity|].
    apply Spec.remaining_keep; [intros [H|[H|H]]; discriminate|].
    apply Spec.remaining_drop; [right; right; reflexivity|].
    apply Spec.remaining_keep; [intros [H|[H|H]]; discriminate|].
    apply Spec.remaining_nil.
  - apply Spec.remaining_keep; [intros [H|[H|H]]; discriminate|].
    apply Spec.remaining_drop; [right; left; reflexivity|].
    apply Spec.remaining_keep; [intros [H|[H|H]]; discriminate|].
    apply Spec.remaining_nil.
  - apply perm_swap.
Defined.

(** A digit is none of the characters that are no digits. *)
Lemma digit_is_not (c d : ascii) :
  is_digit c = true -> is_digit d = false -> Ascii.eqb c d = false.
Proof.
  intros C D. apply Ascii.eqb_neq. intros ->. congruence.
Qed.

Lemma digit_not_space (c : ascii) : is_digit c = true -> is_space c = false.
Proof.
  unfold is_digit, is_space. intros H. apply andb_true_iff in H.
  destruct H as [L U]. apply Nat.leb_le in L. apply Nat.leb_le in U.
  apply orb_false_iff. split.
  - apply andb_false_iff. right. apply Nat.leb_gt. lia.
  - apply Nat.eqb_neq. lia.
Qed.

(** A string of the form YYYY-MM-DD does not coerce to a number. *)
Lemma date_string_is_no_number (s : string) :
  Spec.YYYY_MM_DD s -> PrimFloat.is_nan (string_to_number s) = true.
Proof.
  intros (y1 & y2 & y3 & y4 & m1 & m2 & d1 & d2 & D & ->).
  repeat match goal with
         | F : Forall _ (_ :: _) |- _ => inversion F; subst; clear F
         end.
  repeat match goal with
         | E : Spec.decimal_digit _ |- _ => apply is_digit_iff in E
         end.
  unfold string_to_number, chars, str. rewrite list_ascii_of_string_of_list_ascii.
  unfold trim. simpl drop_space at 2.
  rewrite (digit_not_space y1) by assumption. simpl rev at 2.
  simpl drop_space. rewrite (digit_not_space d2) by assumption. simpl rev.
  unfold non_decimal.
  rewrite !(digit_is_not y2) by (assumption || reflexivity). simpl orb.
  cbv iota. simpl (0 =? 0)%Z. simpl negb. rewrite andb_false_r. simpl andb.
  rewrite !(digit_is_not y1) by (assumption || reflexivity).
  unfold unsigned_decimal.
  replace (String.eqb _ "Infinity") with false
    by (simpl; rewrite (digit_is_not y1) by (assumption || reflexivity); reflexivity).
  simpl span.
  repeat match goal with
         | E : is_digit ?c = true |- context [is_digit ?c] => rewrite E
         end.
  reflexivity.
Qed.

(** X8: the DATE check and the NUMERIC check never compete on strings: a
    column that has a string of the form YYYY-MM-DD among its values is
    never NUMERIC. *)
Theorem detectColumnType_date_string_not_numeric (values : list scalar) (s : string) :
  In (VStr s) values -> Spec.YYYY_MM_DD s -> detectColumnType values <> numeric.
Proof.
  intros I D. pose proof (date_string_is_no_number s D) as N.
  assert (K : In (VStr s) (filter non_empty values)).
  { apply filter_In. split; [exact I|].
    destruct D as (y1 & y2 & y3 & y4 & m1 & m2 & d1 & d2 & _ & ->). reflexivity. }
  unfold detectColumnType. fold non_empty.
  destruct (_ =? 0)%nat; [discriminate|].
  destruct (forallb (fun v => Regex.test datePattern (String v)) _); [discriminate|].
  match goal with |- context [if ?b then _ else _] => destruct b eqn:F end;
    [|discriminate].
  exfalso. rewrite forallb_forall in F. specialize (F _ K).
  cbv zeta in F. simpl Number in F. unfold isNaN in F. rewrite N in F. discriminate.
Qed.

Lemma detectColumnType_date_string_not_numeric_witness :
  detectColumnType [VNum 1; VStr "2024-01-01"] <> numeric.
Proof.
  apply (detectColumnType_date_string_not_numeric _ "2024-01-01").
  - right. left. reflexivity.
  - exists "2"%char, "0"%char, "2"%char, "4"%char, "0"%char, "1"%char, "0"%char, "1"%char.
    split; [|reflexivity].
    repeat constructor; apply is_digit_iff; reflexivity.
Defined.
End TypeInferenceLaws.

(** ** The schema: columns and their distinct values *)

Section SchemaLaws.
Local Open Scope float_scope.

Lemma eqb_sym (x y : float) : (x =? y) = (y =? x).
Proof.
  rewrite !eqb_spec. unfold SFeqb. rewrite (SFcompare_antisym (Prim2SF y) (Prim2SF x)).
  destruct (SFcompare (Prim2SF y) (Prim2SF x)) as [[ | | ]|]; reflexivity.
Qed.

Lemma same_value_zero_sym (a b : scalar) : same_value_zero a b = same_value_zero b a.
Proof.
  destruct a as [| |x|x|x], b as [| |y|y|y]; simpl; try reflexivity.
  - destruct x, y; reflexivity.
  - rewrite (eqb_sym x y), (andb_comm (is_nan x)). reflexivity.
  - apply String.eqb_sym.
Qed.

Lemma same_value_zero_refl (a : scalar) : same_value_zero a a = true.
Proof.
  destruct a as [| |x|x|x]; simpl; try reflexivity.
  - destruct x; reflexivity.
  - unfold is_nan. destruct (x =? x); reflexivity.
  - apply String.eqb_refl.
Qed.

(** What a set stores for a value: [+0] for [-0]. *)
Let stored (v : scalar) : scalar :=
  match v with
  | VNum x => if is_zero x then VNum 0 else v
  | _ => v
  end.

Lemma eqb_numbers (a b : float) :
  (a =? b) = true -> is_nan a = false /\ is_nan b = false.
Proof.
  unfold is_nan. rewrite !eqb_spec. unfold SFeqb.
  destruct (Prim2SF a) as [sa|sa| |sa ma ea], (Prim2SF b) as [sb|sb| |sb mb eb];
    try discriminate; intros _; split;
    try (destruct sa); try (destruct sb); try reflexivity;
    unfold SFcompare; rewrite Z.compare_refl, Pos.compare_cont_refl; reflexivity.
Qed.

Lemma stored_same (v w : scalar) : same_value_zero (stored v) w = same_value_zero v w.
Proof.
  destruct v as [| |x|x|x]; try reflexivity. unfold stored.
  destruct (is_zero x) eqn:Z; [|reflexivity].
  destruct w as [| |y|y|y]; try reflexivity. simpl.
  unfold is_zero in Z. destruct (eqb_numbers _ _ Z) as [NX _].
  rewrite NX. simpl. rewrite !orb_false_r.
  destruct (is_nan y) eqn:NY.
  - destruct (x =? y) eqn:XY; [destruct (eqb_numbers _ _ XY); congruence|].
    destruct (0 =? y) eqn:ZY; [destruct (eqb_numbers _ _ ZY); congruence|].
    reflexivity.
  - rewrite eqb_rank in Z by (assumption || reflexivity).
    rewrite !eqb_rank by (assumption || reflexivity).
    apply Z.eqb_eq in Z. rewrite Z. reflexivity.
Qed.

Let distinct_values (l : list scalar) : Prop :=
  forall i j a b, (i < j)%nat -> nth_error l i = Some a -> nth_error l j = Some b ->
                  same_value_zero a b = false.

Lemma distinct_values_snoc (l : list scalar) (v : scalar) :
  distinct_values l -> (forall a, In a l -> same_value_zero a v = false) ->
  distinct_values (l ++ [v]).
Proof.
  intros D F i j a b L A B.
  destruct (Nat.lt_ge_cases j (List.length l)) as [J|J].
  - rewrite nth_error_app1 in A, B by lia. exact (D i j a b L A B).
  - rewrite nth_error_app2 in B by lia.
    destruct (j - List.length l)%nat as [|k] eqn:E; [|destruct k; discriminate].
    simpl in B. injection B as <-.
    rewrite nth_error_app1 in A by lia. apply F. exact (nth_error_In _ _ A).
Qed.

Lemma new_Set_from (values : list scalar) :
  forall seen,
    distinct_values seen ->
    distinct_values (fold_left Set_add values seen)
    /\ forall v, In v (fold_left Set_add values seen) ->
         In v seen \/ exists u, In u values /\ same_value_zero u v = true.
Proof.
  induction values as [|u values IH]; intros seen D; simpl.
  - split; [exact D|]. intros v I. left. exact I.
  - assert (D' : distinct_values (Set_add seen u)).
    { unfold Set_add. destruct (existsb (same_value_zero u) seen) eqn:E; [exact D|].
      apply distinct_values_snoc; [exact D|]. intros a I.
      rewrite same_value_zero_sym. fold (stored u). rewrite stored_same.
      destruct (same_value_zero u a) eqn:S; [|reflexivity].
      assert (existsb (same_value_zero u) seen = true)
        by (apply existsb_exists; exists a; split; assumption).
      congruence. }
    destruct (IH _ D') as [N M]. split; [exact N|].
    intros v I. destruct (M v I) as [S|[w [W S]]].
    + unfold Set_add in S. destruct (existsb (same_value_zero u) seen); [left; exact S|].
      apply in_app_or in S. destruct S as [S|[<-|[]]]; [left; exact S|].
      right. exists u. split; [left; reflexivity|].
      rewrite same_value_zero_sym. fold (stored u). rewrite stored_same.
      apply same_value_zero_refl.
    + right. exists w. split; [right; exact W|exact S].
Qed.

(** X9: [analyzeData] describes the columns of the first row, in the
    order of its keys; the type of a column is inferred from its cells
    in all rows, and its [values] are at most 50 values of the column,
    no two of them the same (in the sense of [Set]). *)
Theorem analyzeData_columns (data : list DataRow) :
  map ColumnInfo.name (analyzeData data) = keys (hd [] data)
  /\ forall col, In col (analyzeData data) ->
       let cells := map (fun row => get row (ColumnInfo.name col)) data in
       ColumnInfo.type col = detectColumnType cells
       /\ (List.length (ColumnInfo.values col) <= 50)%nat
       /\ (forall i j a b,
             (i < j)%nat ->
             nth_error (ColumnInfo.values col) i = Some a ->
             nth_error (ColumnInfo.values col) j = Some b ->
             same_value_zero a b = false)
       /\ (forall v, In v (ColumnInfo.values col) ->
             exists cell, In cell cells /\ same_value_zero cell v = true).
Proof.
  destruct data as [|row0 data]; [split; [reflexivity|intros col []]|].
  unfold analyzeData. set (rows := row0 :: data). split.
  - rewrite map_map. simpl. apply map_id.
  - intros col I. apply in_map_iff in I. destruct I as [column [<- _]].
    cbn [ColumnInfo.name ColumnInfo.type ColumnInfo.values]. cbv zeta.
    set (cells := map (fun row => get row column) rows).
    destruct (new_Set_from cells []) as [D M].
    { intros i j a b _ A. destruct i; discriminate. }
    fold (new_Set cells) in D, M.
    split; [reflexivity|]. split; [apply firstn_le_length|]. split.
    + intros i j a b L A B.
      rewrite nth_error_firstn in A, B.
      destruct (i <? 50)%nat; [|discriminate]. destruct (j <? 50)%nat; [|discriminate].
      exact (D i j a b L A B).
    + intros v I. assert (I' : In v (new_Set cells))
        by (rewrite <- (firstn_skipn 50); apply in_or_app; left; exact I).
      destruct (M v I') as [[]|[u H]]. exists u. exact H.
Qed.
End SchemaLaws.

(** ** Filters: conjunction, order and repetition *)

Section FilterLaws.

Lemma every_app {A : Type} (p : A -> outcome bool) (xs ys : list A) :
  every p (xs ++ ys) =
  match every p xs with
  | Returns true => every p ys
  | result => result
  end.
Proof.
  induction xs as [|x xs IH]; simpl; [reflexivity|].
  destruct (p x) as [[|]|e]; [exact IH|reflexivity|reflexivity].
Qed.

Lemma every_true {A : Type} (p : A -> outcome bool) (xs : list A) :
  every p xs = Returns true <-> forall x, In x xs -> p x = Returns true.
Proof.
  induction xs as [|x xs IH]; simpl.
  - split; [intros _ x []|reflexivity].
  - destruct (p x) as [[|]|e] eqn:P.
    + rewrite IH. split.
      * intros H y [<-|I]; [exact P|exact (H y I)].
      * intros H y I. apply H. right. exact I.
    + split; [discriminate|]. intros H. rewrite <- P. apply H. left. reflexivity.
    + split; [discriminate|]. intros H. rewrite <- P. apply H. left. reflexivity.
Qed.

Lemma every_false {A : Type} (p : A -> outcome bool) (xs : list A) :
  every p xs = Returns false -> exists x, In x xs /\ p x = Returns false.
Proof.
  induction xs as [|x xs IH]; simpl; [discriminate|].
  destruct (p x) as [[|]|e] eqn:P; try discriminate.
  - intros H. destruct (IH H) as [y [I F]]. exists y. split; [right; exact I|exact F].
  - intros _. exists x. split; [left; reflexivity|exact P].
Qed.

Lemma filter_by_cons {A : Type} (p : A -> outcome bool) (x : A) (xs kept : list A) :
  filter_by p (x :: xs) = Returns kept <->
  exists keep rest,
    p x = Returns keep /\ filter_by p xs = Returns rest
    /\ kept = if keep then x :: rest else rest.
Proof.
  simpl. destruct (p x) as [keep|e].
  - destruct (filter_by p xs) as [rest|e].
    + split.
      * intros H. injection H as <-. exists keep, rest. repeat split.
      * intros [keep' [rest' [K [R ->]]]]. injection K as <-. injection R as <-.
        reflexivity.
    + split; [discriminate|]. intros [keep' [rest' [_ [R _]]]]. discriminate.
  - split; [discriminate|]. intros [keep' [rest' [K _]]]. discriminate.
Qed.

Lemma filter_by_all {A : Type} (p : A -> outcome bool) (xs : list A) :
  (forall x, In x xs -> p x = Returns true) -> filter_by p xs = Returns xs.
Proof.
  induction xs as [|x xs IH]; intros H; simpl; [reflexivity|].
  rewrite (H x (or_introl eq_refl)), IH; [reflexivity|].
  intros y I. apply H. right. exact I.
Qed.

Lemma filter_by_kept {A : Type} (p : A -> outcome bool) (xs kept : list A) :
  filter_by p xs = Returns kept ->
  forall x, In x kept <-> In x xs /\ p x = Returns true.
Proof.
  revert kept. induction xs as [|x xs IH]; intros kept H y.
  - injection H as <-. simpl. tauto.
  - apply filter_by_cons in H. destruct H as [keep [rest [K [R ->]]]].
    specialize (IH rest R y). destruct keep; simpl; rewrite IH.
    + split.
      * intros [<-|[I P]]; [split; [left; reflexivity|exact K]|].
        split; [right; exact I|exact P].
      * intros [[<-|I] P]; [left; reflexivity|right; split; assumption].
    + split.
      * intros [I P]. split; [right; exact I|exact P].
      * intros [[<-|I] P]; [rewrite K in P; discriminate|split; assumption].
Qed.

Lemma filter_by_agree {A : Type} (p q : A -> outcome bool) (xs kept kept' : list A) :
  (forall x keep keep', In x xs -> p x = Returns keep -> q x = Returns keep' ->
                        keep = keep') ->
  filter_by p xs = Returns kept -> filter_by q xs = Returns kept' -> kept = kept'.
Proof.
  revert kept kept'. induction xs as [|x xs IH]; intros kept kept' H P Q.
  - injection P as <-. injection Q as <-. reflexivity.
  - apply filter_by_cons in P. destruct P as [k [rest [K [R ->]]]].
    apply filter_by_cons in Q. destruct Q as [k' [rest' [K' [R' ->]]]].
    rewrite (H x k k' (or_introl eq_refl) K K').
    rewrite (IH rest rest'); [reflexivity| |exact R|exact R'].
    intros y a b I. apply H. right. exact I.
Qed.

(** X10: filtering by two rule lists in turn is filtering by their
    concatenation: the rules are a conjunction, whichever way they
    are split over calls, and the one fails when the other does. *)
Theorem applyFilters_in_two_steps
  (data : list DataRow) (first second : list FilterRule.t) (kept : list DataRow) :
  applyFilters data (first ++ second) = Returns kept <->
  exists passed,
    applyFilters data first = Returns passed
    /\ applyFilters passed second = Returns kept.
Proof.
  unfold applyFilters. revert kept.
  induction data as [|row data IH]; intros kept.
  - simpl. split.
    + intros H. exists []. split; [reflexivity|exact H].
    + intros [passed [P K]]. injection P as <-. exact K.
  - rewrite filter_by_cons. split.
    + intros [keep [rest [K [R ->]]]]. apply IH in R. destruct R as [passed [P S]].
      rewrite every_app in K.
      destruct (every (passes row) first) as [[|]|e] eqn:F; [| |discriminate].
      * exists (row :: passed). split.
        -- simpl. rewrite F, P. reflexivity.
        -- simpl. rewrite K, S. reflexivity.
      * injection K as <-. exists passed. split; [|exact S].
        simpl. rewrite F, P. reflexivity.
    + intros [passed [P S]]. apply filter_by_cons in P.
      destruct P as [keep [rest [K [R ->]]]]. rewrite every_app, K.
      destruct keep.
      * apply filter_by_cons in S. destruct S as [keep' [rest' [K' [R' ->]]]].
        exists keep', rest'. split; [exact K'|]. split; [|reflexivity].
        apply IH. exists rest. split; assumption.
      * exists false, kept. split; [reflexivity|]. split; [|reflexivity].
        apply IH. exists rest. split; assumption.
Qed.

(** X11: what a filter returns is made of rows of the data that pass
    every rule, and filtering it again by the same rules changes
    nothing. *)
Theorem applyFilters_sound_and_idempotent
  (data : list DataRow) (filters : list FilterRule.t) (kept : list DataRow) :
  applyFilters data filters = Returns kept ->
  (forall row, In row kept <->
               In row data /\ every (passes row) filters = Returns true)
  /\ applyFilters kept filters = Returns kept.
Proof.
  unfold applyFilters. intros H. split.
  - exact (filter_by_kept _ _ _ H).
  - apply filter_by_all. intros row I. apply (filter_by_kept _ _ _ H). exact I.
Qed.

(** X12: the order of the rules does not change what is kept; it can
    only change whether the call fails. *)
Theorem applyFilters_rule_order
  (data : list DataRow) (filters filters' : list FilterRule.t)
  (kept kept' : list DataRow) :
  Permutation filters filters' ->
  applyFilters data filters = Returns kept ->
  applyFilters data filters' = Returns kept' ->
  kept = kept'.
Proof.
  unfold applyFilters. intros P. apply filter_by_agree. intros row k k' _ K K'.
  assert (one_way : forall fs fs', Permutation fs fs' ->
            every (passes row) fs = Returns true ->
            every (passes row) fs' = Returns false -> False).
  { intros fs fs' Q T F. apply every_false in F. destruct F as [f [I F]].
    rewrite every_true in T. rewrite (T f) in F; [discriminate|].
    apply (Permutation_in f (Permutation_sym Q)). exact I. }
  destruct k, k'; try reflexivity; exfalso.
  - exact (one_way _ _ P K K').
  - exact (one_way _ _ (Permutation_sym P) K' K).
Qed.

Lemma applyFilters_sound_and_idempotent_witness :
  applyFilters Scenario.outlier_data [Scenario.enabled_rule]
  = Returns (map Scenario.v_row [10; 10; 10; 10]%float)
  /\ applyFilters (map Scenario.v_row [10; 10; 10; 10]%float) [Scenario.enabled_rule]
     = Returns (map Scenario.v_row [10; 10; 10; 10]%float).
Proof.
  split; [vm_compute; reflexivity|].
  apply (applyFilters_sound_and_idempotent Scenario.outlier_data).
  vm_compute. reflexivity.
Defined.

Lemma applyFilters_rule_order_witness :
  Permutation [Scenario.enabled_rule; Sample.above_five]
              [Sample.above_five; Scenario.enabled_rule]
  /\ map Scenario.v_row [10; 10; 10; 10]%float
     = map Scenario.v_row [10; 10; 10; 10]%float.
Proof.
  split; [apply perm_swap|].
  apply (applyFilters_rule_order Scenario.outlier_data
           [Scenario.enabled_rule; Sample.above_five]
           [Sample.above_five; Scenario.enabled_rule]).
  - apply perm_swap.
  - vm_compute. reflexivity.
  - vm_compute. reflexivity.
Defined.

Lemma passes_returns (row : DataRow) (f : FilterRule.t) :
  (FilterRule.enabled f = true -> FilterRule.operator f = range ->
   is_iterable (FilterRule.value f) = true) ->
  exists keep, passes row f = Returns keep.
Proof.
  unfold passes. intros H. destruct (FilterRule.enabled f); simpl; [|eauto].
  destruct (FilterRule.operator f); eauto.
  specialize (H eq_refl eq_refl).
  destruct (FilterRule.value f) as [[]|vs]; simpl in *; try discriminate; eauto.
Qed.

(** X13: a filter fails only through an enabled [range] rule whose value
    cannot be destructured: when every such rule holds an array or a
    string, [applyFilters] returns. *)
Theorem applyFilters_returns (data : list DataRow) (filters : list FilterRule.t) :
  (forall f, In f filters -> FilterRule.enabled f = true ->
             FilterRule.operator f = range ->
             is_iterable (FilterRule.value f) = true) ->
  exists kept, applyFilters data filters = Returns kept.
Proof.
  intros H. unfold applyFilters.
  assert (E : forall row, exists keep, every (passes row) filters = Returns keep).
  { intros row. induction filters as [|f fs IH]; simpl; [eauto|].
    destruct (passes_returns row f) as [[|] ->].
    - apply H. left. reflexivity.
    - apply IH. intros g I. apply H. right. exact I.
    - eauto. }
  induction data as [|row data IH]; simpl; [eauto|].
  destruct (E row) as [keep ->]. destruct IH as [kept ->]. eauto.
Qed.

Lemma applyFilters_returns_witness :
  exists kept,
    applyFilters Scenario.outlier_data [Sample.between_five_and_hundred] = Returns kept.
Proof.
  apply applyFilters_returns. intros f [<-|[]] _ _. reflexivity.
Defined.

Lemma kept_passes (data kept : list DataRow) (filters : list FilterRule.t)
  (f : FilterRule.t) (row : DataRow) :
  applyFilters data filters = Returns kept -> In f filters -> In row kept ->
  passes row f = Returns true.
Proof.
  intros H F I. apply (filter_by_kept _ _ _ H) in I. destruct I as [_ E].
  rewrite every_true in E. exact (E f F).
Qed.

(** X14: an enabled [greater], [less] or [range] rule keeps only rows
    whose cell in its column converts to a number: rows where the cell
    is missing or is no number are dropped, whatever the bound. *)
Theorem applyFilters_comparisons_need_numbers
  (data kept : list DataRow) (filters : list FilterRule.t) (f : FilterRule.t) :
  In f filters ->
  FilterRule.enabled f = true ->
  compares_numbers (FilterRule.operator f) = true ->
  applyFilters data filters = Returns kept ->
  forall row, In row kept ->
    PrimFloat.is_nan (Number (get row (FilterRule.column f))) = false.
Proof.
  intros F E O H row I. pose proof (kept_passes _ _ _ f row H F I) as P.
  unfold passes in P. rewrite E in P. simpl in P.
  destruct (FilterRule.operator f); try discriminate.
  - injection P as P. exact (proj2 (ltb_numbers _ _ P)).
  - injection P as P. exact (proj1 (ltb_numbers _ _ P)).
  - destruct (destructure2 (FilterRule.value f)) as [[lo hi]|e]; [|discriminate].
    injection P as P. apply andb_true_iff in P. destruct P as [P _].
    exact (proj2 (leb_nan_l _ _ P)).
Qed.

Lemma applyFilters_comparisons_need_numbers_witness :
  Forall (fun row => PrimFloat.is_nan (Number (get row "v")) = false)
         (map Scenario.v_row [10; 10; 10; 10]%float).
Proof.
  apply Forall_forall.
  apply (applyFilters_comparisons_need_numbers Scenario.outlier_data _
           [Scenario.enabled_rule] Scenario.enabled_rule).
  - left. reflexivity.
  - reflexivity.
  - reflexivity.
  - vm_compute. reflexivity.
Defined.

(** X15: an enabled [range] rule whose upper bound is below its lower
    bound keeps no row. *)
Theorem applyFilters_inverted_range
  (data kept : list DataRow) (filters : list FilterRule.t) (f : FilterRule.t)
  (lo hi : scalar) (more : list scalar) :
  In f filters ->
  FilterRule.enabled f = true ->
  FilterRule.operator f = range ->
  FilterRule.value f = array (lo :: hi :: more) ->
  (Number hi <? Number lo)%float = true ->
  applyFilters data filters = Returns kept ->
  kept = [].
Proof.
  intros F E O V L H. destruct kept as [|row kept]; [reflexivity|exfalso].
  pose proof (kept_passes _ _ _ f row H F (or_introl eq_refl)) as P.
  unfold passes in P. rewrite E, O, V in P. simpl in P. injection P as P.
  apply andb_true_iff in P. destruct P as [A B].
  destruct (leb_nan_l _ _ A) as [NA NV]. destruct (leb_nan_l _ _ B) as [_ NB].
  rewrite leb_rank in A, B by assumption. rewrite ltb_rank in L by assumption.
  apply Z.leb_le in A, B. apply Z.ltb_lt in L. lia.
Qed.

Lemma applyFilters_inverted_range_witness :
  applyFilters Scenario.outlier_data [Sample.inverted_range] = Returns [].
Proof.
  assert (E : exists kept,
             applyFilters Scenario.outlier_data [Sample.inverted_range] = Returns kept).
  { exists []. vm_compute. reflexivity. }
  destruct E as [kept E]. rewrite E. f_equal.
  apply (applyFilters_inverted_range Scenario.outlier_data kept
           [Sample.inverted_range] Sample.inverted_range
           (VNum 100) (VNum 5) []); try reflexivity.
  - left. reflexivity.
  - exact E.
Defined.

End FilterLaws.

(** ** Groups: which rows an output row aggregates *)

Section GroupLaws.

Let rows_of (groups : list (string * list DataRow)) (key : string) : list DataRow :=
  match find (fun '(k, _) => String.eqb k key) groups with
  | Some (_, found) => found
  | None => []
  end.

Let add_row (groupColumns : list string) (groups : list (string * list DataRow))
    (row : DataRow) : list (string * list DataRow) :=
  let key := group_key groupColumns row in
  let groups := if negb (Map_has groups key) then Map_set_new groups key [] else groups in
  Map_push groups key row.

Let see (seen : list string) (x : string) : list string :=
  if existsb (String.eqb x) seen then seen else (seen ++ [x])%list.

Lemma Map_has_keys (groups : list (string * list DataRow)) (key : string) :
  Map_has groups key = existsb (String.eqb key) (map fst groups).
Proof.
  unfold Map_has. induction groups as [|[k held] groups IH]; simpl; [reflexivity|].
  rewrite IH, (String.eqb_sym k key). reflexivity.
Qed.

Lemma Map_push_keys (groups : list (string * list DataRow)) (key : string) (row : DataRow) :
  map fst (Map_push groups key row) = map fst groups.
Proof.
  unfold Map_push. induction groups as [|[k held] groups IH]; simpl; [reflexivity|].
  rewrite IH. destruct (String.eqb k key); reflexivity.
Qed.

Lemma add_row_keys (groupColumns : list string) (groups : list (string * list DataRow))
      (row : DataRow) :
  map fst (add_row groupColumns groups row)
  = see (map fst groups) (group_key groupColumns row).
Proof.
  unfold add_row, see. cbv zeta. rewrite Map_push_keys, Map_has_keys.
  destruct (existsb _ _); simpl; [reflexivity|].
  unfold Map_set_new. rewrite map_app. reflexivity.
Qed.

Lemma rows_of_push (groups : list (string * list DataRow)) (key k : string) (row : DataRow) :
  rows_of (Map_push groups key row) k
  = if Map_has groups k && String.eqb k key
    then (rows_of groups k ++ [row])%list else rows_of groups k.
Proof.
  unfold rows_of, Map_push, Map_has.
  induction groups as [|[k0 held] groups IH]; simpl; [reflexivity|].
  destruct (String.eqb_spec k0 key) as [->|N]; simpl.
  - destruct (String.eqb_spec key k) as [->|N']; simpl.
    + rewrite String.eqb_refl. reflexivity.
    + exact IH.
  - destruct (String.eqb_spec k0 k) as [->|N']; simpl.
    + apply String.eqb_neq in N. rewrite N. reflexivity.
    + exact IH.
Qed.

Lemma rows_of_new (groups : list (string * list DataRow)) (key k : string) :
  rows_of (Map_set_new groups key []) k = rows_of groups k.
Proof.
  unfold rows_of, Map_set_new.
  induction groups as [|[k0 held] groups IH]; simpl.
  - destruct (String.eqb key k); reflexivity.
  - destruct (String.eqb k0 k); [reflexivity|exact IH].
Qed.

Lemma Map_has_new (groups : list (string * list DataRow)) (key k : string) :
  Map_has (Map_set_new groups key []) k = Map_has groups k || String.eqb key k.
Proof.
  unfold Map_has, Map_set_new. rewrite existsb_app. simpl.
  rewrite orb_false_r. reflexivity.
Qed.

Lemma rows_of_add (groupColumns : list string) (groups : list (string * list DataRow))
      (row : DataRow) (k : string) :
  rows_of (add_row groupColumns groups row) k
  = (rows_of groups k
     ++ if String.eqb (group_key groupColumns row) k then [row] else [])%list.
Proof.
  unfold add_row. cbv zeta. set (key := group_key groupColumns row).
  rewrite rows_of_push.
  destruct (Map_has groups key) eqn:H; simpl.
  - destruct (String.eqb_spec k key) as [->|N].
    + rewrite H, String.eqb_refl. reflexivity.
    + rewrite andb_false_r. apply not_eq_sym in N. apply String.eqb_neq in N.
      rewrite N, app_nil_r. reflexivity.
  - rewrite Map_has_new, rows_of_new.
    destruct (String.eqb_spec k key) as [->|N].
    + rewrite String.eqb_refl, orb_true_r. reflexivity.
    + rewrite andb_false_r. apply not_eq_sym in N. apply String.eqb_neq in N.
      rewrite N, app_nil_r. reflexivity.
Qed.

Lemma see_NoDup (seen : list string) (x : string) : NoDup seen -> NoDup (see seen x).
Proof.
  unfold see. intros ND. destruct (existsb (String.eqb x) seen) eqn:E; [exact ND|].
  apply NoDup_app; [exact ND|repeat constructor; intros []|].
  intros y I [<-|[]].
  apply (existsb_eqb_In String.eqb String.eqb_eq) in I. congruence.
Qed.

Lemma groups_by_key (groups : list (string * list DataRow)) :
  NoDup (map fst groups) ->
  groups = map (fun k => (k, rows_of groups k)) (map fst groups).
Proof.
  unfold rows_of. induction groups as [|[k held] groups IH]; simpl; intros ND;
    [reflexivity|].
  rewrite String.eqb_refl. f_equal. inversion ND as [|? ? Fresh ND']; subst.
  rewrite (IH ND') at 1. apply map_ext_in. intros k' I.
  destruct (String.eqb_spec k k') as [->|_]; [contradiction|reflexivity].
Qed.

Lemma group_rows_from (groupColumns : list string) (data : list DataRow) :
  forall groups : list (string * list DataRow),
    NoDup (map fst groups) ->
    fold_left (add_row groupColumns) data groups
    = map (fun k => (k, (rows_of groups k ++ rows_with_key groupColumns data k)%list))
          (fold_left see (map (group_key groupColumns) data) (map fst groups)).
Proof.
  induction data as [|row data IH]; intros groups ND.
  - simpl. rewrite (groups_by_key groups ND) at 1. apply map_ext. intros k.
    rewrite app_nil_r. reflexivity.
  - simpl. rewrite IH by (rewrite add_row_keys; apply see_NoDup; exact ND).
    rewrite add_row_keys. apply map_ext. intros k.
    rewrite rows_of_add, <- app_assoc. f_equal.
    destruct (String.eqb (group_key groupColumns row) k); reflexivity.
Qed.

(** The groups of [groupAndAggregate]: one entry per distinct key, in
    the order of the keys' first rows, holding the rows of that key in
    the order of the data. *)
Lemma group_rows_by_key (groupColumns : list string) (data : list DataRow) :
  group_rows groupColumns data
  = map (fun key => (key, rows_with_key groupColumns data key))
        (Spec.distinct_keys data groupColumns).
Proof.
  exact (group_rows_from groupColumns data [] (NoDup_nil _)).
Qed.

(** C10, amended: the output row of [groupAndAggregate] at each
    position is the row of the group key at that position, computed
    from the rows of the data that have that key, of which there is at
    least one.  In it, each group column other than [__proto__] whose
    name is not also the derived name [{column}_{function}] of one of
    the aggregations holds a string, the piece of that key at a
    position of the column; when the string forms of the group values
    of a row of the group have no ['|'] in them, it is the string form
    of that row's value, so that numbers and booleans come back as
    strings (a group value 1 becomes ["1"]) and null and undefined as
    the empty string, not as the original scalar. *)
Theorem groupAndAggregate_group_columns
        (data : list DataRow) (groupColumns : list string)
        (aggregations : list Aggregation.t) (index : nat) (out : DataRow)
        (col : string) :
  nth_error (groupAndAggregate data groupColumns aggregations) index = Some out ->
  In col groupColumns ->
  col <> "__proto__" ->
  (forall agg, In agg aggregations -> Spec.derived_name agg <> col) ->
  exists key position piece,
    nth_error (Spec.distinct_keys data groupColumns) index = Some key
    /\ out = group_result groupColumns aggregations key
                          (rows_with_key groupColumns data key)
    /\ rows_with_key groupColumns data key <> []
    /\ nth_error groupColumns position = Some col
    /\ nth_error (split "|" key) position = Some piece
    /\ get out col = VStr piece
    /\ forall row,
         In row (rows_with_key groupColumns data key) ->
         (forall c, In c groupColumns -> Spec.no_separator (join_item (get row c))) ->
         piece = join_item (get row col).
Proof.
  unfold groupAndAggregate. rewrite group_rows_by_key, map_map, nth_error_map.
  destruct (nth_error (Spec.distinct_keys data groupColumns) index) as [key|] eqn:K;
    [|discriminate].
  simpl. intros H Col Plain Free. injection H as <-.
  assert (Group : forall row, In row (rows_with_key groupColumns data key) ->
            group_key groupColumns row = key).
  { intros row I. apply filter_In in I. destruct I as [_ E].
    apply String.eqb_eq. exact E. }
  assert (Some_row : exists row, In row (rows_with_key groupColumns data key)).
  { apply nth_error_In in K.
    apply (proj2 (distinct_keys_spec data groupColumns)) in K.
    destruct K as [row [I E]]. exists row. apply filter_In. split; [exact I|].
    apply String.eqb_eq. exact E. }
  destruct (group_columns_set (split "|" key) groupColumns col Col Plain 0%nat [])
    as [position [At G]].
  simpl in G.
  assert (NE : forall row : DataRow,
            map (fun c => join_item (get row c)) groupColumns <> [])
    by (intros row; destruct groupColumns; [contradiction|discriminate]).
  destruct (nth_error (split "|" key) position) as [piece|] eqn:P.
  - exists key, position, piece. split; [reflexivity|]. split; [reflexivity|].
    split; [destruct Some_row as [row I]; intros E; rewrite E in I; exact I|].
    split; [exact At|]. split; [exact P|]. split.
    + unfold group_result. rewrite aggregations_other_column by exact Free. exact G.
    + intros row I Sep. rewrite <- (Group row I) in P.
      unfold group_key in P. rewrite split_join in P.
      * rewrite nth_error_map, At in P. simpl in P. congruence.
      * apply NE.
      * intros s J. apply in_map_iff in J. destruct J as [c [<- J]]. apply Sep, J.
  - exfalso. destruct Some_row as [row I]. rewrite <- (Group row I) in P.
    apply nth_error_None in P.
    pose proof (split_join_length _ (NE row)) as L. rewrite length_map in L.
    fold (group_key groupColumns row) in L.
    assert (position < List.length groupColumns)%nat
      by (apply nth_error_Some; congruence).
    lia.
Qed.

(** The grouping scenario with group values [1], [true] and [null]:
    they come back as ["1"], ["true"] and [""]; the first output row
    is that of the key ["1"], of the two rows with [g = 1]. *)
Lemma groupAndAggregate_group_columns_witness :
  map (fun out => get out "g")
      (groupAndAggregate Scenario.grouping_data ["g"] [Scenario.sum_v])
  = [VStr "1"; VStr "true"; VStr ""]
  /\ exists key position piece,
       nth_error (Spec.distinct_keys Scenario.grouping_data ["g"]) 0 = Some key
       /\ [("g", VStr "1"); ("v_sum", VNum 4)]
          = group_result ["g"] [Scenario.sum_v] key
                         (rows_with_key ["g"] Scenario.grouping_data key)
       /\ rows_with_key ["g"] Scenario.grouping_data key <> []
       /\ nth_error ["g"] position = Some "g"
       /\ nth_error (split "|" key) position = Some piece
       /\ get [("g", VStr "1"); ("v_sum", VNum 4)] "g" = VStr piece
       /\ forall row,
            In row (rows_with_key ["g"] Scenario.grouping_data key) ->
            (forall c, In c ["g"] -> Spec.no_separator (join_item (get row c))) ->
            piece = join_item (get row "g").
Proof.
  split; [vm_compute; reflexivity|].
  apply (groupAndAggregate_group_columns Scenario.grouping_data ["g"]
           [Scenario.sum_v] 0 [("g", VStr "1"); ("v_sum", VNum 4)] "g").
  - vm_compute. reflexivity.
  - left. reflexivity.
  - discriminate.
  - intros agg [<-|[]]. vm_compute. discriminate.
Defined.

Lemma split_by_key_cons {A : Type} (key_of : A -> string) (x : A) (l : list A)
      (keys : list string) :
  NoDup keys -> In (key_of x) keys ->
  Permutation
    (List.concat (map (fun k => filter (fun y => String.eqb (key_of y) k) (x :: l)) keys))
    (x :: List.concat (map (fun k => filter (fun y => String.eqb (key_of y) k) l) keys)).
Proof.
  induction keys as [|k keys IH]; intros ND Here; [contradiction|].
  inversion ND as [|? ? Fresh ND']; subst. simpl.
  destruct (String.eqb_spec (key_of x) k) as [E|N].
  - simpl. constructor. apply Permutation_app_head.
    rewrite (map_ext_in _ (fun k0 => filter (fun y => String.eqb (key_of y) k0) l));
      [reflexivity|].
    intros k' I.
    destruct (String.eqb_spec (key_of x) k') as [E'|_]; [|reflexivity].
    exfalso. apply Fresh. rewrite <- E, E'. exact I.
  - destruct Here as [E|Here]; [exfalso; apply N; symmetry; exact E|].
    apply Permutation_trans with (1 := Permutation_app_head _ (IH ND' Here)).
    apply Permutation_sym, Permutation_middle.
Qed.

Lemma split_by_key {A : Type} (key_of : A -> string) (l : list A) (keys : list string) :
  NoDup keys -> (forall x, In x l -> In (key_of x) keys) ->
  Permutation
    (List.concat (map (fun k => filter (fun x => String.eqb (key_of x) k) l) keys)) l.
Proof.
  intros ND. induction l as [|x l IH]; intros All.
  - clear. induction keys as [|k keys IH]; simpl; [constructor|exact IH].
  - apply Permutation_trans with (1 := split_by_key_cons key_of x l keys ND
                                         (All x (or_introl eq_refl))).
    constructor. apply IH. intros y I. apply All. right. exact I.
Qed.

(** X16: [groupAndAggregate] returns one row per distinct group key, in
    the order in which the keys first occur, each computed from the
    rows of the data that have that key, in the order of the data; and
    these groups share out the data: every row is in exactly one. *)
Theorem groupAndAggregate_by_key
        (data : list DataRow) (groupColumns : list string)
        (aggregations : list Aggregation.t) :
  let keys := Spec.distinct_keys data groupColumns in
  groupAndAggregate data groupColumns aggregations
  = map (fun key => group_result groupColumns aggregations key
                                 (rows_with_key groupColumns data key))
        keys
  /\ Permutation (List.concat (map (rows_with_key groupColumns data) keys)) data.
Proof.
  intros keys. split.
  - unfold groupAndAggregate. rewrite group_rows_by_key, map_map. reflexivity.
  - destruct (distinct_keys_spec data groupColumns) as [ND All].
    apply split_by_key; [exact ND|].
    intros row I. apply All. exists row. split; [exact I|reflexivity].
Qed.

End GroupLaws.

(** ** Aggregations: the cells of the derived columns *)

Section AggregateLaws.
Local Open Scope float_scope.

Lemma rank_bounds (v : float) : (- 2 ^ 2100 <= rank v <= 2 ^ 2100)%Z.
Proof.
  unfold rank. pose proof (Prim2SF_valid v) as V.
  assert (P : (0 < 2 ^ 2100)%Z) by (apply Z.pow_pos_nonneg; lia).
  destruct (Prim2SF v) as [s|s| |s m e]; unfold SFrank, cond_Zopp.
  - lia.
  - destruct s; lia.
  - lia.
  - pose proof (finite_rank_bounds m e V). destruct s; lia.
Qed.

Lemma rank_infinity : rank infinity = (2 ^ 2100)%Z.
Proof. reflexivity. Qed.

Lemma rank_neg_infinity : rank neg_infinity = (- 2 ^ 2100)%Z.
Proof. reflexivity. Qed.

Lemma leb_trans (a b c : float) :
  (a <=? b) = true -> (b <=? c) = true -> (a <=? c) = true.
Proof.
  intros AB BC.
  destruct (leb_nan_l a b AB) as [A B]. destruct (leb_nan_l b c BC) as [_ C].
  rewrite leb_rank in AB, BC |- * by assumption.
  apply Z.leb_le in AB, BC. apply Z.leb_le. lia.
Qed.

Lemma min2_spec (a b : float) :
  is_nan a = false -> is_nan b = false ->
  (min2 a b = a \/ min2 a b = b)
  /\ (min2 a b <=? a) = true /\ (min2 a b <=? b) = true.
Proof.
  intros A B. unfold min2. rewrite A, B. simpl.
  pose proof (ltb_rank a b A B) as AB. pose proof (ltb_rank b a B A) as BA.
  destruct (a <? b); [|destruct (b <? a); [|destruct (get_sign a)]];
    (split; [tauto|]); rewrite ?leb_rank by assumption;
    symmetry in AB, BA;
    rewrite ?Z.ltb_lt, ?Z.ltb_ge in AB, BA; split; apply Z.leb_le; lia.
Qed.

Lemma max2_spec (a b : float) :
  is_nan a = false -> is_nan b = false ->
  (max2 a b = a \/ max2 a b = b)
  /\ (a <=? max2 a b) = true /\ (b <=? max2 a b) = true.
Proof.
  intros A B. unfold max2. rewrite A, B. simpl.
  pose proof (ltb_rank a b A B) as AB. pose proof (ltb_rank b a B A) as BA.
  destruct (a <? b); [|destruct (b <? a); [|destruct (get_sign a)]];
    (split; [tauto|]); rewrite ?leb_rank by assumption;
    symmetry in AB, BA;
    rewrite ?Z.ltb_lt, ?Z.ltb_ge in AB, BA; split; apply Z.leb_le; lia.
Qed.

Lemma min2_infinity (v : float) : is_nan v = false -> min2 infinity v = v.
Proof.
  intros V. unfold min2. rewrite V. simpl.
  rewrite (ltb_rank infinity v) by (reflexivity || exact V).
  rewrite (ltb_rank v infinity) by (reflexivity || exact V).
  pose proof (rank_bounds v) as B. rewrite rank_infinity.
  destruct (Z.ltb_spec (2 ^ 2100) (rank v)); [lia|].
  destruct (Z.ltb_spec (rank v) (2 ^ 2100)); reflexivity.
Qed.

Lemma max2_neg_infinity (v : float) : is_nan v = false -> max2 neg_infinity v = v.
Proof.
  intros V. unfold max2. rewrite V. simpl.
  rewrite (ltb_rank neg_infinity v) by (reflexivity || exact V).
  rewrite (ltb_rank v neg_infinity) by (reflexivity || exact V).
  pose proof (rank_bounds v) as B. rewrite rank_neg_infinity.
  destruct (Z.ltb_spec (- 2 ^ 2100) (rank v)); [reflexivity|].
  destruct (Z.ltb_spec (rank v) (- 2 ^ 2100)); [lia|reflexivity].
Qed.

Lemma fold_min2 (l : list float) :
  forall a, is_nan a = false -> Forall (fun v => is_nan v = false) l ->
    let m := fold_left min2 l a in
    is_nan m = false /\ (m <=? a) = true
    /\ (forall v, In v l -> (m <=? v) = true) /\ (m = a \/ In m l).
Proof.
  induction l as [|v l IH]; intros a A F; simpl.
  - repeat split; [exact A| |intros v []|left; reflexivity].
    rewrite leb_rank by assumption. apply Z.leb_refl.
  - inversion F as [|? ? V F']; subst.
    destruct (min2_spec a v A V) as [Which [LA LV]].
    assert (N : is_nan (min2 a v) = false) by (destruct Which as [-> | ->]; assumption).
    destruct (IH (min2 a v) N F') as [NM [LM [Below Where]]].
    split; [exact NM|]. split; [exact (leb_trans _ _ _ LM LA)|]. split.
    + intros w [<-|I]; [exact (leb_trans _ _ _ LM LV)|exact (Below w I)].
    + destruct Where as [E|I]; [|right; right; exact I].
      rewrite E. destruct Which as [-> | ->]; [left|right; left]; reflexivity.
Qed.

Lemma fold_max2 (l : list float) :
  forall a, is_nan a = false -> Forall (fun v => is_nan v = false) l ->
    let m := fold_left max2 l a in
    is_nan m = false /\ (a <=? m) = true
    /\ (forall v, In v l -> (v <=? m) = true) /\ (m = a \/ In m l).
Proof.
  induction l as [|v l IH]; intros a A F; simpl.
  - repeat split; [exact A| |intros v []|left; reflexivity].
    rewrite leb_rank by assumption. apply Z.leb_refl.
  - inversion F as [|? ? V F']; subst.
    destruct (max2_spec a v A V) as [Which [LA LV]].
    assert (N : is_nan (max2 a v) = false) by (destruct Which as [-> | ->]; assumption).
    destruct (IH (max2 a v) N F') as [NM [LM [Above Where]]].
    split; [exact NM|]. split; [exact (leb_trans _ _ _ LA LM)|]. split.
    + intros w [<-|I]; [exact (leb_trans _ _ _ LV LM)|exact (Above w I)].
    + destruct Where as [E|I]; [|right; right; exact I].
      rewrite E. destruct Which as [-> | ->]; [left|right; left]; reflexivity.
Qed.

Lemma numeric_cells_numbers (column : string) (groupData : list DataRow) :
  Forall (fun v => is_nan v = false) (numeric_cells column groupData).
Proof.
  apply Forall_forall. intros v I. unfold numeric_cells in I.
  apply filter_In in I. destruct I as [_ I]. unfold isNaN in I.
  destruct (is_nan v); [discriminate|reflexivity].
Qed.

(** X17: the [min] and [max] of a group are cells of the group that bound
    all its numeric cells; a group with no numeric cell in the column
    gets [Infinity] and [-Infinity], sum 0, average 0 and count 0. *)
Theorem aggregated_min_max (column : string) (groupData : list DataRow) :
  let values := numeric_cells column groupData in
  (forall v, In v values ->
     (aggregated Min values <=? v) = true /\ (v <=? aggregated Max values) = true)
  /\ (values <> [] ->
      In (aggregated Min values) values /\ In (aggregated Max values) values)
  /\ (values = [] ->
      aggregated Min values = infinity /\ aggregated Max values = neg_infinity
      /\ aggregated Sum values = 0 /\ aggregated Avg values = 0
      /\ aggregated Count values = 0).
Proof.
  intros values. pose proof (numeric_cells_numbers column groupData) as F.
  fold values in F. clearbody values. split; [|split].
  - destruct values as [|v0 l]; [intros v []|].
    inversion F as [|? ? V0 F']; subst. intros v I. unfold aggregated, Math_min, Math_max.
    simpl fold_left. rewrite (min2_infinity v0 V0), (max2_neg_infinity v0 V0).
    destruct (fold_min2 l v0 V0 F') as [_ [L0 [Below _]]].
    destruct (fold_max2 l v0 V0 F') as [_ [U0 [Above _]]].
    destruct I as [<-|I]; split; auto.
  - destruct values as [|v0 l]; [congruence|]. intros _.
    inversion F as [|? ? V0 F']; subst. unfold aggregated, Math_min, Math_max.
    simpl fold_left. rewrite (min2_infinity v0 V0), (max2_neg_infinity v0 V0).
    destruct (fold_min2 l v0 V0 F') as [_ [_ [_ [-> |I]]]];
      destruct (fold_max2 l v0 V0 F') as [_ [_ [_ [-> |J]]]];
      split; simpl; auto.
  - intros ->. repeat split.
Qed.

Lemma derived_name_inj (a b : Aggregation.t) :
  Spec.derived_name a = Spec.derived_name b ->
  Aggregation.column a = Aggregation.column b
  /\ Aggregation.function a = Aggregation.function b.
Proof.
  unfold Spec.derived_name. intros H. apply (f_equal chars) in H.
  rewrite !chars_append in H. apply (f_equal (@rev ascii)) in H.
  rewrite !rev_app_distr in H.
  destruct (Aggregation.function a), (Aggregation.function b);
    try (simpl in H; discriminate); (split; [|reflexivity]);
    apply app_inv_head in H; apply (f_equal (@rev ascii)) in H;
    rewrite !rev_involutive in H; apply (f_equal str) in H;
    rewrite !str_chars in H; exact H.
Qed.

Lemma aggregate_sets (result : DataRow) (groupData : list DataRow) (agg : Aggregation.t) :
  aggregate result groupData agg
  = set result (Spec.derived_name agg)
        (VNum (aggregated (Aggregation.function agg)
                          (numeric_cells (Aggregation.column agg) groupData))).
Proof.
  unfold aggregate, Spec.derived_name, aggregated, numeric_cells.
  destruct (Aggregation.function agg); reflexivity.
Qed.

Lemma aggregations_cell (groupData : list DataRow) (aggregations : list Aggregation.t)
      (agg : Aggregation.t) :
  In agg aggregations ->
  forall result,
    get (fold_left (fun result agg => aggregate result groupData agg) aggregations result)
        (Spec.derived_name agg)
    = VNum (aggregated (Aggregation.function agg)
                       (numeric_cells (Aggregation.column agg) groupData)).
Proof.
  induction aggregations as [|last aggregations IH] using rev_ind; [intros []|].
  intros I result. rewrite fold_left_app. simpl. rewrite aggregate_sets, get_set.
  destruct (String.eqb_spec (Spec.derived_name last) (Spec.derived_name agg)) as [E|N].
  - apply derived_name_inj in E. destruct E as [-> ->]. reflexivity.
  - apply in_app_or in I. destruct I as [I|[->|[]]]; [exact (IH I result)|congruence].
Qed.

(** X18: every output row holds, for each requested aggregation, the
    derived column [{column}_{function}] with the aggregate of the
    numeric cells of that column over the rows of the row's key;
    several aggregations never overwrite one another. *)
Theorem groupAndAggregate_cells
        (data : list DataRow) (groupColumns : list string)
        (aggregations : list Aggregation.t) (index : nat) (out : DataRow) :
  nth_error (groupAndAggregate data groupColumns aggregations) index = Some out ->
  exists key,
    nth_error (Spec.distinct_keys data groupColumns) index = Some key
    /\ forall agg, In agg aggregations ->
         get out (Spec.derived_name agg)
         = VNum (aggregated (Aggregation.function agg)
                   (numeric_cells (Aggregation.column agg)
                                  (rows_with_key groupColumns data key))).
Proof.
  unfold groupAndAggregate. rewrite group_rows_by_key, map_map, nth_error_map.
  destruct (nth_error (Spec.distinct_keys data groupColumns) index) as [key|];
    [|discriminate].
  simpl. intros H. injection H as <-. exists key. split; [reflexivity|].
  intros agg I. unfold group_result. apply aggregations_cell. exact I.
Qed.

Lemma groupAndAggregate_cells_witness :
  exists key,
    nth_error (Spec.distinct_keys Scenario.grouping_data ["g"]) 0 = Some key
    /\ forall agg, In agg [Scenario.sum_v; Sample.max_v] ->
         get (group_result ["g"] [Scenario.sum_v; Sample.max_v] "1"
                (rows_with_key ["g"] Scenario.grouping_data "1"))
             (Spec.derived_name agg)
         = VNum (aggregated (Aggregation.function agg)
                   (numeric_cells (Aggregation.column agg)
                                  (rows_with_key ["g"] Scenario.grouping_data key))).
Proof.
  apply (groupAndAggregate_cells Scenario.grouping_data ["g"]
           [Scenario.sum_v; Sample.max_v] 0).
  vm_compute. reflexivity.
Defined.

End AggregateLaws.

(** ** Computed fields: how an expression is filled in *)

Section SubstitutionLaws.

Let flush (f : string -> string) (word : list ascii) : list ascii :=
  match word with [] => [] | _ => chars (f (str word)) end.

Lemma replace_words_run (f : string -> string) (run : list ascii) :
  forallb is_word_char run = true ->
  forall word, replace_words f word run = flush f (word ++ run).
Proof.
  induction run as [|c run IH]; simpl; intros W word.
  - rewrite app_nil_r. reflexivity.
  - apply andb_true_iff in W. destruct W as [C W]. rewrite C, (IH W), <- app_assoc.
    reflexivity.
Qed.

Lemma replace_words_break (f : string -> string) (run : list ascii) (c : ascii)
      (rest : list ascii) :
  forallb is_word_char run = true -> is_word_char c = false ->
  forall word,
    replace_words f word (run ++ c :: rest)
    = (flush f (word ++ run) ++ c :: replace_words f [] rest)%list.
Proof.
  induction run as [|d run IH]; simpl; intros W C word.
  - rewrite C, app_nil_r. reflexivity.
  - apply andb_true_iff in W. destruct W as [D W]. rewrite D, (IH W C), <- app_assoc.
    reflexivity.
Qed.

Lemma str_app (l1 l2 : list ascii) : str (l1 ++ l2) = str l1 ++ str l2.
Proof.
  unfold str. induction l1 as [|c l1 IH]; simpl; [reflexivity|].
  rewrite IH. reflexivity.
Qed.

Variable function_text : string -> string.

Lemma str_flush (row : DataRow) (word : string) :
  str (flush (fun match_ => match member_text function_text row match_ with
                            | Some image => image
                            | None => match_
                            end)
             (chars word))
  = resolve function_text row word.
Proof.
  unfold flush, resolve. destruct (chars word) as [|c l] eqn:E; [reflexivity|].
  rewrite <- E, !str_chars. reflexivity.
Qed.

(** X19: an expression is filled in word by word, and what follows a
    character that is no word character is filled in on its own.  A
    run of word characters is replaced by the text of the row's cell of
    that name; a run that names no cell of the row is replaced all the
    same when it names what every object inherits (the text of the
    function for [constructor], [toString], [valueOf] and the like,
    [[object Object]] for [__proto__]); any other run, and a run that
    names a cell that is [undefined], is kept. *)
Theorem substitute_word_by_word (row : DataRow) (word rest : string) (c : ascii) :
  forallb is_word_char (chars word) = true ->
  is_word_char c = false ->
  word <> "" ->
  substitute function_text row (word ++ String.String c rest)
  = substitute function_text row word
    ++ String.String c (substitute function_text row rest)
  /\ match lookup row word with
     | Some VUndefined => substitute function_text row word = word
     | Some cell => substitute function_text row word = String cell
     | None =>
         (In word Object_prototype_functions ->
          substitute function_text row word = function_text word)
         /\ (word = "__proto__" ->
             substitute function_text row word = "[object Object]")
         /\ (~ In word Object_prototype_functions -> word <> "__proto__" ->
             substitute function_text row word = word)
     end.
Proof.
  intros W C N.
  assert (Whole : substitute function_text row word = resolve function_text row word).
  { unfold substitute. rewrite (replace_words_run _ _ W). apply str_flush. }
  split.
  - rewrite Whole. unfold substitute.
    rewrite chars_append. change (chars (String.String c rest)) with (c :: chars rest).
    rewrite (replace_words_break _ _ _ _ W C), str_app. simpl app.
    rewrite str_flush. reflexivity.
  - rewrite Whole. unfold resolve, member_text.
    destruct (chars word) as [|c0 l] eqn:E.
    { exfalso. apply N. rewrite <- (str_chars word), E. reflexivity. }
    destruct (lookup row word) as [[| | | |]|]; try reflexivity.
    destruct (existsb (String.eqb word) Object_prototype_functions) eqn:F.
    + split; [reflexivity|]. split.
      * intros ->. discriminate.
      * intros Not. exfalso. apply Not.
        apply existsb_exists in F. destruct F as [name [I Eq]].
        apply String.eqb_eq in Eq. subst. exact I.
    + assert (Not : ~ In word Object_prototype_functions).
      { intros I. rewrite <- not_true_iff_false in F. apply F.
        apply existsb_exists. exists word. split; [exact I|apply String.eqb_refl]. }
      split; [intros I; contradiction|]. split.
      * intros ->. reflexivity.
      * intros _ Plain. apply String.eqb_neq in Plain. rewrite Plain. reflexivity.
Qed.

End SubstitutionLaws.

Lemma substitute_word_by_word_witness :
  substitute Scenario.sample_function_text (Scenario.v_row 10) "v + toString"
  = "10 + function toString() { [native code] }"
  /\ substitute Scenario.sample_function_text (Scenario.v_row 10) "v" = "10".
Proof.
  assert (H := substitute_word_by_word Scenario.sample_function_text
                 (Scenario.v_row 10) "v" "+ toString" " "
                 eq_refl eq_refl ltac:(discriminate)).
  destruct H as [H1 H2]. split; [|exact H2].
  etransitivity; [exact H1|vm_compute; reflexivity].
Defined.


(** * Laws of the components *)

(** ** PresentationModal: the slides *)

Section SlideLaws.
Local Open Scope Z_scope.
Import PresentationModal.

(** X20: with [n] charts the slides are numbered 0 to [n]; from such a
    slide, next and previous stay in that range, wrap around at its two
    ends, and each undoes the other. *)
Theorem slides_wrap_around (n prev : Z) :
  0 <= n -> 0 <= prev <= n ->
  0 <= nextSlide n prev <= n
  /\ 0 <= prevSlide n prev <= n
  /\ prevSlide n (nextSlide n prev) = prev
  /\ nextSlide n (prevSlide n prev) = prev
  /\ nextSlide n n = 0
  /\ prevSlide n 0 = n.
Proof.
  intros N P.
  assert (next : forall p, 0 <= p <= n ->
            nextSlide n p = if p =? n then 0 else p + 1).
  { intros p R. unfold nextSlide. destruct (Z.eqb_spec p n) as [->|D].
    - apply Z.rem_same. lia.
    - apply Z.rem_small. lia. }
  assert (previous : forall p, 0 <= p <= n ->
            prevSlide n p = if p =? 0 then n else p - 1).
  { intros p R. unfold prevSlide. rewrite Z.rem_mod_nonneg by lia.
    replace (p - 1 + n + 1) with (p + n) by lia.
    destruct (Z.eqb_spec p 0) as [->|D].
    - apply Z.mod_small. lia.
    - symmetry. apply (Z.mod_unique_pos _ _ 1); lia. }
  rewrite (next prev P), (previous prev P), (next n), (previous 0) by lia.
  rewrite Z.eqb_refl. change (0 =? 0) with true. cbv iota.
  destruct (Z.eqb_spec prev n) as [E|D], (Z.eqb_spec prev 0) as [E'|D'];
    rewrite ?next, ?previous by lia;
    repeat match goal with
           | |- context [?a =? ?b] => destruct (Z.eqb_spec a b)
           end; lia.
Qed.

Lemma slides_wrap_around_witness :
  0 <= nextSlide 3 3 <= 3
  /\ 0 <= prevSlide 3 3 <= 3
  /\ prevSlide 3 (nextSlide 3 3) = 3
  /\ nextSlide 3 (prevSlide 3 3) = 3
  /\ nextSlide 3 3 = 0
  /\ prevSlide 3 0 = 3.
Proof. apply (slides_wrap_around 3 3); lia. Defined.

End SlideLaws.

(** ** PresentationModal: the insights of a slide *)

Section ChartInsightLaws.
Import PresentationModal.

Lemma includes_empty (s : string) : includes s "" = true.
Proof. destruct s; reflexivity. Qed.

(** X21: on the slide of a chart that lacks an axis, or has the empty
    name for one, every insight counts as related to the chart. *)
Theorem chartInsights_without_axis (chart : ChartConfig.t) (insights : list DataInsight.t) :
  ChartCard.unset (ChartConfig.xAxis chart) = true
  \/ ChartCard.unset (ChartConfig.yAxis chart) = true ->
  chartInsights chart insights = insights.
Proof.
  intros U. unfold chartInsights.
  assert (E : forall axis, ChartCard.unset axis = true -> lower_or_empty axis = "").
  { intros [name|]; simpl; [|reflexivity]. intros H. apply String.eqb_eq in H.
    subst. reflexivity. }
  induction insights as [|insight insights IH]; simpl; [reflexivity|].
  rewrite IH. destruct U as [U|U]; rewrite (E _ U), includes_empty.
  - reflexivity.
  - rewrite orb_true_r. reflexivity.
Qed.

Lemma chartInsights_without_axis_witness :
  chartInsights (Dashboard.chart "chart-1-3" table "Data Table" None None)
                (generateInsights Scenario.insight_data)
  = generateInsights Scenario.insight_data.
Proof. apply chartInsights_without_axis. left. reflexivity. Defined.

End ChartInsightLaws.

(** ** ChartModal: the selection *)

Section ToggleLaws.
Import ChartModal.

Lemma ChartType_eqb_eq (a b : ChartType) : ChartType_eqb a b = true <-> a = b.
Proof. destruct a, b; simpl; split; congruence. Qed.

(** X22: clicking a chart type toggles its selection and no other:
    afterwards the type is selected exactly when it was not before, the
    other types are selected as before, and a selection without
    duplicates stays without duplicates. *)
Theorem toggleChart_toggles (type : ChartType) (prev : list ChartType) :
  (In type (toggleChart type prev) <-> ~ In type prev)
  /\ (forall t, t <> type -> (In t (toggleChart type prev) <-> In t prev))
  /\ (NoDup prev -> NoDup (toggleChart type prev)).
Proof.
  unfold toggleChart.
  destruct (existsb (ChartType_eqb type) prev) eqn:E.
  - assert (I : In type prev).
    { apply existsb_exists in E. destruct E as [t [I E]].
      apply ChartType_eqb_eq in E. subst. exact I. }
    split; [|split].
    + rewrite filter_In. split; [|tauto]. intros [_ H].
      rewrite (proj2 (ChartType_eqb_eq type type) eq_refl) in H. discriminate.
    + intros t D. rewrite filter_In. split; [tauto|]. intros J. split; [exact J|].
      destruct (ChartType_eqb t type) eqn:T; [|reflexivity].
      apply ChartType_eqb_eq in T. contradiction.
    + apply NoDup_filter.
  - assert (N : ~ In type prev).
    { intros I. rewrite <- not_true_iff_false in E. apply E.
      apply existsb_exists. exists type. split; [exact I|].
      apply ChartType_eqb_eq. reflexivity. }
    split; [|split].
    + rewrite in_app_iff. simpl. tauto.
    + intros t D. rewrite in_app_iff. simpl. split; [|tauto].
      intros [I|[I|[]]]; [exact I|]. symmetry in I. contradiction.
    + intros ND. apply NoDup_app; [exact ND|repeat constructor; intros []|].
      intros t I [<-|[]]. contradiction.
Qed.

End ToggleLaws.

(** ** Dashboard and ChartCard: the charts of an import *)

Section DashboardLaws.
Import Dashboard.

Lemma ends_apart (a b tail tail' : string) :
  hd_error (rev (chars tail)) <> hd_error (rev (chars tail')) ->
  chars tail <> [] -> chars tail' <> [] ->
  a ++ tail <> b ++ tail'.
Proof.
  intros D T T' H. apply (f_equal chars) in H. rewrite !chars_append in H.
  apply (f_equal (@rev ascii)) in H. rewrite !rev_app_distr in H.
  destruct (rev (chars tail)) as [|c r] eqn:R.
  - apply (f_equal (@rev ascii)) in R. rewrite rev_involutive in R. contradiction.
  - destruct (rev (chars tail')) as [|c' r'] eqn:R'.
    + apply (f_equal (@rev ascii)) in R'. rewrite rev_involutive in R'. contradiction.
    + simpl in H, D. injection H as E _. apply D. rewrite E. reflexivity.
Qed.

Lemma append_assoc (a b c : string) : (a ++ b) ++ c = a ++ b ++ c.
Proof. induction a as [|x a IH]; simpl; [reflexivity|]. rewrite IH. reflexivity. Qed.

Lemma chart_ids_apart (s s' tail tail' : string) :
  hd_error (rev (chars tail)) <> hd_error (rev (chars tail')) ->
  chars tail <> [] -> chars tail' <> [] ->
  "chart-" ++ s ++ tail <> "chart-" ++ s' ++ tail'.
Proof.
  intros D T T' H.
  apply (ends_apart ("chart-" ++ s) ("chart-" ++ s') tail tail' D T T').
  rewrite !append_assoc. exact H.
Qed.

Lemma analyzeData_names (data : list DataRow) :
  map ColumnInfo.name (analyzeData data) = keys (hd [] data).
Proof.
  destruct data as [|row0 data]; [reflexivity|].
  unfold analyzeData. rewrite map_map. simpl. apply map_id.
Qed.

(** The charts [handleDataImported] makes, by the columns. *)
Lemma initial_charts (now : nat -> float) (newData : list DataRow)
      (newColumns : list ColumnInfo.t) (state : State) :
  exists t1 t2 t3,
    charts (handleDataImported now newData newColumns state)
    = if (2 <=? List.length newColumns)%nat then
        ((match filter is_numeric newColumns, filter is_categorical newColumns with
          | n0 :: _, c0 :: _ =>
              [chart ("chart-" ++ t1 ++ "-1") bar "Overview Chart"
                     (Some (ColumnInfo.name c0)) (Some (ColumnInfo.name n0))]
          | _, _ => []
          end)
         ++ (match filter is_numeric newColumns with
             | n0 :: n1 :: _ =>
                 [chart ("chart-" ++ t2 ++ "-2") scatter "Correlation Analysis"
                        (Some (ColumnInfo.name n0)) (Some (ColumnInfo.name n1))]
             | _ => []
             end)
         ++ [chart ("chart-" ++ t3 ++ "-3") table "Data Table" None None])%list
      else [].
Proof.
  unfold handleDataImported. cbn [charts].
  destruct (2 <=? List.length newColumns)%nat; [|exists "", "", ""; reflexivity].
  destruct (filter is_numeric newColumns) as [|n0 [|n1 numericCols]],
           (filter is_categorical newColumns) as [|c0 categoricalCols];
    simpl;
    first [ exists (number_to_string (now 0%nat)), (number_to_string (now 1%nat)),
                   (number_to_string (now 2%nat)); reflexivity
          | exists (number_to_string (now 0%nat)), "", (number_to_string (now 1%nat));
            reflexivity
          | exists "", (number_to_string (now 0%nat)), (number_to_string (now 1%nat));
            reflexivity
          | exists "", "", (number_to_string (now 0%nat)); reflexivity ].
Qed.

(** What the charts of an import are like: where the table is, what
    the axes of the others are, and that the ids differ. *)
Lemma initial_charts_described (now : nat -> float) (newData : list DataRow)
        (newColumns : list ColumnInfo.t) (state : State) :
  let made := charts (handleDataImported now newData newColumns state) in
  ((List.length newColumns < 2)%nat -> made = [])
  /\ ((2 <= List.length newColumns)%nat ->
      exists before last_chart,
        made = (before ++ [last_chart])%list
        /\ (List.length before <= 2)%nat
        /\ ChartConfig.type last_chart = table
        /\ forall c, In c before -> ChartConfig.type c <> table)
  /\ (forall c, In c made ->
        match ChartConfig.type c with
        | bar =>
            exists cat num,
              In cat newColumns /\ ColumnInfo.type cat = categorical
              /\ In num newColumns /\ ColumnInfo.type num = numeric
              /\ ChartConfig.xAxis c = Some (ColumnInfo.name cat)
              /\ ChartConfig.yAxis c = Some (ColumnInfo.name num)
        | scatter =>
            exists n0 n1 others,
              filter is_numeric newColumns = n0 :: n1 :: others
              /\ ChartConfig.xAxis c = Some (ColumnInfo.name n0)
              /\ ChartConfig.yAxis c = Some (ColumnInfo.name n1)
        | table => ChartConfig.xAxis c = None /\ ChartConfig.yAxis c = None
        | _ => False
        end)
  /\ NoDup (map ChartConfig.id made).
Proof.
  intros made. subst made.
  destruct (initial_charts now newData newColumns state) as [t1 [t2 [t3 ->]]].
  assert (numeric_in : forall n l, filter is_numeric newColumns = n :: l ->
            In n newColumns /\ ColumnInfo.type n = numeric).
  { intros n l E. assert (I : In n (filter is_numeric newColumns))
      by (rewrite E; left; reflexivity).
    apply filter_In in I. destruct I as [I T]. split; [exact I|].
    unfold is_numeric in T. destruct (ColumnInfo.type n); congruence. }
  assert (categorical_in : forall n l, filter is_categorical newColumns = n :: l ->
            In n newColumns /\ ColumnInfo.type n = categorical).
  { intros n l E. assert (I : In n (filter is_categorical newColumns))
      by (rewrite E; left; reflexivity).
    apply filter_In in I. destruct I as [I T]. split; [exact I|].
    unfold is_categorical in T. destruct (ColumnInfo.type n); congruence. }
  destruct (Nat.leb_spec 2 (List.length newColumns)) as [L|L].
  - set (bars := match filter is_numeric newColumns, filter is_categorical newColumns with
                 | n0 :: _, c0 :: _ =>
                     [chart ("chart-" ++ t1 ++ "-1") bar "Overview Chart"
                            (Some (ColumnInfo.name c0)) (Some (ColumnInfo.name n0))]
                 | _, _ => []
                 end).
    set (scatters := match filter is_numeric newColumns with
                     | n0 :: n1 :: _ =>
                         [chart ("chart-" ++ t2 ++ "-2") scatter "Correlation Analysis"
                                (Some (ColumnInfo.name n0)) (Some (ColumnInfo.name n1))]
                     | _ => []
                     end).
    set (last_chart := chart ("chart-" ++ t3 ++ "-3") table "Data Table" None None).
    assert (B : forall c, In c bars ->
              ChartConfig.id c = "chart-" ++ t1 ++ "-1" /\ ChartConfig.type c = bar
              /\ exists cat num,
                   In cat newColumns /\ ColumnInfo.type cat = categorical
                   /\ In num newColumns /\ ColumnInfo.type num = numeric
                   /\ ChartConfig.xAxis c = Some (ColumnInfo.name cat)
                   /\ ChartConfig.yAxis c = Some (ColumnInfo.name num)).
    { subst bars. intros c I.
      destruct (filter is_numeric newColumns) as [|n0 numericCols] eqn:EN; [destruct I|].
      destruct (filter is_categorical newColumns) as [|c0 categoricalCols] eqn:EC;
        [destruct I|].
      destruct I as [<-|[]]. split; [reflexivity|]. split; [reflexivity|].
      destruct (numeric_in _ _ eq_refl) as [NI NT].
      destruct (categorical_in _ _ eq_refl) as [CI CT].
      exists c0, n0. repeat split; assumption. }
    assert (S : forall c, In c scatters ->
              ChartConfig.id c = "chart-" ++ t2 ++ "-2" /\ ChartConfig.type c = scatter
              /\ exists n0 n1 others,
                   filter is_numeric newColumns = n0 :: n1 :: others
                   /\ ChartConfig.xAxis c = Some (ColumnInfo.name n0)
                   /\ ChartConfig.yAxis c = Some (ColumnInfo.name n1)).
    { subst scatters. intros c I.
      destruct (filter is_numeric newColumns) as [|n0 [|n1 numericCols]];
        [destruct I|destruct I|].
      destruct I as [<-|[]]. split; [reflexivity|]. split; [reflexivity|].
      exists n0, n1, numericCols. repeat split. }
    assert (LB : (List.length bars <= 1)%nat).
    { subst bars. destruct (filter is_numeric newColumns), (filter is_categorical newColumns);
        simpl; lia. }
    assert (LS : (List.length scatters <= 1)%nat).
    { subst scatters. destruct (filter is_numeric newColumns) as [|n0 [|n1 l]]; simpl; lia. }
    clearbody bars scatters. split; [lia|]. split; [|split].
    + intros _. exists (bars ++ scatters)%list, last_chart.
      split; [rewrite <- app_assoc; reflexivity|]. split; [rewrite length_app; lia|].
      split; [reflexivity|]. intros c I. apply in_app_or in I.
      destruct I as [I|I]; [destruct (B c I) as [_ [T _]]|destruct (S c I) as [_ [T _]]];
        rewrite T; discriminate.
    + intros c I. apply in_app_or in I. destruct I as [I|I].
      * destruct (B c I) as [_ [-> H]]. exact H.
      * apply in_app_or in I. destruct I as [I|[<-|[]]].
        -- destruct (S c I) as [_ [-> H]]. exact H.
        -- split; reflexivity.
    + rewrite !map_app.
      assert (one : forall (l : list ChartConfig.t), (List.length l <= 1)%nat ->
                NoDup (map ChartConfig.id l)).
      { intros [|c [|c' l]] H; simpl in *; [constructor| |lia].
        constructor; [intros []|constructor]. }
      apply NoDup_app; [exact (one _ LB)| |].
      * apply NoDup_app; [exact (one _ LS)|repeat constructor; intros []|].
        intros i I [<-|[]]. apply in_map_iff in I. destruct I as [c [E I]].
        destruct (S c I) as [Id _]. rewrite Id in E. revert E.
        apply chart_ids_apart; simpl; congruence.
      * intros i I J. apply in_map_iff in I. destruct I as [c [E I]].
        destruct (B c I) as [Id _]. rewrite Id in E. subst i.
        apply in_app_or in J. destruct J as [J|[J|[]]].
        -- apply in_map_iff in J. destruct J as [c' [E' J]].
           destruct (S c' J) as [Id' _]. rewrite Id' in E'. revert E'.
           apply chart_ids_apart; simpl; congruence.
        -- revert J. apply chart_ids_apart; simpl; congruence.
  - split; [intros _; reflexivity|]. split; [lia|].
    split; [intros c []|constructor].
Qed.

(** Which charts an import makes, in their order. *)
Lemma initial_charts_shape (now : nat -> float) (newData : list DataRow)
      (newColumns : list ColumnInfo.t) (state : State) :
  map (fun c => (ChartConfig.type c, ChartConfig.title c,
                 ChartConfig.xAxis c, ChartConfig.yAxis c))
      (charts (handleDataImported now newData newColumns state))
  = if (2 <=? List.length newColumns)%nat then
      ((match filter is_numeric newColumns, filter is_categorical newColumns with
        | n0 :: _, c0 :: _ =>
            [(bar, "Overview Chart",
              Some (ColumnInfo.name c0), Some (ColumnInfo.name n0))]
        | _, _ => []
        end)
       ++ (match filter is_numeric newColumns with
           | n0 :: n1 :: _ =>
               [(scatter, "Correlation Analysis",
                 Some (ColumnInfo.name n0), Some (ColumnInfo.name n1))]
           | _ => []
           end)
       ++ [(table, "Data Table", None, None)])%list
    else [].
Proof.
  destruct (initial_charts now newData newColumns state) as [t1 [t2 [t3 ->]]].
  destruct (2 <=? List.length newColumns)%nat; [|reflexivity].
  destruct (filter is_numeric newColumns) as [|n0 [|n1 numericCols]],
           (filter is_categorical newColumns) as [|c0 categoricalCols];
    reflexivity.
Qed.

(** X23: importing data replaces the charts of the dashboard: by none
    when there are fewer than two columns; otherwise by a bar chart
    'Overview Chart' of the first numeric column by the first
    categorical one exactly when there are both, then a scatter plot
    'Correlation Analysis' of the first two numeric columns exactly
    when there are two, then, always, a table 'Data Table' without
    axes, and by no other chart.  Their ids differ from one another,
    whatever the clock answers. *)
Theorem handleDataImported_charts (now : nat -> float) (newData : list DataRow)
        (newColumns : list ColumnInfo.t) (state : State) :
  let made := charts (handleDataImported now newData newColumns state) in
  let numericCols := filter is_numeric newColumns in
  let categoricalCols := filter is_categorical newColumns in
  map (fun c => (ChartConfig.type c, ChartConfig.title c,
                 ChartConfig.xAxis c, ChartConfig.yAxis c)) made
  = (if (2 <=? List.length newColumns)%nat then
       ((match numericCols, categoricalCols with
         | n0 :: _, c0 :: _ =>
             [(bar, "Overview Chart",
               Some (ColumnInfo.name c0), Some (ColumnInfo.name n0))]
         | _, _ => []
         end)
        ++ (match numericCols with
            | n0 :: n1 :: _ =>
                [(scatter, "Correlation Analysis",
                  Some (ColumnInfo.name n0), Some (ColumnInfo.name n1))]
            | _ => []
            end)
        ++ [(table, "Data Table", None, None)])%list
     else [])
  /\ ((List.length newColumns < 2)%nat -> made = [])
  /\ ((2 <= List.length newColumns)%nat ->
      exists before last_chart,
        made = (before ++ [last_chart])%list
        /\ (List.length before <= 2)%nat
        /\ ChartConfig.type last_chart = table
        /\ forall c, In c before -> ChartConfig.type c <> table)
  /\ (forall c, In c made ->
        match ChartConfig.type c with
        | bar =>
            exists cat num,
              In cat newColumns /\ ColumnInfo.type cat = categorical
              /\ In num newColumns /\ ColumnInfo.type num = numeric
              /\ ChartConfig.xAxis c = Some (ColumnInfo.name cat)
              /\ ChartConfig.yAxis c = Some (ColumnInfo.name num)
        | scatter =>
            exists n0 n1 others,
              numericCols = n0 :: n1 :: others
              /\ ChartConfig.xAxis c = Some (ColumnInfo.name n0)
              /\ ChartConfig.yAxis c = Some (ColumnInfo.name n1)
        | table => ChartConfig.xAxis c = None /\ ChartConfig.yAxis c = None
        | _ => False
        end)
  /\ NoDup (map ChartConfig.id made).
Proof.
  intros made numericCols categoricalCols. split.
  - apply initial_charts_shape.
  - apply initial_charts_described.
Qed.

(** The table chart that an import makes is drawn as the placeholder:
    a card draws nothing but the request to configure the axes as long
    as one of the two axes is missing or empty, whatever its type. *)
Lemma renderChart_unset (config : ChartConfig.t) (data : list DataRow)
      (columns : list ColumnInfo.t) :
  ChartCard.unset (ChartConfig.xAxis config) = true
  \/ ChartCard.unset (ChartConfig.yAxis config) = true ->
  ChartCard.renderChart config data columns = ChartCard.Placeholder.
Proof.
  unfold ChartCard.renderChart.
  destruct (ChartConfig.xAxis config) as [x|], (ChartConfig.yAxis config) as [y|];
    try reflexivity.
  intros [U|U]; rewrite U; [reflexivity|]. rewrite orb_true_r. reflexivity.
Qed.

(** X24: a card draws its chart only when both axes are set: with an
    axis missing or empty it shows the request to configure the axes,
    whatever the type of the chart, tables and KPI tiles included; and
    it never draws nothing. *)
Theorem renderChart_needs_both_axes (config : ChartConfig.t) (data : list DataRow)
        (columns : list ColumnInfo.t) :
  (ChartCard.renderChart config data columns = ChartCard.Placeholder <->
   ChartCard.unset (ChartConfig.xAxis config) = true
   \/ ChartCard.unset (ChartConfig.yAxis config) = true)
  /\ ChartCard.renderChart config data columns <> ChartCard.Nothing.
Proof.
  split; [split; [|apply renderChart_unset]|].
  - unfold ChartCard.renderChart.
    destruct (ChartConfig.xAxis config) as [x|], (ChartConfig.yAxis config) as [y|];
      try (intros _; simpl; tauto).
    destruct (ChartCard.unset (Some x)); [tauto|].
    destruct (ChartCard.unset (Some y)) eqn:Y; [tauto|]. simpl.
    destruct (ChartConfig.type config); discriminate.
  - unfold ChartCard.renderChart.
    destruct (ChartConfig.xAxis config) as [x|], (ChartConfig.yAxis config) as [y|];
      try discriminate.
    destruct (ChartCard.unset (Some x)); [discriminate|].
    destruct (ChartCard.unset (Some y)) eqn:Y; [discriminate|]. simpl.
    destruct (ChartConfig.type config); discriminate.
Qed.

(** X25: of the charts an import puts on the dashboard, the bar chart
    and the scatter plot are drawn and the data table is not: its
    card, having no axes, shows the request to configure the axes
    (the columns being named by texts that are not empty). *)
Theorem imported_charts_drawn (now : nat -> float) (newData : list DataRow)
        (newColumns : list ColumnInfo.t) (state : State) (c : ChartConfig.t) :
  In c (charts (handleDataImported now newData newColumns state)) ->
  (forall col, In col newColumns -> ColumnInfo.name col <> "") ->
  forall data columns,
    ChartCard.renderChart c data columns = ChartCard.Placeholder
    <-> ChartConfig.type c = table.
Proof.
  intros I Named data columns.
  destruct (initial_charts now newData newColumns state) as [t1 [t2 [t3 E]]].
  rewrite E in I. clear E.
  assert (named : forall col, In col newColumns ->
            ChartCard.unset (Some (ColumnInfo.name col)) = false).
  { intros col J. simpl. apply String.eqb_neq. exact (Named col J). }
  assert (from : forall (p : ColumnInfo.t -> bool) col l,
            filter p newColumns = col :: l -> forall col', In col' (col :: l) ->
            In col' newColumns).
  { intros p col l F col' J. rewrite <- F in J. apply filter_In in J. tauto. }
  destruct (2 <=? List.length newColumns)%nat; [|destruct I].
  apply in_app_or in I. destruct I as [I|I]; [|apply in_app_or in I; destruct I as [I|I]].
  - destruct (filter is_numeric newColumns) as [|n0 l] eqn:EN; [destruct I|].
    destruct (filter is_categorical newColumns) as [|c0 l'] eqn:EC; [destruct I|].
    destruct I as [<-|[]]. unfold ChartCard.renderChart.
    cbn [chart ChartConfig.xAxis ChartConfig.yAxis ChartConfig.type].
    rewrite (named c0), (named n0);
      [|exact (from _ _ _ EN n0 (or_introl eq_refl))
       |exact (from _ _ _ EC c0 (or_introl eq_refl))].
    simpl. split; discriminate.
  - destruct (filter is_numeric newColumns) as [|n0 [|n1 l]] eqn:EN;
      [destruct I|destruct I|].
    destruct I as [<-|[]]. unfold ChartCard.renderChart.
    cbn [chart ChartConfig.xAxis ChartConfig.yAxis ChartConfig.type].
    rewrite (named n0), (named n1);
      [|exact (from _ _ _ EN n1 (or_intror (or_introl eq_refl)))
       |exact (from _ _ _ EN n0 (or_introl eq_refl))].
    simpl. split; discriminate.
  - destruct I as [<-|[]]. split; reflexivity.
Qed.

End DashboardLaws.

Section DashboardExamples.
Import Dashboard.

Lemma imported_charts_drawn_witness :
  ChartCard.renderChart Example.data_table Scenario.insight_data
                        (analyzeData Scenario.insight_data)
  = ChartCard.Placeholder
  <-> ChartConfig.type Example.data_table = table.
Proof.
  generalize Scenario.insight_data at 1, (analyzeData Scenario.insight_data).
  apply (imported_charts_drawn Example.clock Scenario.insight_data
           (analyzeData Scenario.insight_data) Example.empty_dashboard
           Example.data_table).
  - vm_compute. right. left. reflexivity.
  - intros col I. apply (in_map ColumnInfo.name) in I.
    assert (Names : map ColumnInfo.name (analyzeData Scenario.insight_data)
                    = ["a"; "b"; "v"]) by (vm_compute; reflexivity).
    rewrite Names in I.
    destruct I as [E|[E|[E|[]]]]; rewrite <- E; discriminate.
Defined.

End DashboardExamples.

(** ** Dashboard: saving and deleting a chart *)

Section ChartEditLaws.
Import Dashboard.

(** X26: saving a chart keeps the number, the order and the ids of the
    charts: the charts that have the id of the saved one become it, the
    others stay as they are; and deleting by an id removes exactly the
    charts of that id, whether or not one of them was saved before. *)
Theorem updateChart_deleteChart (updated : ChartConfig.t) (state : State) :
  map ChartConfig.id (charts (updateChart updated state))
  = map ChartConfig.id (charts state)
  /\ (forall index c,
        nth_error (charts state) index = Some c ->
        nth_error (charts (updateChart updated state)) index
        = Some (if String.eqb (ChartConfig.id c) (ChartConfig.id updated)
                then updated else c))
  /\ (forall chartId c,
        In c (charts (deleteChart chartId state)) <->
        In c (charts state) /\ ChartConfig.id c <> chartId)
  /\ charts (deleteChart (ChartConfig.id updated) (updateChart updated state))
     = charts (deleteChart (ChartConfig.id updated) state).
Proof.
  unfold updateChart, deleteChart. cbn [charts]. split; [|split; [|split]].
  - rewrite map_map. apply map_ext. intros c.
    destruct (String.eqb_spec (ChartConfig.id c) (ChartConfig.id updated)) as [E|_];
      [symmetry; exact E|reflexivity].
  - intros index c H. rewrite nth_error_map, H. reflexivity.
  - intros chartId c. rewrite filter_In.
    destruct (String.eqb_spec (ChartConfig.id c) chartId); simpl; intuition congruence.
  - induction (charts state) as [|c l IH]; simpl; [reflexivity|].
    destruct (String.eqb_spec (ChartConfig.id c) (ChartConfig.id updated)) as [E|N]; simpl.
    + rewrite String.eqb_refl. simpl. exact IH.
    + apply String.eqb_neq in N. rewrite N. simpl. rewrite IH. reflexivity.
Qed.

End ChartEditLaws.

(** ** ChartCard: the rows that are drawn *)

Section ProcessedDataLaws.
Local Open Scope float_scope.




End ProcessedDataLaws.

(** ** InsightPanel: the colour of an insight *)

Section InsightColourLaws.
Local Open Scope float_scope.
Import InsightPanel.

(** X28: the colour and the badge of an insight follow from its type:
    an outlier insight is always shown as a success, a categorical one
    as a warning, and a correlation insight is muted exactly when its
    coefficient is below 0.6 in absolute value. *)
Theorem insight_colours (data : list DataRow) (insight : DataInsight.t) :
  In insight (generateInsights data) ->
  let confidence := DataInsight.confidence insight in
  match DataInsight.type insight with
  | Outlier =>
      getInsightColor confidence = "text-success"
      /\ getConfidenceBadge confidence = "bg-success"
  | Categorical =>
      getInsightColor confidence = "text-warning"
      /\ getConfidenceBadge confidence = "bg-warning"
  | Correlation =>
      (getInsightColor confidence = "text-muted-foreground" <-> (confidence <? 0.6) = true)
      /\ (getConfidenceBadge confidence = "bg-muted" <-> (confidence <? 0.6) = true)
  | Trend => False
  end.
Proof.
  intros I confidence.
  destruct (candidate_confidence data insight (returned_is_candidate data insight I))
    as [Above Kind].
  fold confidence in Above, Kind.
  destruct (DataInsight.type insight).
  - destruct (ltb_numbers _ _ Above) as [_ N].
    unfold getInsightColor, getConfidenceBadge.
    rewrite (leb_rank 0.8 confidence), (leb_rank 0.6 confidence),
      (ltb_rank confidence 0.6) by (reflexivity || exact N).
    assert (Order : (rank 0.6 < rank 0.8)%Z) by (vm_compute; reflexivity).
    destruct (Z.leb_spec (rank 0.8) (rank confidence));
      destruct (Z.leb_spec (rank 0.6) (rank confidence));
      destruct (Z.ltb_spec (rank confidence) (rank 0.6));
      try lia; split; split; congruence.
  - rewrite Kind. split; reflexivity.
  - exact Kind.
  - rewrite Kind. split; reflexivity.
Qed.

Lemma insight_colours_witness :
  getInsightColor (DataInsight.confidence Sample.outlier_insight) = "text-success"
  /\ getConfidenceBadge (DataInsight.confidence Sample.outlier_insight) = "bg-success".
Proof.
  apply (insight_colours Scenario.insight_data Sample.outlier_insight).
  vm_compute. right. left. reflexivity.
Defined.

End InsightColourLaws.

(** ** DataImporter: what an import accepts *)

Section ImportLaws.
Import Dashboard.

(** X29: the importer hands to the dashboard only arrays that are not
    empty, and refuses every other parsed value with its own message:
    the failures of [analyzeData] on values that are no arrays cannot
    occur behind it.  After an import the columns are the keys of the
    first row, and the dashboard has charts exactly when that row has
    at least two keys. *)
Theorem handleJsonPaste_outcomes (now : nat -> float) (parsed : Input) (state : State) :
  match DataImporter.handleJsonPaste now parsed state with
  | Returns after =>
      exists row0 more,
        parsed = rows (row0 :: more)
        /\ data after = row0 :: more
        /\ map ColumnInfo.name (columns after) = keys row0
        /\ (charts after = [] <-> (List.length (keys row0) < 2)%nat)
  | Throws error =>
      error = "Invalid JSON format. Expected an array of objects."
      /\ forall row0 more, parsed <> rows (row0 :: more)
  end.
Proof.
  unfold DataImporter.handleJsonPaste.
  destruct parsed as [| | | | |[|row0 more]]; try (split; [reflexivity|discriminate]).
  cbn [List.length Nat.eqb]. exists row0, more.
  split; [reflexivity|]. split; [reflexivity|].
  split; [exact (analyzeData_names (row0 :: more))|].
  pose proof (analyzeData_names (row0 :: more)) as Names.
  apply (f_equal (@List.length string)) in Names. rewrite length_map in Names.
  cbn [hd] in Names. rewrite <- Names.
  destruct (initial_charts now (row0 :: more) (analyzeData (row0 :: more)) state)
    as [t1 [t2 [t3 ->]]].
  destruct (Nat.leb_spec 2 (List.length (analyzeData (row0 :: more)))) as [L|L].
  - split; [|lia]. intros H. apply (f_equal (@List.length ChartConfig.t)) in H.
    rewrite !length_app in H. simpl in H. lia.
  - split; [intros _; exact L|reflexivity].
Qed.

End ImportLaws.

(** ** InsightPanel: the exported file *)

Section ExportLaws.
Import InsightPanel.

Lemma split_join_by (sep : ascii) (items : list string) :
  items <> [] -> (forall s, In s items -> ~ In sep (chars s)) ->
  split sep (join (str [sep]) items) = items.
Proof.
  unfold split.
  induction items as [|s items IH]; [congruence|]. intros _ Free.
  destruct items as [|s' items].
  - simpl. rewrite split_chars_whole by (apply Free; left; reflexivity).
    simpl. rewrite str_chars. reflexivity.
  - change (join (str [sep]) (s :: s' :: items))
      with (s ++ str [sep] ++ join (str [sep]) (s' :: items)).
    rewrite chars_append. change (chars (str [sep] ++ ?t)) with (sep :: chars t).
    rewrite split_chars_app, map_app, IH.
    + rewrite split_chars_whole by (apply Free; left; reflexivity).
      simpl. rewrite str_chars. reflexivity.
    + discriminate.
    + intros t I. apply Free. right. exact I.
Qed.

Lemma join_free (c sep : ascii) (items : list string) :
  c <> sep -> (forall s, In s items -> ~ In c (chars s)) ->
  ~ In c (chars (join (str [sep]) items)).
Proof.
  intros D. induction items as [|s items IH]; intros Free; [intros []|].
  destruct items as [|s' items].
  - simpl. apply Free. left. reflexivity.
  - change (join (str [sep]) (s :: s' :: items))
      with (s ++ str [sep] ++ join (str [sep]) (s' :: items)).
    rewrite chars_append. change (chars (str [sep] ++ ?t)) with (sep :: chars t).
    intros I. apply in_app_or in I. destruct I as [I|[I|I]].
    + exact (Free s (or_introl eq_refl) I).
    + apply D. symmetry. exact I.
    + revert I. apply IH. intros t J. apply Free. right. exact J.
Qed.

Lemma csv_field_free (c : ascii) (v : scalar) :
  c <> ascii_of_nat 34 -> ~ In c (chars (text_or_empty v)) ->
  ~ In c (chars (csv_field v)).
Proof.
  intros Q T. unfold csv_field, quote. rewrite !chars_append.
  change (chars (str [ascii_of_nat 34])) with [ascii_of_nat 34].
  intros I. apply in_app_or in I. destruct I as [[I|[]]|I].
  - apply Q. symmetry. exact I.
  - apply in_app_or in I. destruct I as [I|[I|[]]]; [exact (T I)|].
    apply Q. symmetry. exact I.
Qed.

(** X30: the exported file has the names of the columns on its first
    line and the cells of one row on each following line, every cell
    between double quotes: taken apart at the line breaks and the
    commas it gives back the names and the quoted cells, as long as no
    name and no cell contains a line break or a comma. *)
Theorem exportDataAsCSV_lines (columns : list ColumnInfo.t) (data : list DataRow)
        (csv : string) :
  exportDataAsCSV columns data = Some csv ->
  columns <> [] ->
  (forall col c, In col columns -> c = ascii_of_nat 10 \/ c = ","%char ->
     ~ In c (chars (ColumnInfo.name col))
     /\ forall row, In row data ->
          ~ In c (chars (text_or_empty (get row (ColumnInfo.name col))))) ->
  map (split ",") (split (ascii_of_nat 10) csv)
  = map ColumnInfo.name columns
    :: map (fun row => map (fun col => csv_field (get row (ColumnInfo.name col))) columns)
           data.
Proof.
  unfold exportDataAsCSV. destruct (List.length data =? 0)%nat; [discriminate|].
  match goal with |- Some (join _ ?l) = _ -> _ => set (lines := l) end.
  intros H Columns Free.
  assert (E : csv = join newline lines) by congruence.
  rewrite E. clear H E csv. unfold newline.
  rewrite split_join_by; [|discriminate|]; subst lines.
  - cbn [map]. f_equal.
    + apply (split_join_by ","%char).
      * destruct columns; [congruence|discriminate].
      * intros s I. apply in_map_iff in I. destruct I as [col [<- I]].
        apply (Free col ","%char I). right. reflexivity.
    + rewrite map_map. apply map_ext_in. intros row R.
      apply (split_join_by ","%char).
      * destruct columns; [congruence|discriminate].
      * intros s I. apply in_map_iff in I. destruct I as [col [<- I]].
        apply csv_field_free; [discriminate|].
        apply (Free col ","%char I); [right; reflexivity|exact R].
  - intros line [<-|I].
    + apply (join_free _ ","%char); [discriminate|].
      intros s I. apply in_map_iff in I. destruct I as [col [<- I]].
      apply (Free col _ I). left. reflexivity.
    + apply in_map_iff in I. destruct I as [row [<- R]].
      apply (join_free _ ","%char); [discriminate|].
      intros s I. apply in_map_iff in I. destruct I as [col [<- I]].
      apply csv_field_free; [discriminate|].
      apply (Free col _ I); [left; reflexivity|exact R].
Qed.

End ExportLaws.

Section ExportExamples.
Import InsightPanel.

Lemma exportDataAsCSV_lines_witness :
  let columns := analyzeData Scenario.fraction_data in
  let csv := match exportDataAsCSV columns Scenario.fraction_data with
             | Some content => content
             | None => ""
             end in
  map (split ",") (split (ascii_of_nat 10) csv)
  = map ColumnInfo.name columns
    :: map (fun row => map (fun col => csv_field (get row (ColumnInfo.name col))) columns)
           Scenario.fraction_data.
Proof.
  intros columns csv.
  apply (exportDataAsCSV_lines columns Scenario.fraction_data csv).
  - vm_compute. reflexivity.
  - subst columns. vm_compute. discriminate.
  - intros col c I C. apply (in_map ColumnInfo.name) in I. subst columns.
    assert (Names : map ColumnInfo.name (analyzeData Scenario.fraction_data)
                    = ["a"; "b"]) by (vm_compute; reflexivity).
    rewrite Names in I.
    destruct I as [E|[E|[]]]; rewrite <- E; destruct C as [-> | ->];
      (split; [vm_compute; intuition discriminate|]);
      intros row [<-|[<-|[]]]; vm_compute; intuition discriminate.
Defined.

End ExportExamples.
